(** * The measurement tool of [src/components/Three/Measure.ts]

    A shallow embedding of the [Measure] class: its numeric helpers
    ([numberToString], [calculateArea], [calculateAngle],
    [getAngleBisector]), the part of the three.js scene graph and of the
    DOM event-listener table it drives, and its event handlers
    ([open], [close], [complete], [mousemove], [onMouseClicked], ...) as
    functions on an explicit state record. *)

From Stdlib Require Import ZArith String Ascii List Bool Lia.
From Stdlib Require Import SpecFloat DecimalString QArith.
From stdpp Require Import base option list gmap.

Local Open Scope Z_scope.

(** ** JavaScript numbers

    A JavaScript [number] is an IEEE 754 binary64 value.  It is modelled
    by [spec_float] with the binary64 parameters, so every arithmetic
    operation below rounds, overflows and produces NaN as the engine
    does. *)
Module Num.

Definition number := spec_float.

Definition prec : Z := 53.
Definition emax : Z := 1024.

Definition add : number -> number -> number := SFadd prec emax.
Definition sub : number -> number -> number := SFsub prec emax.
Definition mul : number -> number -> number := SFmul prec emax.
Definition div : number -> number -> number := SFdiv prec emax.
Definition sqrt : number -> number := SFsqrt prec emax.
Definition neg : number -> number := SFopp.
Definition ltb : number -> number -> bool := SFltb.
Definition leb : number -> number -> bool := SFleb.
Definition eqb : number -> number -> bool := SFeqb.

Definition NaN : number := S754_nan.
Definition zero : number := S754_zero false.

(** The number denoted by an integer literal (exact below 2^53). *)
Definition of_Z (n : Z) : number := binary_normalize prec emax n 0 false.

(** The number denoted by the decimal literal [n / 10^k]: numerator and
    denominator are exact for the literals of the source, and the
    correctly rounded quotient is the nearest binary64 value. *)
Definition lit (n : Z) (k : Z) : number := div (of_Z n) (of_Z (10 ^ k)).

(** JavaScript truthiness of a number: [0], [-0] and [NaN] are falsy. *)
Definition truthy (x : number) : bool :=
  match x with
  | S754_zero _ | S754_nan => false
  | _ => true
  end.

(** [Math.min] on two arguments. *)
Definition min (x y : number) : number :=
  match x, y with
  | S754_nan, _ | _, S754_nan => NaN
  | S754_zero sx, S754_zero sy => S754_zero (sx || sy)
  | _, _ => if ltb y x then y else x
  end.

(** [Math.max] on two arguments. *)
Definition max (x y : number) : number :=
  match x, y with
  | S754_nan, _ | _, S754_nan => NaN
  | S754_zero sx, S754_zero sy => S754_zero (sx && sy)
  | _, _ => if ltb x y then y else x
  end.

(** [Number.prototype.toString] is the engine's shortest round-trip
    conversion; the result of a call is kept as the call itself. *)
Inductive jsstring :=
| Str (s : string)
| DefaultString (x : number).

(** Decimal digits of a natural number, ["0"] for zero. *)
Definition digits (n : N) : string :=
  NilZero.string_of_uint (N.to_uint n).

Fixpoint zeros (n : nat) : string :=
  match n with
  | O => EmptyString
  | S n' => String "0" (zeros n')
  end.

(** The integer [n] for which [n / 10^f - x] is closest to zero, the
    larger one on a tie, for the non-negative finite [x = m * 2^e]. *)
Definition scaled_round (m : positive) (e : Z) (f : nat) : Z :=
  let p := 10 ^ Z.of_nat f in
  if 0 <=? e then Z.pos m * 2 ^ e * p
  else (2 * (Z.pos m * p) + 2 ^ (- e)) / (2 * 2 ^ (- e)).

(** Steps 8 to 10 of [Number.prototype.toFixed]: lay the digits of [n]
    out with [f] of them after the point. *)
Definition fixed_digits (n : Z) (f : nat) : string :=
  let m := digits (Z.to_N n) in
  match f with
  | O => m
  | _ =>
    let k := String.length m in
    let m' := if (k <=? f)%nat then (zeros (f + 1 - k) ++ m)%string else m in
    let k' := String.length m' in
    (substring 0 (k' - f) m' ++ "." ++ substring (k' - f) f m')%string
  end.

(** [Number.prototype.toFixed(f)] for [0 <= f <= 100]. *)
Definition toFixed (x : number) (f : nat) : jsstring :=
  match x with
  | S754_nan => Str "NaN"
  | S754_infinity false => Str "Infinity"
  | S754_infinity true => Str "-Infinity"
  | S754_zero _ => Str (fixed_digits 0 f)
  | S754_finite s m e =>
    if leb (of_Z (10 ^ 21)) (S754_finite false m e) then DefaultString x
    else
      let body := fixed_digits (scaled_round m e f) f in
      Str (if s then ("-" ++ body)%string else body)
  end.

End Num.

Import Num.

(** ** [THREE.Vector3]

    The methods of three.js's [Vector3] that the tool calls, with the
    evaluation order of their JavaScript bodies. *)
Module Vector3.

Record t := mk { x : number; y : number; z : number }.

Definition lengthSq (v : t) : number :=
  add (add (mul (x v) (x v)) (mul (y v) (y v))) (mul (z v) (z v)).

Definition length (v : t) : number := sqrt (lengthSq v).

Definition dot (v w : t) : number :=
  add (add (mul (x v) (x w)) (mul (y v) (y w))) (mul (z v) (z w)).

Definition distanceToSquared (v w : t) : number :=
  let dx := sub (x v) (x w) in
  let dy := sub (y v) (y w) in
  let dz := sub (z v) (z w) in
  add (add (mul dx dx) (mul dy dy)) (mul dz dz).

Definition distanceTo (v w : t) : number := sqrt (distanceToSquared v w).

Definition multiplyScalar (v : t) (s : number) : t :=
  mk (mul (x v) s) (mul (y v) s) (mul (z v) s).

Definition divideScalar (v : t) (s : number) : t :=
  multiplyScalar v (div (of_Z 1) s).

(** [normalize] divides by [this.length() || 1]. *)
Definition normalize (v : t) : t :=
  let l := length v in
  divideScalar v (if truthy l then l else of_Z 1).

Definition plus (v w : t) : t :=
  mk (add (x v) (x w)) (add (y v) (y w)) (add (z v) (z w)).

(** [MathUtils.clamp(value, min, max)] is
    [Math.max(min, Math.min(max, value))]. *)
Definition clamp (value lo hi : number) : number :=
  Num.max lo (Num.min hi value).

Definition PI : number := S754_finite false 7074237752028440 (-51).

(** [angleTo]; [Math.acos] is the engine's, passed as [acos]. *)
Definition angleTo (acos : number -> number) (v w : t) : number :=
  let denominator := sqrt (mul (lengthSq v) (lengthSq w)) in
  if eqb denominator zero then div PI (of_Z 2)
  else
    let theta := div (dot v w) denominator in
    acos (clamp theta (of_Z (-1)) (of_Z 1)).

End Vector3.

Abbreviation Vec3 := Vector3.t.

(** ** The numeric helpers of [Measure] *)

(** [numberToString], lines 717-728. *)
Definition numberToString (num : number) : jsstring :=
  if ltb num (lit 1 4) then DefaultString num
  else
    let fractionDigits :=
      if ltb num (lit 1 2) then 4%nat
      else if ltb num (lit 1 1) then 3%nat
      else 2%nat in
    toFixed num fractionDigits.

(** One iteration of the loop body of [calculateArea]: the area of the
    triangle [pi pj pk] by Heron's formula. *)
Definition heron (pi pj pk : Vec3) : number :=
  let a := Vector3.distanceTo pi pj in
  let b := Vector3.distanceTo pj pk in
  let c := Vector3.distanceTo pk pi in
  let p := div (add (add a b) c) (of_Z 2) in
  sqrt (mul (mul (mul p (sub p a)) (sub p b)) (sub p c)).

(** The [for] loop of [calculateArea]: [i] stays 0, [j] and [k] advance
    together, and the loop runs while [k < points.length].  [fuel]
    bounds the number of iterations. *)
Fixpoint calculateArea_loop (points : list Vec3) (fuel : nat) (j k : nat)
    (area : number) : number :=
  match fuel with
  | O => area
  | S fuel' =>
    if (k <? List.length points)%nat then
      match points !! 0%nat, points !! j, points !! k with
      | Some pi, Some pj, Some pk =>
        calculateArea_loop points fuel' (S j) (S k) (add area (heron pi pj pk))
      | _, _, _ => area
      end
    else area
  end.

(** [calculateArea], lines 667-677. *)
Definition calculateArea (points : list Vec3) : number :=
  calculateArea_loop points (List.length points) 1 2 zero.

(** [calculateAngle], lines 682-690. *)
Definition calculateAngle (acos : number -> number)
    (startPoint middlePoint endPoint : Vec3) : number :=
  let p0 := startPoint in
  let p1 := middlePoint in
  let p2 := endPoint in
  let dir0 := Vector3.mk (sub (Vector3.x p0) (Vector3.x p1))
                         (sub (Vector3.y p0) (Vector3.y p1))
                         (sub (Vector3.z p0) (Vector3.z p1)) in
  let dir1 := Vector3.mk (sub (Vector3.x p2) (Vector3.x p1))
                         (sub (Vector3.y p2) (Vector3.y p1))
                         (sub (Vector3.z p2) (Vector3.z p1)) in
  let angle := Vector3.angleTo acos dir0 dir1 in
  div (mul angle (of_Z 180)) Vector3.PI.

(** [getAngleBisector], lines 695-702. *)
Definition getAngleBisector (startPoint middlePoint endPoint : Vec3) : Vec3 :=
  let p0 := startPoint in
  let p1 := middlePoint in
  let p2 := endPoint in
  let dir0 := Vector3.normalize
                (Vector3.mk (sub (Vector3.x p0) (Vector3.x p1))
                            (sub (Vector3.y p0) (Vector3.y p1))
                            (sub (Vector3.z p0) (Vector3.z p1))) in
  let dir2 := Vector3.normalize
                (Vector3.mk (sub (Vector3.x p2) (Vector3.x p1))
                            (sub (Vector3.y p2) (Vector3.y p1))
                            (sub (Vector3.z p2) (Vector3.z p1))) in
  Vector3.normalize
    (Vector3.mk (add (Vector3.x dir0) (Vector3.x dir2))
                (add (Vector3.y dir0) (Vector3.y dir2))
                (add (Vector3.z dir0) (Vector3.z dir2))).

(** [getUnitString] needs the mode. *)
Inductive MeasureMode := Distance | Area | Angle.

#[global] Instance MeasureMode_eq_dec : EqDecision MeasureMode.
Proof. solve_decision. Defined.

(** ** The three.js scene graph

    Every [Object3D] the page ever creates lives in a store indexed by
    its id (three.js numbers objects from a global counter).  An object
    records its [parent]; [add] and [remove] maintain it, so that an
    object is a child of [p] exactly when its [parent] is [p]. *)
Module Three.

Abbreviation Obj := nat.

(** What a label shows.  The text of a measurement label is
    [numberToString(value) + ' ' + unit]; the angle is kept as the call
    of [calculateAngle] that produces it, since it goes through the
    engine's [Math.acos]. *)
Inductive Value :=
| Computed (v : number)
| AngleAt (p0 p1 p2 : Vec3).

Inductive LabelText :=
| NoText
| Text (s : string)
| Measured (v : Value) (unit : string).

Record Object3D := {
  name : string;
  parent : option Obj;
  position : Vec3;
  (* geometry.attributes.position.array, a Float32Array *)
  array : option (list number);
  (* geometry.drawRange.count, [None] for the default Infinity *)
  drawCount : option nat;
  (* element.innerHTML of a CSS2DObject *)
  innerHTML : LabelText;
}.

Definition origin : Vec3 := Vector3.mk zero zero zero.

Definition blank : Object3D :=
  {| name := EmptyString; parent := None; position := origin; array := None;
     drawCount := None; innerHTML := NoText |}.

Definition set_name (v : string) (o : Object3D) : Object3D :=
  {| name := v; parent := parent o; position := position o; array := array o;
     drawCount := drawCount o; innerHTML := innerHTML o |}.
Definition set_parent (v : option Obj) (o : Object3D) : Object3D :=
  {| name := name o; parent := v; position := position o; array := array o;
     drawCount := drawCount o; innerHTML := innerHTML o |}.
Definition set_position (v : Vec3) (o : Object3D) : Object3D :=
  {| name := name o; parent := parent o; position := v; array := array o;
     drawCount := drawCount o; innerHTML := innerHTML o |}.
Definition set_array (v : option (list number)) (o : Object3D) : Object3D :=
  {| name := name o; parent := parent o; position := position o; array := v;
     drawCount := drawCount o; innerHTML := innerHTML o |}.
Definition set_drawCount (v : option nat) (o : Object3D) : Object3D :=
  {| name := name o; parent := parent o; position := position o; array := array o;
     drawCount := v; innerHTML := innerHTML o |}.
Definition set_innerHTML (v : LabelText) (o : Object3D) : Object3D :=
  {| name := name o; parent := parent o; position := position o; array := array o;
     drawCount := drawCount o; innerHTML := v |}.

Abbreviation Store := (gmap Obj Object3D).

Definition parent_of (h : Store) (o : Obj) : option Obj :=
  h !! o ≫= parent.

Definition name_of (h : Store) (o : Obj) : string :=
  from_option name EmptyString (h !! o).

(** [p.remove(c)]: nothing happens unless [c] is a child of [p]. *)
Definition Object3D_remove (p c : Obj) (h : Store) : Store :=
  match h !! c with
  | Some o =>
    if decide (parent o = Some p) then <[c := set_parent None o]> h else h
  | None => h
  end.

(** [c && p.remove(c)] *)
Definition remove_opt (p : Obj) (c : option Obj) (h : Store) : Store :=
  match c with
  | Some o => Object3D_remove p o h
  | None => h
  end.

(** [p.add(c)]: [c] leaves its former parent and becomes the last child
    of [p]; adding an object to itself is refused. *)
Definition Object3D_add (p c : Obj) (h : Store) : Store :=
  if decide (c = p) then h
  else
    match h !! c with
    | Some o => <[c := set_parent (Some p) o]> h
    | None => h
    end.

(** The children of [p], oldest object first; [bound] is the id counter. *)
Definition children (bound : nat) (h : Store) (p : Obj) : list Obj :=
  filter (fun c => parent_of h c = Some p) (seq 0 bound).

(** [o.traverse(callback)] visits [o] and then its descendants. *)
Fixpoint traverse (fuel : nat) (bound : nat) (h : Store) (o : Obj) : list Obj :=
  match fuel with
  | O => [o]
  | S fuel' => o :: flat_map (traverse fuel' bound h) (children bound h o)
  end.

(** [Math.fround]: the value a [Float32Array] element holds after a
    store. *)
Definition fround (v : number) : number :=
  match v with
  | S754_finite s m e =>
    match binary_normalize 24 128 (cond_Zopp s (Z.pos m)) e s with
    | S754_finite s' m' e' =>
      binary_normalize prec emax (cond_Zopp s' (Z.pos m')) e' s'
    | r => r
    end
  | _ => v
  end.

(** [array[i] = v] on a typed array: ignored out of range. *)
Definition store (i : nat) (v : number) (a : list number) : list number :=
  <[i := fround v]> a.

(** [new Float32Array(n)]. *)
Definition Float32Array (n : nat) : list number := replicate n zero.

(** [QuadraticBezier(t, p0, p1, p2)] of three.js's [Interpolations]. *)
Definition QuadraticBezier (t p0 p1 p2 : number) : number :=
  let k := sub (of_Z 1) t in
  add (add (mul (mul k k) p0)
           (mul (mul (mul (of_Z 2) (sub (of_Z 1) t)) t) p1))
      (mul (mul t t) p2).

(** [new QuadraticBezierCurve3(v0, v1, v2).getPoints(divisions)]. *)
Definition getPoints (v0 v1 v2 : Vec3) (divisions : nat) : list Vec3 :=
  map (fun d =>
         let t := div (of_Z (Z.of_nat d)) (of_Z (Z.of_nat divisions)) in
         Vector3.mk
           (QuadraticBezier t (Vector3.x v0) (Vector3.x v1) (Vector3.x v2))
           (QuadraticBezier t (Vector3.y v0) (Vector3.y v1) (Vector3.y v2))
           (QuadraticBezier t (Vector3.z v0) (Vector3.z v1) (Vector3.z v2)))
      (seq 0 (S divisions)).

(** The position attribute [setFromPoints] builds. *)
Definition fromPoints (pts : list Vec3) : list number :=
  flat_map (fun p => [fround (Vector3.x p); fround (Vector3.y p);
                      fround (Vector3.z p)]) pts.

(** One hit of [raycaster.intersectObject(scene, true)]. *)
Record Intersection := {
  distance : number;
  point : Vec3;
  object : Obj;
}.

End Three.

Import Three.

(** ** The state of a [Measure] instance and of the page around it *)

Inductive Target := Canvas | Window.

Inductive Handler :=
| H_mousedown | H_mousemove | H_mouseup | H_dblclick | H_keydown.

(** One [addEventListener] registration. *)
Record Listener := {
  l_target : Target;
  l_type : string;
  l_callback : Handler;
}.

#[global] Instance Target_eq_dec : EqDecision Target.
Proof. solve_decision. Defined.
#[global] Instance Handler_eq_dec : EqDecision Handler.
Proof. solve_decision. Defined.
#[global] Instance Listener_eq_dec : EqDecision Listener.
Proof. solve_decision. Defined.

Inductive LogEntry :=
| console_log
| console_warn (msg : string)
| console_error (msg : string).

(** The fields of the class (lines 52-77) after the page state they act
    on.  [camera] and [controls] are set once by the constructor and
    never tested falsy; [pointCount] is never read or written. *)
Record Measure := {
  objects : Store; (* every Object3D created so far, by id *)
  nextId : Obj; (* the id the next object gets *)
  scene : Obj; (* this.scene *)
  listeners : list Listener; (* the listeners registered on the canvas and the window *)
  cursor : string; (* renderer.domElement.style.cursor *)
  console : list LogEntry; (* what was written to the console, oldest first *)
  mode : MeasureMode;
  dragControls : option (list Obj); (* dragControls.getObjects() *)
  raycaster : bool; (* whether this.raycaster is defined *)
  font : bool; (* whether this.font is defined *)
  helpLabel : option Obj;
  mouseMoved : bool;
  isCompleted : bool;
  points : option Obj;
  polyline : option Obj;
  faces : option Obj;
  curve : option Obj;
  tempPoints : option Obj;
  tempLine : option Obj;
  tempLineForArea : option Obj;
  tempLabel : option Obj;
  tempLineLabelArr : list Obj;
  pointArray : list Vec3;
  pointsArray : list Vec3;
  fontSize : number;
  tempFontSize : number;
  lastClickTime : option Z;
}.

Definition set_objects (v : Store) (s : Measure) : Measure :=
  {| objects := v; nextId := nextId s; scene := scene s;
     listeners := listeners s; cursor := cursor s; console := console s;
     mode := mode s; dragControls := dragControls s;
     raycaster := raycaster s; font := font s; helpLabel := helpLabel s;
     mouseMoved := mouseMoved s; isCompleted := isCompleted s;
     points := points s; polyline := polyline s; faces := faces s;
     curve := curve s; tempPoints := tempPoints s; tempLine := tempLine s;
     tempLineForArea := tempLineForArea s; tempLabel := tempLabel s;
     tempLineLabelArr := tempLineLabelArr s; pointArray := pointArray s;
     pointsArray := pointsArray s; fontSize := fontSize s;
     tempFontSize := tempFontSize s; lastClickTime := lastClickTime s |}.
Definition set_nextId (v : Obj) (s : Measure) : Measure :=
  {| objects := objects s; nextId := v; scene := scene s;
     listeners := listeners s; cursor := cursor s; console := console s;
     mode := mode s; dragControls := dragControls s;
     raycaster := raycaster s; font := font s; helpLabel := helpLabel s;
     mouseMoved := mouseMoved s; isCompleted := isCompleted s;
     points := points s; polyline := polyline s; faces := faces s;
     curve := curve s; tempPoints := tempPoints s; tempLine := tempLine s;
     tempLineForArea := tempLineForArea s; tempLabel := tempLabel s;
     tempLineLabelArr := tempLineLabelArr s; pointArray := pointArray s;
     pointsArray := pointsArray s; fontSize := fontSize s;
     tempFontSize := tempFontSize s; lastClickTime := lastClickTime s |}.
Definition set_listeners (v : list Listener) (s : Measure) : Measure :=
  {| objects := objects s; nextId := nextId s; scene := scene s;
     listeners := v; cursor := cursor s; console := console s;
     mode := mode s; dragControls := dragControls s;
     raycaster := raycaster s; font := font s; helpLabel := helpLabel s;
     mouseMoved := mouseMoved s; isCompleted := isCompleted s;
     points := points s; polyline := polyline s; faces := faces s;
     curve := curve s; tempPoints := tempPoints s; tempLine := tempLine s;
     tempLineForArea := tempLineForArea s; tempLabel := tempLabel s;
     tempLineLabelArr := tempLineLabelArr s; pointArray := pointArray s;
     pointsArray := pointsArray s; fontSize := fontSize s;
     tempFontSize := tempFontSize s; lastClickTime := lastClickTime s |}.
Definition set_cursor (v : string) (s : Measure) : Measure :=
  {| objects := objects s; nextId := nextId s; scene := scene s;
     listeners := listeners s; cursor := v; console := console s;
     mode := mode s; dragControls := dragControls s;
     raycaster := raycaster s; font := font s; helpLabel := helpLabel s;
     mouseMoved := mouseMoved s; isCompleted := isCompleted s;
     points := points s; polyline := polyline s; faces := faces s;
     curve := curve s; tempPoints := tempPoints s; tempLine := tempLine s;
     tempLineForArea := tempLineForArea s; tempLabel := tempLabel s;
     tempLineLabelArr := tempLineLabelArr s; pointArray := pointArray s;
     pointsArray := pointsArray s; fontSize := fontSize s;
     tempFontSize := tempFontSize s; lastClickTime := lastClickTime s |}.
Definition set_console (v : list LogEntry) (s : Measure) : Measure :=
  {| objects := objects s; nextId := nextId s; scene := scene s;
     listeners := listeners s; cursor := cursor s; console := v;
     mode := mode s; dragControls := dragControls s;
     raycaster := raycaster s; font := font s; helpLabel := helpLabel s;
     mouseMoved := mouseMoved s; isCompleted := isCompleted s;
     points := points s; polyline := polyline s; faces := faces s;
     curve := curve s; tempPoints := tempPoints s; tempLine := tempLine s;
     tempLineForArea := tempLineForArea s; tempLabel := tempLabel s;
     tempLineLabelArr := tempLineLabelArr s; pointArray := pointArray s;
     pointsArray := pointsArray s; fontSize := fontSize s;
     tempFontSize := tempFontSize s; lastClickTime := lastClickTime s |}.
Definition set_mode (v : MeasureMode) (s : Measure) : Measure :=
  {| objects := objects s; nextId := nextId s; scene := scene s;
     listeners := listeners s; cursor := cursor s; console := console s;
     mode := v; dragControls := dragControls s; raycaster := raycaster s;
     font := font s; helpLabel := helpLabel s; mouseMoved := mouseMoved s;
     isCompleted := isCompleted s; points := points s;
     polyline := polyline s; faces := faces s; curve := curve s;
     tempPoints := tempPoints s; tempLine := tempLine s;
     tempLineForArea := tempLineForArea s; tempLabel := tempLabel s;
     tempLineLabelArr := tempLineLabelArr s; pointArray := pointArray s;
     pointsArray := pointsArray s; fontSize := fontSize s;
     tempFontSize := tempFontSize s; lastClickTime := lastClickTime s |}.
Definition set_dragControls (v : option (list Obj)) (s : Measure) : Measure :=
  {| objects := objects s; nextId := nextId s; scene := scene s;
     listeners := listeners s; cursor := cursor s; console := console s;
     mode := mode s; dragControls := v; raycaster := raycaster s;
     font := font s; helpLabel := helpLabel s; mouseMoved := mouseMoved s;
     isCompleted := isCompleted s; points := points s;
     polyline := polyline s; faces := faces s; curve := curve s;
     tempPoints := tempPoints s; tempLine := tempLine s;
     tempLineForArea := tempLineForArea s; tempLabel := tempLabel s;
     tempLineLabelArr := tempLineLabelArr s; pointArray := pointArray s;
     pointsArray := pointsArray s; fontSize := fontSize s;
     tempFontSize := tempFontSize s; lastClickTime := lastClickTime s |}.
Definition set_raycaster (v : bool) (s : Measure) : Measure :=
  {| objects := objects s; nextId := nextId s; scene := scene s;
     listeners := listeners s; cursor := cursor s; console := console s;
     mode := mode s; dragControls := dragControls s; raycaster := v;
     font := font s; helpLabel := helpLabel s; mouseMoved := mouseMoved s;
     isCompleted := isCompleted s; points := points s;
     polyline := polyline s; faces := faces s; curve := curve s;
     tempPoints := tempPoints s; tempLine := tempLine s;
     tempLineForArea := tempLineForArea s; tempLabel := tempLabel s;
     tempLineLabelArr := tempLineLabelArr s; pointArray := pointArray s;
     pointsArray := pointsArray s; fontSize := fontSize s;
     tempFontSize := tempFontSize s; lastClickTime := lastClickTime s |}.
Definition set_font (v : bool) (s : Measure) : Measure :=
  {| objects := objects s; nextId := nextId s; scene := scene s;
     listeners := listeners s; cursor := cursor s; console := console s;
     mode := mode s; dragControls := dragControls s;
     raycaster := raycaster s; font := v; helpLabel := helpLabel s;
     mouseMoved := mouseMoved s; isCompleted := isCompleted s;
     points := points s; polyline := polyline s; faces := faces s;
     curve := curve s; tempPoints := tempPoints s; tempLine := tempLine s;
     tempLineForArea := tempLineForArea s; tempLabel := tempLabel s;
     tempLineLabelArr := tempLineLabelArr s; pointArray := pointArray s;
     pointsArray := pointsArray s; fontSize := fontSize s;
     tempFontSize := tempFontSize s; lastClickTime := lastClickTime s |}.
Definition set_helpLabel (v : option Obj) (s : Measure) : Measure :=
  {| objects := objects s; nextId := nextId s; scene := scene s;
     listeners := listeners s; cursor := cursor s; console := console s;
     mode := mode s; dragControls := dragControls s;
     raycaster := raycaster s; font := font s; helpLabel := v;
     mouseMoved := mouseMoved s; isCompleted := isCompleted s;
     points := points s; polyline := polyline s; faces := faces s;
     curve := curve s; tempPoints := tempPoints s; tempLine := tempLine s;
     tempLineForArea := tempLineForArea s; tempLabel := tempLabel s;
     tempLineLabelArr := tempLineLabelArr s; pointArray := pointArray s;
     pointsArray := pointsArray s; fontSize := fontSize s;
     tempFontSize := tempFontSize s; lastClickTime := lastClickTime s |}.
Definition set_mouseMoved (v : bool) (s : Measure) : Measure :=
  {| objects := objects s; nextId := nextId s; scene := scene s;
     listeners := listeners s; cursor := cursor s; console := console s;
     mode := mode s; dragControls := dragControls s;
     raycaster := raycaster s; font := font s; helpLabel := helpLabel s;
     mouseMoved := v; isCompleted := isCompleted s; points := points s;
     polyline := polyline s; faces := faces s; curve := curve s;
     tempPoints := tempPoints s; tempLine := tempLine s;
     tempLineForArea := tempLineForArea s; tempLabel := tempLabel s;
     tempLineLabelArr := tempLineLabelArr s; pointArray := pointArray s;
     pointsArray := pointsArray s; fontSize := fontSize s;
     tempFontSize := tempFontSize s; lastClickTime := lastClickTime s |}.
Definition set_isCompleted (v : bool) (s : Measure) : Measure :=
  {| objects := objects s; nextId := nextId s; scene := scene s;
     listeners := listeners s; cursor := cursor s; console := console s;
     mode := mode s; dragControls := dragControls s;
     raycaster := raycaster s; font := font s; helpLabel := helpLabel s;
     mouseMoved := mouseMoved s; isCompleted := v; points := points s;
     polyline := polyline s; faces := faces s; curve := curve s;
     tempPoints := tempPoints s; tempLine := tempLine s;
     tempLineForArea := tempLineForArea s; tempLabel := tempLabel s;
     tempLineLabelArr := tempLineLabelArr s; pointArray := pointArray s;
     pointsArray := pointsArray s; fontSize := fontSize s;
     tempFontSize := tempFontSize s; lastClickTime := lastClickTime s |}.
Definition set_points (v : option Obj) (s : Measure) : Measure :=
  {| objects := objects s; nextId := nextId s; scene := scene s;
     listeners := listeners s; cursor := cursor s; console := console s;
     mode := mode s; dragControls := dragControls s;
     raycaster := raycaster s; font := font s; helpLabel := helpLabel s;
     mouseMoved := mouseMoved s; isCompleted := isCompleted s; points := v;
     polyline := polyline s; faces := faces s; curve := curve s;
     tempPoints := tempPoints s; tempLine := tempLine s;
     tempLineForArea := tempLineForArea s; tempLabel := tempLabel s;
     tempLineLabelArr := tempLineLabelArr s; pointArray := pointArray s;
     pointsArray := pointsArray s; fontSize := fontSize s;
     tempFontSize := tempFontSize s; lastClickTime := lastClickTime s |}.
Definition set_polyline (v : option Obj) (s : Measure) : Measure :=
  {| objects := objects s; nextId := nextId s; scene := scene s;
     listeners := listeners s; cursor := cursor s; console := console s;
     mode := mode s; dragControls := dragControls s;
     raycaster := raycaster s; font := font s; helpLabel := helpLabel s;
     mouseMoved := mouseMoved s; isCompleted := isCompleted s;
     points := points s; polyline := v; faces := faces s; curve := curve s;
     tempPoints := tempPoints s; tempLine := tempLine s;
     tempLineForArea := tempLineForArea s; tempLabel := tempLabel s;
     tempLineLabelArr := tempLineLabelArr s; pointArray := pointArray s;
     pointsArray := pointsArray s; fontSize := fontSize s;
     tempFontSize := tempFontSize s; lastClickTime := lastClickTime s |}.
Definition set_faces (v : option Obj) (s : Measure) : Measure :=
  {| objects := objects s; nextId := nextId s; scene := scene s;
     listeners := listeners s; cursor := cursor s; console := console s;
     mode := mode s; dragControls := dragControls s;
     raycaster := raycaster s; font := font s; helpLabel := helpLabel s;
     mouseMoved := mouseMoved s; isCompleted := isCompleted s;
     points := points s; polyline := polyline s; faces := v;
     curve := curve s; tempPoints := tempPoints s; tempLine := tempLine s;
     tempLineForArea := tempLineForArea s; tempLabel := tempLabel s;
     tempLineLabelArr := tempLineLabelArr s; pointArray := pointArray s;
     pointsArray := pointsArray s; fontSize := fontSize s;
     tempFontSize := tempFontSize s; lastClickTime := lastClickTime s |}.
Definition set_curve (v : option Obj) (s : Measure) : Measure :=
  {| objects := objects s; nextId := nextId s; scene := scene s;
     listeners := listeners s; cursor := cursor s; console := console s;
     mode := mode s; dragControls := dragControls s;
     raycaster := raycaster s; font := font s; helpLabel := helpLabel s;
     mouseMoved := mouseMoved s; isCompleted := isCompleted s;
     points := points s; polyline := polyline s; faces := faces s;
     curve := v; tempPoints := tempPoints s; tempLine := tempLine s;
     tempLineForArea := tempLineForArea s; tempLabel := tempLabel s;
     tempLineLabelArr := tempLineLabelArr s; pointArray := pointArray s;
     pointsArray := pointsArray s; fontSize := fontSize s;
     tempFontSize := tempFontSize s; lastClickTime := lastClickTime s |}.
Definition set_tempPoints (v : option Obj) (s : Measure) : Measure :=
  {| objects := objects s; nextId := nextId s; scene := scene s;
     listeners := listeners s; cursor := cursor s; console := console s;
     mode := mode s; dragControls := dragControls s;
     raycaster := raycaster s; font := font s; helpLabel := helpLabel s;
     mouseMoved := mouseMoved s; isCompleted := isCompleted s;
     points := points s; polyline := polyline s; faces := faces s;
     curve := curve s; tempPoints := v; tempLine := tempLine s;
     tempLineForArea := tempLineForArea s; tempLabel := tempLabel s;
     tempLineLabelArr := tempLineLabelArr s; pointArray := pointArray s;
     pointsArray := pointsArray s; fontSize := fontSize s;
     tempFontSize := tempFontSize s; lastClickTime := lastClickTime s |}.
Definition set_tempLine (v : option Obj) (s : Measure) : Measure :=
  {| objects := objects s; nextId := nextId s; scene := scene s;
     listeners := listeners s; cursor := cursor s; console := console s;
     mode := mode s; dragControls := dragControls s;
     raycaster := raycaster s; font := font s; helpLabel := helpLabel s;
     mouseMoved := mouseMoved s; isCompleted := isCompleted s;
     points := points s; polyline := polyline s; faces := faces s;
     curve := curve s; tempPoints := tempPoints s; tempLine := v;
     tempLineForArea := tempLineForArea s; tempLabel := tempLabel s;
     tempLineLabelArr := tempLineLabelArr s; pointArray := pointArray s;
     pointsArray := pointsArray s; fontSize := fontSize s;
     tempFontSize := tempFontSize s; lastClickTime := lastClickTime s |}.
Definition set_tempLineForArea (v : option Obj) (s : Measure) : Measure :=
  {| objects := objects s; nextId := nextId s; scene := scene s;
     listeners := listeners s; cursor := cursor s; console := console s;
     mode := mode s; dragControls := dragControls s;
     raycaster := raycaster s; font := font s; helpLabel := helpLabel s;
     mouseMoved := mouseMoved s; isCompleted := isCompleted s;
     points := points s; polyline := polyline s; faces := faces s;
     curve := curve s; tempPoints := tempPoints s; tempLine := tempLine s;
     tempLineForArea := v; tempLabel := tempLabel s;
     tempLineLabelArr := tempLineLabelArr s; pointArray := pointArray s;
     pointsArray := pointsArray s; fontSize := fontSize s;
     tempFontSize := tempFontSize s; lastClickTime := lastClickTime s |}.
Definition set_tempLabel (v : option Obj) (s : Measure) : Measure :=
  {| objects := objects s; nextId := nextId s; scene := scene s;
     listeners := listeners s; cursor := cursor s; console := console s;
     mode := mode s; dragControls := dragControls s;
     raycaster := raycaster s; font := font s; helpLabel := helpLabel s;
     mouseMoved := mouseMoved s; isCompleted := isCompleted s;
     points := points s; polyline := polyline s; faces := faces s;
     curve := curve s; tempPoints := tempPoints s; tempLine := tempLine s;
     tempLineForArea := tempLineForArea s; tempLabel := v;
     tempLineLabelArr := tempLineLabelArr s; pointArray := pointArray s;
     pointsArray := pointsArray s; fontSize := fontSize s;
     tempFontSize := tempFontSize s; lastClickTime := lastClickTime s |}.
Definition set_tempLineLabelArr (v : list Obj) (s : Measure) : Measure :=
  {| objects := objects s; nextId := nextId s; scene := scene s;
     listeners := listeners s; cursor := cursor s; console := console s;
     mode := mode s; dragControls := dragControls s;
     raycaster := raycaster s; font := font s; helpLabel := helpLabel s;
     mouseMoved := mouseMoved s; isCompleted := isCompleted s;
     points := points s; polyline := polyline s; faces := faces s;
     curve := curve s; tempPoints := tempPoints s; tempLine := tempLine s;
     tempLineForArea := tempLineForArea s; tempLabel := tempLabel s;
     tempLineLabelArr := v; pointArray := pointArray s;
     pointsArray := pointsArray s; fontSize := fontSize s;
     tempFontSize := tempFontSize s; lastClickTime := lastClickTime s |}.
Definition set_pointArray (v : list Vec3) (s : Measure) : Measure :=
  {| objects := objects s; nextId := nextId s; scene := scene s;
     listeners := listeners s; cursor := cursor s; console := console s;
     mode := mode s; dragControls := dragControls s;
     raycaster := raycaster s; font := font s; helpLabel := helpLabel s;
     mouseMoved := mouseMoved s; isCompleted := isCompleted s;
     points := points s; polyline := polyline s; faces := faces s;
     curve := curve s; tempPoints := tempPoints s; tempLine := tempLine s;
     tempLineForArea := tempLineForArea s; tempLabel := tempLabel s;
     tempLineLabelArr := tempLineLabelArr s; pointArray := v;
     pointsArray := pointsArray s; fontSize := fontSize s;
     tempFontSize := tempFontSize s; lastClickTime := lastClickTime s |}.
Definition set_pointsArray (v : list Vec3) (s : Measure) : Measure :=
  {| objects := objects s; nextId := nextId s; scene := scene s;
     listeners := listeners s; cursor := cursor s; console := console s;
     mode := mode s; dragControls := dragControls s;
     raycaster := raycaster s; font := font s; helpLabel := helpLabel s;
     mouseMoved := mouseMoved s; isCompleted := isCompleted s;
     points := points s; polyline := polyline s; faces := faces s;
     curve := curve s; tempPoints := tempPoints s; tempLine := tempLine s;
     tempLineForArea := tempLineForArea s; tempLabel := tempLabel s;
     tempLineLabelArr := tempLineLabelArr s; pointArray := pointArray s;
     pointsArray := v; fontSize := fontSize s;
     tempFontSize := tempFontSize s; lastClickTime := lastClickTime s |}.
Definition set_fontSize (v : number) (s : Measure) : Measure :=
  {| objects := objects s; nextId := nextId s; scene := scene s;
     listeners := listeners s; cursor := cursor s; console := console s;
     mode := mode s; dragControls := dragControls s;
     raycaster := raycaster s; font := font s; helpLabel := helpLabel s;
     mouseMoved := mouseMoved s; isCompleted := isCompleted s;
     points := points s; polyline := polyline s; faces := faces s;
     curve := curve s; tempPoints := tempPoints s; tempLine := tempLine s;
     tempLineForArea := tempLineForArea s; tempLabel := tempLabel s;
     tempLineLabelArr := tempLineLabelArr s; pointArray := pointArray s;
     pointsArray := pointsArray s; fontSize := v;
     tempFontSize := tempFontSize s; lastClickTime := lastClickTime s |}.
Definition set_lastClickTime (v : option Z) (s : Measure) : Measure :=
  {| objects := objects s; nextId := nextId s; scene := scene s;
     listeners := listeners s; cursor := cursor s; console := console s;
     mode := mode s; dragControls := dragControls s;
     raycaster := raycaster s; font := font s; helpLabel := helpLabel s;
     mouseMoved := mouseMoved s; isCompleted := isCompleted s;
     points := points s; polyline := polyline s; faces := faces s;
     curve := curve s; tempPoints := tempPoints s; tempLine := tempLine s;
     tempLineForArea := tempLineForArea s; tempLabel := tempLabel s;
     tempLineLabelArr := tempLineLabelArr s; pointArray := pointArray s;
     pointsArray := pointsArray s; fontSize := fontSize s;
     tempFontSize := tempFontSize s; lastClickTime := v |}.

Definition MAX_POINTS : nat := 100.
Definition MAX_DISTANCE : number := of_Z 500.
Definition OBJ_NAME : string := "object_for_measure".
Definition LABEL_NAME : string := "label_for_measure".

(** The constructor (lines 79-93) on a page whose objects are [h], with
    ids below [next] in use.  [loadFont] only starts the download;
    [initDragControls] creates the drag controls over an empty list. *)
Definition constructor (h : Store) (next : Obj) (scene : Obj)
    (mode : MeasureMode) : Measure :=
  {| objects := h; nextId := next; scene := scene; listeners := [];
     cursor := EmptyString; console := []; mode := mode;
     dragControls := Some []; raycaster := false; font := false;
     helpLabel := None; mouseMoved := false; isCompleted := false;
     points := None; polyline := None; faces := None; curve := None;
     tempPoints := None; tempLine := None; tempLineForArea := None;
     tempLabel := None; tempLineLabelArr := []; pointArray := [];
     pointsArray := []; fontSize := zero; tempFontSize := zero;
     lastClickTime := None |}.

(** *** Page primitives *)

Definition new_object (o : Object3D) (s : Measure) : Obj * Measure :=
  (nextId s,
   set_nextId (S (nextId s)) (set_objects (<[nextId s := o]> (objects s)) s)).

Definition scene_add (c : Obj) (s : Measure) : Measure :=
  set_objects (Object3D_add (scene s) c (objects s)) s.

(** [x && this.scene.remove(x)] *)
Definition scene_remove (c : option Obj) (s : Measure) : Measure :=
  set_objects (remove_opt (scene s) c (objects s)) s.

Definition update_object (o : Obj) (f : Object3D -> Object3D) (s : Measure)
    : Measure :=
  set_objects (alter f o (objects s)) s.

Definition log (e : LogEntry) (s : Measure) : Measure :=
  set_console (console s ++ [e]) s.

(** A listener already registered is not registered twice. *)
Definition add_listener (l : Listener) (ls : list Listener) : list Listener :=
  if decide (l ∈ ls) then ls else ls ++ [l].

Definition addEventListener (t : Target) (type : string) (cb : Handler)
    (s : Measure) : Measure :=
  set_listeners (add_listener (Build_Listener t type cb) (listeners s)) s.

Definition removeEventListener (t : Target) (type : string) (cb : Handler)
    (s : Measure) : Measure :=
  let l := Build_Listener t type cb in
  set_listeners (filter (fun l' => l' ≠ l) (listeners s)) s.

(** *** Object factories *)

(** The object [createPoints] builds, lines 182-188: the buffer has
    [MAX_POINTS] vertices whatever [pointCount] is, and nothing of it is
    drawn yet. *)
Definition new_Points (pointCount : nat) : Object3D :=
  set_drawCount (Some 0%nat)
    (set_array (Some (Float32Array (MAX_POINTS * 3)))
       (set_name OBJ_NAME blank)).

(** The object [createLine] builds, lines 195-200. *)
Definition new_Line (pointCount : nat) : Object3D :=
  set_array (Some (Float32Array (pointCount * 3))) (set_name OBJ_NAME blank).

(** The object [createFaces] builds, lines 207-210. *)
Definition new_Mesh : Object3D := set_name OBJ_NAME blank.

(** [createPoints], lines 181-189. *)
Definition createPoints (pointCount : nat) (s : Measure) : Obj * Measure :=
  new_object (new_Points pointCount) s.

(** [createLine], lines 194-201. *)
Definition createLine (pointCount : nat) (s : Measure) : Obj * Measure :=
  new_object (new_Line pointCount) s.

(** [createFaces], lines 206-211. *)
Definition createFaces (s : Measure) : Obj * Measure :=
  new_object new_Mesh s.

(** [createHelper], lines 629-648. *)
Definition createHelper (text : LabelText) (s : Measure) : Obj * Measure :=
  new_object (set_innerHTML text (set_name LABEL_NAME blank)) s.

(** [createCurve], lines 653-660. *)
Definition createCurve (p0 p1 p2 : Vec3) (s : Measure) : Obj * Measure :=
  new_object
    (set_array (Some (fromPoints (getPoints p0 p1 p2 4)))
       (set_name LABEL_NAME blank)) s.

(** *** Drag controls, lines 746-757 *)

Definition addDraggableObjects (o : Obj) (s : Measure) : Measure :=
  set_dragControls ((fun objs => objs ++ [o]) <$> dragControls s) s.

Definition clearDraggableObjects (s : Measure) : Measure :=
  set_dragControls ((fun _ => []) <$> dragControls s) s.

(** [getUnitString], lines 707-712. *)
Definition getUnitString (s : Measure) : string :=
  match mode s with
  | Distance => "m"
  | Area => "m²"
  | Angle => "°"
  end.

(** *** Labels *)

(** [addHelpLabel], lines 326-334. *)
Definition addHelpLabel (label : LabelText) (position : Vec3) (s : Measure)
    : Measure :=
  let s :=
    match helpLabel s with
    | Some _ => s
    | None =>
      let '(l, s) := createHelper label s in
      let s := set_helpLabel (Some l) s in
      let s := log console_log s in
      scene_add l s
    end in
  match helpLabel s with
  | Some l =>
    update_object l (fun o => set_innerHTML label (set_position position o)) s
  | None => s
  end.

(** [addOrUpdateLabel], lines 568-604. *)
Definition addOrUpdateLabel (obj : Obj) (label : LabelText) (position : Vec3)
    (direction : Vec3) (distance : number) (s : Measure) : Measure :=
  if negb (font s) then log (console_warn "Font is not loaded yet!") s
  else
    let s := scene_remove (tempLabel s) s in
    let '(l, s) := createHelper label s in
    let s := set_tempLabel (Some l) s in
    let s :=
      update_object l
        (fun o =>
           set_position
             (Vector3.mk (Vector3.x position) (Vector3.y position)
                         (mul (Vector3.z position) (lit 11 1)))
             (set_innerHTML label o)) s in
    scene_add l s.

(** *** The session: [close], [open], [complete], [cancel] *)

(** The methods are sequences of statements over [this]; [s |> f] runs
    statement [f] on the state [s]. *)
Notation "s |> f" := (f s) (at level 45, left associativity, only parsing).

(** [this.x && this.scene.remove(this.x)] *)
Definition remove_from_scene (x : Measure -> option Obj) (s : Measure)
    : Measure :=
  scene_remove (x s) s.

(** Lines 156-160: the labels recorded in [tempLineLabelArr] leave the
    polyline, if there is one. *)
Definition remove_line_labels (s : Measure) : Measure :=
  set_objects
    (match polyline s with
     | Some line =>
       foldl (fun h item => Object3D_remove line item h) (objects s)
             (tempLineLabelArr s)
     | None => objects s
     end) s.

(** [close], lines 139-176.  The listener that [open] registers for
    ['contextmenu'] is looked for under ['dblclick']; [faces], [curve]
    and [isCompleted] are left as they are. *)
Definition close (s : Measure) : Measure :=
  s |> removeEventListener Canvas "mousedown" H_mousedown
    |> removeEventListener Canvas "mousemove" H_mousemove
    |> removeEventListener Canvas "mouseup" H_mouseup
    |> removeEventListener Canvas "dblclick" H_dblclick
    |> removeEventListener Window "keydown" H_keydown
    |> remove_from_scene tempPoints
    |> remove_from_scene tempLine
    |> remove_from_scene tempLineForArea
    |> remove_from_scene points
    |> remove_from_scene polyline
    |> remove_from_scene faces
    |> remove_from_scene curve
    |> remove_from_scene helpLabel
    |> remove_from_scene tempLabel
    |> remove_line_labels
    |> set_tempLabel None
    |> set_helpLabel None
    |> set_pointArray []
    |> set_pointsArray []
    |> set_tempLineLabelArr []
    |> set_raycaster false
    |> set_tempPoints None
    |> set_tempLine None
    |> set_tempLineForArea None
    |> set_points None
    |> set_polyline None
    |> set_fontSize zero
    |> set_cursor EmptyString
    |> clearDraggableObjects.

(** [if (mode) this.mode = mode] *)
Definition set_mode_if (mode' : option MeasureMode) (s : Measure) : Measure :=
  match mode' with
  | Some m => set_mode m s
  | None => s
  end.

(** Lines 122-123. *)
Definition open_points (s : Measure) : Measure :=
  let '(pts, s) := createPoints MAX_POINTS s in
  s |> set_points (Some pts) |> scene_add pts.

(** Lines 125-126. *)
Definition open_polyline (s : Measure) : Measure :=
  let '(line, s) := createLine MAX_POINTS s in
  s |> set_polyline (Some line) |> scene_add line.

(** Lines 127-130. *)
Definition open_faces (s : Measure) : Measure :=
  if decide (mode s = Area) then
    let '(f, s) := createFaces s in
    s |> set_faces (Some f) |> scene_add f
  else s.

(** Lines 105-133: what [open] does once the former session is closed. *)
Definition start (s : Measure) : Measure :=
  s |> addEventListener Canvas "mousedown" H_mousedown
    |> addEventListener Canvas "mousemove" H_mousemove
    |> addEventListener Canvas "mouseup" H_mouseup
    |> addEventListener Canvas "contextmenu" H_dblclick
    |> addEventListener Window "keydown" H_keydown
    |> set_pointArray []
    |> set_pointsArray []
    |> set_helpLabel None
    |> set_tempLabel None
    |> set_tempLineLabelArr []
    |> set_raycaster true
    |> open_points
    |> open_polyline
    |> open_faces
    |> set_isCompleted false
    |> set_cursor "crosshair"
    |> set_fontSize zero.

(** [open], lines 102-134. *)
Definition open (mode' : option MeasureMode) (s : Measure) : Measure :=
  s |> set_mode_if mode' |> close |> start.

(** [pos.array[i] = p.x; pos.array[i + 1] = p.y; pos.array[i + 2] = p.z] *)
Definition write_vertex (line : Obj) (i : nat) (p : Vec3) (s : Measure)
    : Measure :=
  update_object line
    (fun o =>
       set_array
         (store (i + 2) (Vector3.z p)
            <$> (store (i + 1) (Vector3.y p)
                   <$> (store i (Vector3.x p) <$> array o))) o) s.

(** [geom.setDrawRange(0, count)] *)
Definition setDrawRange (line : Obj) (count : nat) (s : Measure) : Measure :=
  update_object line (set_drawCount (Some count)) s.

(** Whether the object has a position attribute ([pos] in the source). *)
Definition has_position (line : Obj) (s : Measure) : bool :=
  bool_decide (is_Some (objects s !! line ≫= array)).

Definition scaled (dir : Vec3) (d : number) : Vec3 :=
  Vector3.mk (mul (Vector3.x dir) d) (mul (Vector3.y dir) d)
             (mul (Vector3.z dir) d).

Definition direction_to (p q : Vec3) : Vec3 :=
  Vector3.mk (sub (Vector3.x p) (Vector3.x q))
             (sub (Vector3.y p) (Vector3.y q))
             (sub (Vector3.z p) (Vector3.z q)).

(** [pointArray[i]] where the source has checked the length. *)
Definition at_index (pts : list Vec3) (i : nat) : Vec3 :=
  default origin (pts !! i).

(** The local variables of [complete] next to [this]. *)
Record Locals := {
  this : Measure;
  count : nat;
  clearPoints : bool;
  clearPolyline : bool;
}.

Definition with_this (s : Measure) (l : Locals) : Locals :=
  {| this := s; count := count l; clearPoints := clearPoints l;
     clearPolyline := clearPolyline l |}.

Definition clear_both (l : Locals) : Locals :=
  {| this := this l; count := count l; clearPoints := true;
     clearPolyline := true |}.

Definition clear_points_only (l : Locals) : Locals :=
  {| this := this l; count := count l; clearPoints := true;
     clearPolyline := clearPolyline l |}.

(** Lines 232-239: the first point closes the polyline. *)
Definition close_loop (line : Obj) (count : nat) (p0 : Vec3) (s : Measure)
    : Measure :=
  if has_position line s && (count * 3 + 3 <? MAX_POINTS)%nat then
    s |> write_vertex line (count * 3) p0 |> setDrawRange line (count + 1)
  else s.

(** Lines 226-245: the area label of a polygon of three points or more. *)
Definition label_area (line : Obj) (count : nat) (s : Measure) : Measure :=
  let p0 := at_index (pointArray s) 0 in
  let p1 := at_index (pointArray s) 1 in
  let p2 := at_index (pointArray s) (count - 1) in
  let dir1 := getAngleBisector p1 p0 p2 in
  let area := calculateArea (pointArray s) in
  let label := Measured (Computed area) (getUnitString s) in
  let distance := Vector3.distanceTo p1 p0 in
  let d := mul distance (lit 4 1) in
  let position := Vector3.plus p0 (scaled dir1 d) in
  s |> close_loop line count p0
    |> addOrUpdateLabel line label position dir1 distance.

(** The Area block of [complete], lines 224-250. *)
Definition complete_area (l : Locals) : Locals :=
  match polyline (this l) with
  | Some line =>
    if decide (mode (this l) = Area) then
      if (2 <? count l)%nat
      then with_this (label_area line (count l) (this l)) l
      else clear_both l
    else l
  | None => l
  end.

(** The Distance block of [complete], lines 251-255. *)
Definition complete_distance (l : Locals) : Locals :=
  if decide (mode (this l) = Distance) then
    if (count l <? 2)%nat then clear_points_only l else l
  else l.

(** Lines 258-275: the label and the arc of an angle. *)
Definition label_angle (line : Obj) (s : Measure) : Measure :=
  let p0 := at_index (pointArray s) 0 in
  let p1 := at_index (pointArray s) 1 in
  let p2 := at_index (pointArray s) 2 in
  let dir0 := Vector3.normalize (direction_to p0 p1) in
  let dir1 := getAngleBisector p0 p1 p2 in
  let dir2 := Vector3.normalize (direction_to p2 p1) in
  let label := Measured (AngleAt p0 p1 p2) (getUnitString s) in
  let distance :=
    Num.min (Vector3.distanceTo p0 p1) (Vector3.distanceTo p2 p1) in
  let d := mul distance (lit 2 1) in
  let position := Vector3.plus p1 (scaled dir1 d) in
  let arcP0 := Vector3.plus p1 (scaled dir0 d) in
  let arcP2 := Vector3.plus p1 (scaled dir2 d) in
  let s := addOrUpdateLabel line label position dir1 distance s in
  let '(c, s) := createCurve arcP0 position arcP2 s in
  s |> set_curve (Some c) |> scene_add c.

(** The Angle block of [complete], lines 256-280. *)
Definition complete_angle (l : Locals) : Locals :=
  match polyline (this l) with
  | Some line =>
    if decide (mode (this l) = Angle) then
      if (3 <=? count l)%nat
      then with_this (label_angle line (this l)) l
      else clear_both l
    else l
  | None => l
  end.

(** Lines 282-289: the invalid case. *)
Definition clear_invalid (l : Locals) : Measure :=
  let s := this l in
  let s :=
    match points s with
    | Some _ =>
      if clearPoints l
      then s |> remove_from_scene points |> set_points None else s
    | None => s
    end in
  match polyline s with
  | Some _ =>
    if clearPolyline l
    then s |> remove_from_scene polyline |> set_polyline None else s
  | None => s
  end.

(** Lines 291-297: the labels under the polyline become draggable. *)
Definition make_draggable (s : Measure) : Measure :=
  match polyline s with
  | Some line =>
    foldl (fun s o =>
             if decide (name_of (objects s) o = LABEL_NAME)
             then addDraggableObjects o s else s)
          s (traverse (nextId s) (nextId s) (objects s) line)
  | None => s
  end.

(** Lines 301-309. *)
Definition remove_temp_line (s : Measure) : Measure :=
  match tempLine s with
  | Some _ =>
    let s := remove_from_scene tempLine s in
    if decide (mode s = Distance) then remove_from_scene tempLabel s else s
  | None => s
  end.

(** [complete], lines 216-314. *)
Definition complete (s : Measure) : Measure :=
  if isCompleted s then s
  else
    {| this := s; count := List.length (pointArray s);
       clearPoints := false; clearPolyline := false |}
      |> complete_area
      |> complete_distance
      |> complete_angle
      |> clear_invalid
      |> make_draggable
      |> set_isCompleted true
      |> set_cursor EmptyString
      |> remove_from_scene tempPoints
      |> remove_temp_line
      |> remove_from_scene tempLineForArea
      |> remove_from_scene helpLabel
      |> set_fontSize zero.

(** [cancel], lines 319-321. *)
Definition cancel (s : Measure) : Measure := close s.

(** *** Events *)

(** What a handler reads from the event and from the page while it
    runs: the hits [raycaster.intersectObject(this.scene, true)] returns
    for the pointer position (nearest first), the value of [Date.now()],
    and the key of a keyboard event. *)
Record Event := {
  hits : list Intersection;
  now : Z;
  key : string;
}.

(** [getClosestIntersection], lines 518-541. *)
Definition getClosestIntersection (e : Event) (s : Measure) : option Vec3 :=
  if negb (raycaster s) || isCompleted s then None
  else
    let intersects :=
      filter (fun item => name_of (objects s) (object item) ≠ OBJ_NAME)
             (hits e) in
    match intersects with
    | item :: _ =>
      if ltb (distance item) MAX_DISTANCE then Some (point item) else None
    | [] => None
    end.

(** [mousedown], lines 323-325. *)
Definition mousedown (e : Event) (s : Measure) : Measure :=
  set_mouseMoved false s.

Definition help_start : LabelText := Text "点击左键开始测量".
Definition help_finish : LabelText := Text "点击右键完成测量".

(** Lines 345 and 378: the help label follows the pointer at half its
    height. *)
Definition move_help (label : LabelText) (point : Vec3) (s : Measure)
    : Measure :=
  addHelpLabel label
    (Vector3.mk (Vector3.x point) (mul (Vector3.y point) (lit 5 1))
                (Vector3.z point)) s.

(** Lines 348-362: the temporary point object is created and added to
    the scene once. *)
Definition move_point (s : Measure) : Measure :=
  match tempPoints s with
  | Some _ => s
  | None =>
    let '(pts, s) := createPoints 1 s in
    s |> scene_add pts |> set_tempPoints (Some pts)
  end.

(** [this.tempLine || this.createLine(3)] *)
Definition tempLine_or_new (s : Measure) : Obj * Measure :=
  match tempLine s with
  | Some line => (line, s)
  | None => createLine 3 s
  end.

(** Lines 365-375: in Area mode the first point is stored as the third
    vertex of the temporary line. *)
Definition move_first_point (s : Measure) : Measure :=
  if bool_decide (mode s = Area) && (0 <? List.length (pointArray s))%nat then
    let '(line, s) := tempLine_or_new s in
    if has_position line s
    then write_vertex line 6 (at_index (pointArray s) 0) s
    else s
  else s.

(** Lines 385-396. *)
Definition move_segment (line : Obj) (p0 point : Vec3) (s : Measure)
    : Measure :=
  if has_position line s then
    let range :=
      if bool_decide (mode s = Area) && (2 <=? List.length (pointArray s))%nat
      then 3%nat else 2%nat in
    s |> write_vertex line 0 p0 |> write_vertex line 3 point
      |> setDrawRange line range
  else s.

(** Lines 397-403. *)
Definition move_distance_label (line : Obj) (p0 point : Vec3) (s : Measure)
    : Measure :=
  if decide (mode s = Distance) then
    let dist := Vector3.distanceTo p0 point in
    let label := Measured (Computed dist) (getUnitString s) in
    let position :=
      Vector3.mk (div (add (Vector3.x point) (Vector3.x p0)) (of_Z 2))
                 (div (add (Vector3.y point) (Vector3.y p0)) (of_Z 2))
                 (div (add (Vector3.z point) (Vector3.z p0)) (of_Z 2)) in
    let direction := Vector3.normalize (direction_to point p0) in
    addOrUpdateLabel line label position direction
                     (Vector3.distanceTo point p0) s
  else s.

(** Lines 404-407: the temporary line is added to the scene once. *)
Definition keep_temp_line (line : Obj) (s : Measure) : Measure :=
  match tempLine s with
  | Some _ => s
  | None => s |> scene_add line |> set_tempLine (Some line)
  end.

(** Lines 377-408: the temporary line from the last point to the
    pointer.  [computeLineDistances] only fills the [lineDistance]
    attribute that dashed materials read. *)
Definition move_line (point : Vec3) (s : Measure) : Measure :=
  if (0 <? List.length (pointArray s))%nat then
    let p0 := at_index (pointArray s) (List.length (pointArray s) - 1) in
    let s := move_help help_finish point s in
    let '(line, s) := tempLine_or_new s in
    s |> move_segment line p0 point
      |> move_distance_label line p0 point
      |> keep_temp_line line
  else s.

(** [mousemove], lines 336-409. *)
Definition mousemove (e : Event) (s : Measure) : Measure :=
  let s := set_mouseMoved true s in
  match getClosestIntersection e s with
  | None => s
  | Some point =>
    s |> move_help help_start point
      |> move_point
      |> move_first_point
      |> move_line point
  end.

(** Lines 435-437: a click less than 500 ms after the last accepted one
    ([lastClickTime] is falsy when it is undefined or 0). *)
Definition debounced (e : Event) (s : Measure) : bool :=
  match lastClickTime s with
  | Some t => bool_decide (t ≠ 0) && (now e - t <? 500)
  | None => false
  end.

(** Lines 463-467: the temporary label stays with the line. *)
Definition keep_label (line : Obj) (s : Measure) : Measure :=
  match tempLabel s with
  | Some l =>
    s |> set_tempLineLabelArr (tempLineLabelArr s ++ [l])
      |> (fun s => set_objects (Object3D_add line l (objects s)) s)
  | None => s
  end.

(** Lines 468-470. *)
Definition settle_fontSize (s : Measure) : Measure :=
  if eqb (fontSize s) zero then set_fontSize (tempFontSize s) s else s.

(** Lines 453-475: the polyline gets the point as its next vertex. *)
Definition click_polyline (point : Vec3) (s : Measure) : Measure :=
  let count := List.length (pointArray s) in
  match polyline s with
  | Some line =>
    if has_position line s && (count * 3 + 3 <? MAX_POINTS)%nat then
      s |> write_vertex line (count * 3) point
        |> setDrawRange line (count + 1)
        |> keep_label line
        |> settle_fontSize
    else
      log (console_error
             "Failed to get attributes.position, or number of points exceeded MAX_POINTS!") s
  | None => s
  end.

(** Lines 476-498: in Area mode the faces get a triangle of the first
    point, the new point and the last point. *)
Definition click_faces (point : Vec3) (s : Measure) : Measure :=
  match faces s with
  | Some f =>
    if decide (mode s = Area) then
      let len := List.length (pointArray s) in
      let s :=
        if (2 <? len)%nat then
          let newFace :=
            [at_index (pointArray s) 0; point;
             at_index (pointArray s) (len - 1)] in
          s |> log console_log |> set_pointsArray (pointsArray s ++ newFace)
        else set_pointsArray (pointsArray s ++ [point]) s in
      update_object f (set_array (Some (fromPoints (pointsArray s)))) s
    else s
  | None => s
  end.

(** Line 500. *)
Definition push_point (point : Vec3) (s : Measure) : Measure :=
  set_pointArray (pointArray s ++ [point]) s.

(** Lines 501-503. *)
Definition auto_complete (s : Measure) : Measure :=
  if bool_decide (mode s = Angle) && (3 <=? List.length (pointArray s))%nat
  then complete s else s.

(** [onMouseClicked], lines 423-504. *)
Definition onMouseClicked (e : Event) (s : Measure) : Measure :=
  if negb (raycaster s) || isCompleted s then s
  else
    match getClosestIntersection e s with
    | None => s
    | Some point =>
      if debounced e s then s
      else
        s |> set_lastClickTime (Some (now e))
          |> click_polyline point
          |> click_faces point
          |> push_point point
          |> auto_complete
    end.

(** [mouseup], lines 411-416. *)
Definition mouseup (e : Event) (s : Measure) : Measure :=
  if negb (mouseMoved s) then onMouseClicked e s else s.

(** [dblclick], lines 418-421. *)
Definition dblclick (e : Event) (s : Measure) : Measure := complete s.

(** [keydown], lines 506-512. *)
Definition keydown (e : Event) (s : Measure) : Measure :=
  if decide (key e = "Enter"%string) then complete s
  else if decide (key e = "Escape"%string) then cancel s
  else s.

(** The font loader's callback, line 549. *)
Definition fontLoaded (s : Measure) : Measure := set_font true s.

(** *** The page driving the tool *)

Definition call (h : Handler) : Event -> Measure -> Measure :=
  match h with
  | H_mousedown => mousedown
  | H_mousemove => mousemove
  | H_mouseup => mouseup
  | H_dblclick => dblclick
  | H_keydown => keydown
  end.

(** The browser delivers an event of type [type] on [t] to the
    listeners registered for it when the dispatch starts. *)
Definition dispatch (t : Target) (type : string) (e : Event) (s : Measure)
    : Measure :=
  foldl (fun s l => call (l_callback l) e s) s
        (filter (fun l => l_target l = t ∧ l_type l = type) (listeners s)).

(** The public methods the host calls. *)
Inductive Method :=
| Open (mode : option MeasureMode)
| Close
| Cancel
| Complete.

Definition invoke (m : Method) (s : Measure) : Measure :=
  match m with
  | Open mode' => open mode' s
  | Close => close s
  | Cancel => cancel s
  | Complete => complete s
  end.

(** What can happen to the tool: the host calls a method, the browser
    dispatches an event, the font arrives. *)
Inductive Action :=
| Call (m : Method)
| Dispatch (t : Target) (type : string) (e : Event)
| FontLoaded.

Definition step (a : Action) (s : Measure) : Measure :=
  match a with
  | Call m => invoke m s
  | Dispatch t type e => dispatch t type e s
  | FontLoaded => fontLoaded s
  end.

Definition run (acts : list Action) (s : Measure) : Measure :=
  foldl (fun s a => step a s) s acts.

Definition calls (ms : list Method) (s : Measure) : Measure :=
  foldl (fun s m => invoke m s) s ms.

(** A primary click: the button goes down and up with no movement in
    between. *)
Definition click (e : Event) : list Action :=
  [Dispatch Canvas "mousedown" e; Dispatch Canvas "mouseup" e].

(** An event whose ray hits the scene object [o] at [p], [d] away from
    the camera, handled at time [t]. *)
Definition hit (o : Obj) (d : number) (p : Vec3) (t : Z) : Event :=
  {| hits := [ {| distance := d; point := p; object := o |} ];
     now := t; key := EmptyString |}.

Definition vec (a b c : Z) : Vec3 := Vector3.mk (of_Z a) (of_Z b) (of_Z c).

(** A page holding the scene (object 0) and one mesh in it (object 1),
    and a tool constructed on it. *)
Definition page : Store :=
  {[ 0%nat := blank; 1%nat := set_parent (Some 0%nat) blank ]}.

Definition tool : Measure := constructor page 2%nat 0%nat Distance.

Definition at_ (a b c : Z) (t : Z) : Event :=
  hit 1%nat (of_Z 10) (vec a b c) t.

(** [n] clicks, one second apart, on distinct points. *)
Definition clicks (n : nat) : list Action :=
  flat_map (fun i => click (at_ (Z.of_nat i) 0 0 (1000 * Z.of_nat i)))
           (seq 1 n).

(** ** The specification's wording of the numeric helpers *)

(** [N] is the integer nearest to [m * 2^e * 10^k], the larger one of
    the two on a tie. *)
Definition nearest (m : positive) (e : Z) (k : nat) (N : Z) : Prop :=
  let p := 10 ^ Z.of_nat k in
  if 0 <=? e then N = Z.pos m * 2 ^ e * p
  else 2 ^ (- e) * (2 * N - 1) <= 2 * (Z.pos m * p)
       /\ 2 * (Z.pos m * p) < 2 ^ (- e) * (2 * N + 1).

(** [r] is the positive number [n] written with [k] fraction digits:
    the decimal digits of the integer nearest to [n * 10^k], with zeros
    in front while there are not more than [k] of them, and the point
    before the last [k]. *)
Definition fraction_digits (k : nat) (n : number) (r : jsstring) : Prop :=
  exists (m : positive) (e N : Z) (a b : string),
    n = S754_finite false m e /\ nearest m e k N /\ 0 <= N /\
    r = Str (a ++ "." ++ b) /\ String.length b = k /\ a <> EmptyString /\
    (a ++ b)%string =
    (zeros (k + 1 - String.length (digits (Z.to_N N)))
     ++ digits (Z.to_N N))%string.

(** Heron's formula for a triangle with side lengths [a], [b], [c]. *)
Definition heron_formula (a b c : number) : number :=
  let p := div (add (add a b) c) (of_Z 2) in
  sqrt (mul (mul (mul p (sub p a)) (sub p b)) (sub p c)).

(** The area as the specification words it: the triangles
    [(points[0], points[j], points[j+1])] for [j] from 1 to
    [length - 2], summed in that order. *)
Definition fan_area (points : list Vec3) : number :=
  foldl
    (fun area j =>
       let v0 := at_index points 0 in
       let vj := at_index points j in
       let vk := at_index points (j + 1) in
       add area
           (heron_formula (Vector3.distanceTo v0 vj)
                          (Vector3.distanceTo vj vk)
                          (Vector3.distanceTo vk v0)))
    zero (seq 1 (List.length points - 2)).

(** ** The state [close] leaves *)

(** The scene statements of [close], lines 146-160, on the object
    store. *)
Definition close_objects (s : Measure) : Store :=
  let h :=
    remove_opt (scene s) (tempLabel s)
      (remove_opt (scene s) (helpLabel s)
      (remove_opt (scene s) (curve s)
      (remove_opt (scene s) (faces s)
      (remove_opt (scene s) (polyline s)
      (remove_opt (scene s) (points s)
      (remove_opt (scene s) (tempLineForArea s)
      (remove_opt (scene s) (tempLine s)
      (remove_opt (scene s) (tempPoints s) (objects s))))))))) in
  match polyline s with
  | Some line =>
    foldl (fun h item => Object3D_remove line item h) h (tempLineLabelArr s)
  | None => h
  end.

(** The listener statements of [close], lines 140-144, on the listener
    table. *)
Definition close_listeners (ls : list Listener) : list Listener :=
  filter (fun l => l <> Build_Listener Window "keydown" H_keydown)
    (filter (fun l => l <> Build_Listener Canvas "dblclick" H_dblclick)
    (filter (fun l => l <> Build_Listener Canvas "mouseup" H_mouseup)
    (filter (fun l => l <> Build_Listener Canvas "mousemove" H_mousemove)
    (filter (fun l => l <> Build_Listener Canvas "mousedown" H_mousedown)
       ls)))).

(** The state [close] leaves, field by field. *)
Definition closed (s : Measure) : Measure :=
  {| objects := close_objects s; nextId := nextId s;
     scene := scene s; listeners := close_listeners (listeners s);
     cursor := EmptyString; console := console s; mode := mode s;
     dragControls := (fun _ => []) <$> dragControls s; raycaster := false;
     font := font s; helpLabel := None; mouseMoved := mouseMoved s;
     isCompleted := isCompleted s; points := None; polyline := None;
     faces := faces s; curve := curve s; tempPoints := None;
     tempLine := None; tempLineForArea := None; tempLabel := None;
     tempLineLabelArr := []; pointArray := []; pointsArray := [];
     fontSize := zero; tempFontSize := tempFontSize s;
     lastClickTime := lastClickTime s |}.

(** ** The state [open] leaves *)

(** Lines 122-130 on the object store of a closed tool. *)
Definition started_objects (c : Measure) : Store :=
  let n := nextId c in
  let h :=
    Object3D_add (scene c) n (<[n := new_Points MAX_POINTS]> (objects c)) in
  let h :=
    Object3D_add (scene c) (S n) (<[S n := new_Line MAX_POINTS]> h) in
  if decide (mode c = Area)
  then Object3D_add (scene c) (S (S n)) (<[S (S n) := new_Mesh]> h)
  else h.

(** Lines 106-111 on the listener table. *)
Definition started_listeners (ls : list Listener) : list Listener :=
  add_listener (Build_Listener Window "keydown" H_keydown)
    (add_listener (Build_Listener Canvas "contextmenu" H_dblclick)
    (add_listener (Build_Listener Canvas "mouseup" H_mouseup)
    (add_listener (Build_Listener Canvas "mousemove" H_mousemove)
    (add_listener (Build_Listener Canvas "mousedown" H_mousedown) ls)))).

(** The state [start] leaves, field by field. *)
Definition started (c : Measure) : Measure :=
  {| objects := started_objects c;
     nextId := (if decide (mode c = Area) then 3 else 2) + nextId c;
     scene := scene c; listeners := started_listeners (listeners c);
     cursor := "crosshair"; console := console c; mode := mode c;
     dragControls := dragControls c; raycaster := true; font := font c;
     helpLabel := None; mouseMoved := mouseMoved c; isCompleted := false;
     points := Some (nextId c); polyline := Some (S (nextId c));
     faces := if decide (mode c = Area) then Some (S (S (nextId c)))
              else faces c;
     curve := curve c; tempPoints := tempPoints c; tempLine := tempLine c;
     tempLineForArea := tempLineForArea c; tempLabel := None;
     tempLineLabelArr := []; pointArray := []; pointsArray := [];
     fontSize := zero; tempFontSize := tempFontSize c;
     lastClickTime := lastClickTime c |}.

(** ** Notions used in the statements *)

(** [s'] has the mode, the committed points, the completion flag and
    the time of the last accepted click of [s]. *)
Definition same_session (s s' : Measure) : Prop :=
  mode s' = mode s /\ pointArray s' = pointArray s /\
  isCompleted s' = isCompleted s /\ lastClickTime s' = lastClickTime s.

(** [o] is a child of the scene. *)
Definition in_scene (s : Measure) (o : Obj) : Prop :=
  parent_of (objects s) o = Some (scene s).

(** The id counter is ahead of the scene and of every object created. *)
Definition wf (s : Measure) : Prop :=
  (scene s < nextId s)%nat /\
  forall o, is_Some (objects s !! o) -> (o < nextId s)%nat.


(** The geometry objects of the session that is open in [s]. *)
Definition session_object (s : Measure) (o : Obj) : Prop :=
  points s = Some o \/ polyline s = Some o \/
  (mode s = Area /\ faces s = Some o).



(** An action that, if it is an event, is handled less than 500 ms
    after the time [t]. *)
Definition within (t : Z) (a : Action) : Prop :=
  match a with
  | Dispatch _ _ e => now e - t < 500
  | _ => True
  end.

(** An event whose ray hits nothing, handled at time [t]. *)
Definition miss (t : Z) : Event :=
  {| hits := []; now := t; key := EmptyString |}.

(** ** Angles

    [calculateAngle] converts to degrees what [angleTo] returns for the
    two arms [p0 - p1] and [p2 - p1]. *)
Definition degrees (angle : number) : number :=
  div (mul angle (of_Z 180)) Vector3.PI.

(** The local [denominator] and [theta] of [angleTo] for these arms. *)
Definition denominator (p0 p1 p2 : Vec3) : number :=
  sqrt (mul (Vector3.lengthSq (direction_to p0 p1))
            (Vector3.lengthSq (direction_to p2 p1))).

Definition theta (p0 p1 p2 : Vec3) : number :=
  div (Vector3.dot (direction_to p0 p1) (direction_to p2 p1))
      (denominator p0 p1 p2).


(** The rational a finite number stands for. *)
Definition value (x : number) : option Q :=
  match x with
  | S754_zero _ => Some 0%Q
  | S754_finite s m e =>
    Some ((if s then -1 else 1) * inject_Z (Z.pos m) * Qpower 2 e)%Q
  | _ => None
  end.

Definition coordinates (p : Vec3) : option (Q * Q * Q) :=
  x ← value (Vector3.x p); y ← value (Vector3.y p); z ← value (Vector3.z p);
  Some (x, y, z).

(** [p0], [p1] and [p2] are collinear with [p0] and [p2] on the same
    side of [p1]: [p2 - p1] is a positive multiple of [p0 - p1], which
    is not zero. *)
Definition same_side (p0 p1 p2 : Vec3) : Prop :=
  exists (k : Q) (a b c : Q * Q * Q),
    coordinates p0 = Some a /\ coordinates p1 = Some b /\
    coordinates p2 = Some c /\ (0 < k)%Q /\
    ~ (a.1.1 == b.1.1 /\ a.1.2 == b.1.2 /\ a.2 == b.2)%Q /\
    (c.1.1 - b.1.1 == k * (a.1.1 - b.1.1))%Q /\
    (c.1.2 - b.1.2 == k * (a.1.2 - b.1.2))%Q /\
    (c.2 - b.2 == k * (a.2 - b.2))%Q.

Definition far : Vec3 := Vector3.mk (of_Z (10 ^ 200)) zero zero.

(** The numeric layer and the methods are kept folded while reasoning
    about the session. *)
Arguments Num.add : simpl never.
Arguments Num.sub : simpl never.
Arguments Num.mul : simpl never.
Arguments Num.div : simpl never.
Arguments Num.sqrt : simpl never.
Arguments Num.of_Z : simpl never.
Arguments Num.lit : simpl never.
Arguments Num.min : simpl never.
Arguments Num.max : simpl never.
Arguments Num.eqb : simpl never.
Arguments Num.ltb : simpl never.
Arguments Num.leb : simpl never.
Arguments Vector3.distanceTo : simpl never.
Arguments Vector3.normalize : simpl never.
Arguments Vector3.plus : simpl never.
Arguments getAngleBisector : simpl never.
Arguments calculateArea : simpl never.
Arguments Three.fround : simpl never.
Arguments Three.store : simpl never.
Arguments Three.Float32Array : simpl never.
Arguments Three.fromPoints : simpl never.
Arguments Three.getPoints : simpl never.
Arguments MAX_DISTANCE : simpl never.
Arguments close : simpl never.
Arguments open : simpl never.
Arguments start : simpl never.
Arguments close_objects : simpl never.
Arguments started_objects : simpl never.
Arguments close_listeners : simpl never.
Arguments complete : simpl never.
Arguments mousemove : simpl never.
Arguments onMouseClicked : simpl never.
Arguments getClosestIntersection : simpl never.


(** ** Notions used for the rest of the class *)

(** The numbers that are neither NaN nor infinite. *)
Definition finite (x : number) : Prop :=
  match x with
  | S754_nan | S754_infinity _ => False
  | _ => True
  end.

(** The statement [f] leaves the part [part] of the state as it is. *)
Definition keeps {A : Type} (part : Measure -> A) (f : Measure -> Measure)
    : Prop :=
  forall s, part (f s) = part s.

(** What [mousemove] has no statement for: everything but the page, the
    temporary objects that follow the pointer and [mouseMoved]. *)
Definition committed (s : Measure) :=
  (scene s, listeners s, cursor s, mode s, dragControls s, raycaster s,
   font s, isCompleted s, points s, polyline s, faces s, curve s,
   tempLineForArea s, tempLineLabelArr s, pointArray s, pointsArray s,
   fontSize s, tempFontSize s, lastClickTime s).

(** What [complete] has no statement for. *)
Definition unfinished (s : Measure) :=
  (scene s, listeners s, mode s, raycaster s, font s, mouseMoved s,
   faces s, helpLabel s, tempPoints s, tempLine s, tempLineForArea s,
   tempLineLabelArr s, pointArray s, pointsArray s, tempFontSize s,
   lastClickTime s).

(** The listeners [open] registers, lines 106-111, and the ones [close]
    looks for, lines 140-144. *)
Definition attached : list Listener :=
  [Build_Listener Canvas "mousedown" H_mousedown;
   Build_Listener Canvas "mousemove" H_mousemove;
   Build_Listener Canvas "mouseup" H_mouseup;
   Build_Listener Canvas "contextmenu" H_dblclick;
   Build_Listener Window "keydown" H_keydown].

Definition detached : list Listener :=
  [Build_Listener Canvas "mousedown" H_mousedown;
   Build_Listener Canvas "mousemove" H_mousemove;
   Build_Listener Canvas "mouseup" H_mouseup;
   Build_Listener Canvas "dblclick" H_dblclick;
   Build_Listener Window "keydown" H_keydown].

(** The mode after [acts], when it was [d] before: the last one that
    [open] was called with. *)
Definition last_mode (acts : list Action) (d : MeasureMode) : MeasureMode :=
  foldl (fun d a =>
           match a with
           | Call (Open (Some m)) => m
           | _ => d
           end) d acts.

(** An action that is not a call of [open], [close] or [cancel], and
    not an event with the Escape key. *)
Definition keeps_points (a : Action) : Prop :=
  match a with
  | Call (Open _) | Call Close | Call Cancel => False
  | Dispatch _ _ e => key e <> "Escape"%string
  | _ => True
  end.

(** The objects the tool draws with: the committed and the temporary
    points and lines, and the faces. *)
Definition geometry (s : Measure) : list (option Obj) :=
  [points s; polyline s; faces s; tempPoints s; tempLine s].

(** The geometry objects, and the objects [xs] besides, have been
    created and are named [OBJ_NAME]. *)
Definition named (xs : list Obj) (s : Measure) : Prop :=
  forall o, Some o ∈ geometry s \/ o ∈ xs ->
    (o < nextId s)%nat /\ name_of (objects s) o = OBJ_NAME.

(** The objects the tool holds on to: its geometry, its labels, and,
    when [co] is set, the arc of the angle. *)
Definition own (co : bool) (s : Measure) : list (option Obj) :=
  [points s; polyline s; faces s; tempPoints s; tempLine s;
   tempLineForArea s; helpLabel s; tempLabel s]
  ++ (if co then [curve s] else []).

(** Every child of the scene is one of the objects in [host], or an
    object the tool holds on to. *)
Definition tidy (host : Obj -> Prop) (co : bool) (s : Measure) : Prop :=
  forall o, in_scene s o -> host o \/ Some o ∈ own co s.
(** * Properties *)

(** ** Numbers *)

Lemma SFcompare_swap (x y : number) :
  SFcompare y x = CompOpp <$> SFcompare x y.
Proof.
  destruct x as [sx|sx| |sx mx ex], y as [sy|sy| |sy my ey]; simpl;
    try reflexivity;
    try (destruct sx; reflexivity);
    try (destruct sy; reflexivity);
    try (destruct sx, sy; reflexivity).
  f_equal.
  destruct sx, sy; try reflexivity;
    rewrite (Z.compare_antisym ex ey);
    destruct (ex ?= ey)%Z; simpl; try reflexivity.
  - rewrite CompOpp_involutive. exact (Pos.compare_cont_antisym my mx Eq).
  - exact (ZC4 my mx).
Qed.

Lemma lit_1_4 : lit 1 4 = S754_finite false 7378697629483821 (-66).
Proof. vm_compute. reflexivity. Qed.

Lemma lit_1_2 : lit 1 2 = S754_finite false 5764607523034235 (-59).
Proof. vm_compute. reflexivity. Qed.

Lemma lit_1_1 : lit 1 1 = S754_finite false 7205759403792794 (-56).
Proof. vm_compute. reflexivity. Qed.

Lemma ltb_leb_false (x y : number) : ltb x y = true -> leb y x = false.
Proof.
  unfold ltb, leb, SFltb, SFleb. rewrite (SFcompare_swap x y).
  destruct (SFcompare x y) as [[]|]; simpl; congruence.
Qed.

(** Comparison of two positive finite numbers. *)
Lemma compare_finite (m1 m2 : positive) (e1 e2 : Z) :
  SFcompare (S754_finite false m1 e1) (S754_finite false m2 e2) =
  Some match e1 ?= e2 with
       | Lt => Lt
       | Gt => Gt
       | Eq => (m1 ?= m2)%positive
       end.
Proof. reflexivity. Qed.

Lemma ltb_finite (m1 m2 : positive) (e1 e2 : Z) :
  ltb (S754_finite false m1 e1) (S754_finite false m2 e2) = true <->
  e1 < e2 \/ (e1 = e2 /\ (m1 < m2)%positive).
Proof.
  unfold ltb, SFltb. rewrite compare_finite.
  destruct (Z.compare_spec e1 e2) as [He|He|He];
    [destruct (Pos.compare_spec m1 m2) as [Hm|Hm|Hm]| |];
    split; intros H; try reflexivity; try discriminate; lia.
Qed.

Lemma leb_finite (m1 m2 : positive) (e1 e2 : Z) :
  leb (S754_finite false m1 e1) (S754_finite false m2 e2) = true <->
  e1 < e2 \/ (e1 = e2 /\ (m1 <= m2)%positive).
Proof.
  unfold leb, SFleb. rewrite compare_finite.
  destruct (Z.compare_spec e1 e2) as [He|He|He];
    [destruct (Pos.compare_spec m1 m2) as [Hm|Hm|Hm]| |];
    split; intros H; try reflexivity; try discriminate; lia.
Qed.

(** *** Strings *)

Lemma length_append (a b : string) :
  String.length (a ++ b) = (String.length a + String.length b)%nat.
Proof. induction a as [|c a IH]; simpl; [reflexivity|]. rewrite IH. reflexivity. Qed.

Lemma length_zeros (n : nat) : String.length (zeros n) = n.
Proof. induction n as [|n IH]; simpl; [reflexivity|]. rewrite IH. reflexivity. Qed.

Lemma length_substring (i j : nat) (s : string) :
  (i + j <= String.length s)%nat -> String.length (substring i j s) = j.
Proof.
  revert j s. induction i as [|i IH]; intros j s.
  - revert s. induction j as [|j IHj]; intros s H.
    + destruct s; reflexivity.
    + destruct s as [|c s]; simpl in *; [lia|]. rewrite IHj by lia. reflexivity.
  - intros H. destruct s as [|c s]; simpl in *; [lia|]. apply IH. lia.
Qed.

Lemma substring_all (s : string) : substring 0 (String.length s) s = s.
Proof. induction s as [|c s IH]; simpl; [reflexivity|]. rewrite IH. reflexivity. Qed.

Lemma substring_split (i : nat) (s : string) :
  (i <= String.length s)%nat ->
  (substring 0 i s ++ substring i (String.length s - i) s)%string = s.
Proof.
  revert s. induction i as [|i IH]; intros s H.
  - rewrite Nat.sub_0_r, substring_all. destruct s; reflexivity.
  - destruct s as [|c s]; [simpl in H; lia|].
    change (String c (substring 0 i s ++
                      substring i (String.length s - i) s)%string
            = String c s).
    f_equal. apply IH. simpl in H. lia.
Qed.

(** [toFixed]'s layout of the digits of [N] with [k] of them after the
    point. *)
Lemma fixed_digits_split (N : Z) (k : nat) :
  (0 < k)%nat ->
  exists a b,
    fixed_digits N k = (a ++ "." ++ b)%string /\ String.length b = k /\
    a <> EmptyString /\
    (a ++ b)%string =
    (zeros (k + 1 - String.length (digits (Z.to_N N)))
     ++ digits (Z.to_N N))%string.
Proof.
  intros Hk. unfold fixed_digits. destruct k as [|k0]; [lia|].
  set (k := S k0) in *. set (d := digits (Z.to_N N)).
  set (d' := if (String.length d <=? k)%nat
             then (zeros (k + 1 - String.length d) ++ d)%string else d).
  assert (Hd' : d' = (zeros (k + 1 - String.length d) ++ d)%string).
  { unfold d'. destruct (Nat.leb_spec (String.length d) k) as [H|H];
      [reflexivity|].
    replace (k + 1 - String.length d)%nat with 0%nat by lia. reflexivity. }
  assert (Hl : (k + 1 <= String.length d')%nat).
  { rewrite Hd', length_append, length_zeros. lia. }
  cbv zeta.
  exists (substring 0 (String.length d' - k) d'),
         (substring (String.length d' - k) k d').
  split; [reflexivity|]. split; [apply length_substring; lia|]. split.
  - intros E.
    assert (H0 : String.length (substring 0 (String.length d' - k) d')
                 = (String.length d' - k)%nat)
      by (apply length_substring; lia).
    rewrite E in H0. simpl in H0. lia.
  - rewrite <- Hd'.
    pose proof (substring_split (String.length d' - k) d' ltac:(lia)) as Hs.
    replace (String.length d' - (String.length d' - k))%nat with k in Hs
      by lia.
    exact Hs.
Qed.

Lemma scaled_round_nearest (m : positive) (e : Z) (k : nat) :
  nearest m e k (scaled_round m e k) /\ 0 <= scaled_round m e k.
Proof.
  unfold nearest, scaled_round. cbv zeta.
  destruct (Z.leb_spec 0 e) as [He|He].
  - split; [reflexivity|]. 
    assert (0 < 2 ^ e) by (apply Z.pow_pos_nonneg; lia).
    assert (0 < 10 ^ Z.of_nat k) by (apply Z.pow_pos_nonneg; lia).
    nia.
  - assert (HD : 0 < 2 ^ (- e)) by (apply Z.pow_pos_nonneg; lia).
    assert (HP : 0 < 10 ^ Z.of_nat k) by (apply Z.pow_pos_nonneg; lia).
    set (D := 2 ^ (- e)) in *. set (P := 10 ^ Z.of_nat k) in *.
    set (X := 2 * (Z.pos m * P) + D).
    assert (HX : 0 <= X) by (unfold X; nia).
    pose proof (Z.mul_div_le X (2 * D) ltac:(lia)) as H1.
    pose proof (Z.mul_succ_div_gt X (2 * D) ltac:(lia)) as H2.
    set (N := X / (2 * D)) in *.
    assert (HN : 0 <= N) by (apply Z.div_pos; lia).
    split; [|exact HN]. unfold X in H1, H2. split; nia.
Qed.

Lemma toFixed_fraction_digits (m : positive) (e : Z) (k : nat) :
  (0 < k)%nat ->
  ltb (S754_finite false m e) (of_Z (10 ^ 21)) = true ->
  fraction_digits k (S754_finite false m e)
                  (toFixed (S754_finite false m e) k).
Proof.
  intros Hk Hlt. unfold toFixed. rewrite (ltb_leb_false _ _ Hlt).
  destruct (fixed_digits_split (scaled_round m e k) k Hk)
    as (a & b & E & Hb & Ha & Hab).
  destruct (scaled_round_nearest m e k) as [Hn H0].
  exists m, e, (scaled_round m e k), a, b. rewrite E. auto 10.
Qed.

Lemma huge_eq : of_Z (10 ^ 21) = S754_finite false 7629394531250000 17.
Proof. vm_compute. reflexivity. Qed.

Lemma not_below (m m' : positive) (e e' : Z) :
  e' < e \/ (e' = e /\ (m' <= m)%positive) ->
  ltb (S754_finite false m e) (S754_finite false m' e') = false.
Proof.
  intros H. destruct (ltb _ _) eqn:E; [|reflexivity].
  apply ltb_finite in E. lia.
Qed.

(** Which branch [numberToString] takes for a positive finite number. *)
Lemma numberToString_finite (m : positive) (e : Z) :
  let n := S754_finite false m e in
  (leb (lit 1 4) n = true -> ltb n (lit 1 2) = true ->
     numberToString n = toFixed n 4) /\
  (leb (lit 1 2) n = true -> ltb n (lit 1 1) = true ->
     numberToString n = toFixed n 3) /\
  (leb (lit 1 1) n = true -> numberToString n = toFixed n 2).
Proof.
  intros n. unfold numberToString, n. rewrite lit_1_4, lit_1_2, lit_1_1.
  split; [|split].
  - intros H4 H2. apply leb_finite in H4.
    rewrite H2, not_below by lia. reflexivity.
  - intros H2 H1. apply leb_finite in H2.
    rewrite H1, !not_below by lia. reflexivity.
  - intros H1. apply leb_finite in H1.
    rewrite !not_below by lia. reflexivity.
Qed.

(** A number at or above 0.0001 and below 10^21 is positive and
    finite. *)
Lemma positive_finite (n c : number) :
  c = lit 1 4 \/ c = lit 1 2 \/ c = lit 1 1 ->
  leb c n = true -> ltb n (of_Z (10 ^ 21)) = true ->
  exists m e, n = S754_finite false m e.
Proof.
  intros Hc Hl Hu. rewrite huge_eq in Hu.
  destruct n as [s|s| |s m e].
  - destruct Hc as [->|[->| ->]]; vm_compute in Hl; discriminate.
  - destruct s; [|vm_compute in Hu; discriminate].
    destruct Hc as [->|[->| ->]]; vm_compute in Hl; discriminate.
  - destruct Hc as [->|[->| ->]]; vm_compute in Hl; discriminate.
  - destruct s; [|eauto].
    destruct Hc as [->|[->| ->]];
      rewrite ?lit_1_4, ?lit_1_2, ?lit_1_1 in Hl; discriminate.
Qed.

(** C7, for the numbers below 10^21: [numberToString] renders a number
    below 0.0001 by the default conversion, one from 0.0001 and below
    0.01 with four fraction digits, one from 0.01 and below 0.1 with
    three, and one from 0.1 and below 10^21 with two; 0.00005 gives its
    default form, 0.005 gives "0.0050", 0.05 gives "0.050" and 1.23456
    gives "1.23". *)
Theorem numberToString_digits :
  (forall n : number,
     leb zero n = true -> ltb n (of_Z (10 ^ 21)) = true ->
     (ltb n (lit 1 4) = true -> numberToString n = DefaultString n) /\
     (leb (lit 1 4) n = true -> ltb n (lit 1 2) = true ->
        fraction_digits 4 n (numberToString n)) /\
     (leb (lit 1 2) n = true -> ltb n (lit 1 1) = true ->
        fraction_digits 3 n (numberToString n)) /\
     (leb (lit 1 1) n = true -> fraction_digits 2 n (numberToString n))) /\
  numberToString (lit 5 5) = DefaultString (lit 5 5) /\
  numberToString (lit 5 3) = Str "0.0050" /\
  numberToString (lit 5 2) = Str "0.050" /\
  numberToString (lit 123456 5) = Str "1.23".
Proof.
  split; [|repeat split; vm_compute; reflexivity].
  intros n _ Hu. split; [|split; [|split]].
  - intros H. unfold numberToString. rewrite H. reflexivity.
  - intros H4 H2.
    destruct (positive_finite n (lit 1 4)) as (m & e & ->); auto.
    destruct (numberToString_finite m e) as (-> & _); auto.
    apply toFixed_fraction_digits; [lia|exact Hu].
  - intros H2 H1.
    destruct (positive_finite n (lit 1 2)) as (m & e & ->); auto.
    destruct (numberToString_finite m e) as (_ & -> & _); auto.
    apply toFixed_fraction_digits; [lia|exact Hu].
  - intros H1.
    destruct (positive_finite n (lit 1 1)) as (m & e & ->); auto.
    destruct (numberToString_finite m e) as (_ & _ & ->); auto.
    apply toFixed_fraction_digits; [lia|exact Hu].
Qed.

Lemma numberToString_digits_witness :
  fraction_digits 4 (lit 5 3) (numberToString (lit 5 3)).
Proof.
  apply (proj1 numberToString_digits (lit 5 3));
    vm_compute; reflexivity.
Defined.

(** C7 as the specification words it fails from 10^21 on: the number
    10^21 is not below 0.1 and is rendered by the default conversion,
    and [+Infinity] is rendered as "Infinity", a string without a
    decimal point. *)
Lemma numberToString_from_1e21 :
  leb zero (of_Z (10 ^ 21)) = true /\
  ltb (of_Z (10 ^ 21)) (lit 1 1) = false /\
  numberToString (of_Z (10 ^ 21)) = DefaultString (of_Z (10 ^ 21)) /\
  leb zero (S754_infinity false) = true /\
  ltb (S754_infinity false) (lit 1 1) = false /\
  numberToString (S754_infinity false) = Str "Infinity" /\
  ~ (exists a b : string, "Infinity"%string = (a ++ "." ++ b)%string).
Proof.
  repeat (split; [vm_compute; reflexivity|]).
  intros (a & b & H).
  repeat (destruct a as [|? a]; simpl in H; [inversion H|injection H as _ H]).
  destruct a; discriminate H.
Qed.

(** ** Area *)

Lemma heron_formula_eq (pi pj pk : Vec3) :
  heron pi pj pk =
  heron_formula (Vector3.distanceTo pi pj) (Vector3.distanceTo pj pk)
                (Vector3.distanceTo pk pi).
Proof. unfold heron, heron_formula. reflexivity. Qed.

Lemma at_index_lookup (pts : list Vec3) (i : nat) :
  (i < List.length pts)%nat -> pts !! i = Some (at_index pts i).
Proof.
  intros H. unfold at_index.
  destruct (lookup_lt_is_Some_2 pts i H) as [v Hv]. rewrite Hv. reflexivity.
Qed.

Lemma calculateArea_loop_step (points : list Vec3) (fuel j k : nat)
    (area : number) :
  calculateArea_loop points (S fuel) j k area =
  if (k <? List.length points)%nat then
    match points !! 0%nat, points !! j, points !! k with
    | Some pi, Some pj, Some pk =>
      calculateArea_loop points fuel (S j) (S k) (add area (heron pi pj pk))
    | _, _, _ => area
    end
  else area.
Proof. reflexivity. Qed.

(** The loop started at [j] with enough fuel adds the triangles
    [j, j+1, ...] to the running sum. *)
Lemma calculateArea_loop_foldl (points : list Vec3) (fuel j : nat)
    (area : number) :
  (1 <= j)%nat -> (List.length points <= fuel + S j)%nat ->
  calculateArea_loop points fuel j (S j) area =
  foldl
    (fun area j =>
       let v0 := at_index points 0 in
       let vj := at_index points j in
       let vk := at_index points (j + 1) in
       add area
           (heron_formula (Vector3.distanceTo v0 vj)
                          (Vector3.distanceTo vj vk)
                          (Vector3.distanceTo vk v0)))
    area (seq j (List.length points - S j)).
Proof.
  revert j area. induction fuel as [|fuel IH]; intros j area Hj Hlen.
  - replace (List.length points - S j)%nat with 0%nat by lia. reflexivity.
  - rewrite calculateArea_loop_step.
    destruct (Nat.ltb_spec (S j) (List.length points)) as [Hk|Hk].
    + rewrite (at_index_lookup points 0), (at_index_lookup points j),
        (at_index_lookup points (S j)) by lia.
      rewrite IH by lia.
      replace (List.length points - S j)%nat
        with (S (List.length points - S (S j)))%nat by lia.
      cbn [seq foldl]. replace (j + 1)%nat with (S j) by lia.
      rewrite heron_formula_eq. reflexivity.
    + replace (List.length points - S j)%nat with 0%nat by lia. reflexivity.
Qed.

(** C9: [calculateArea] sums, from the first vertex, the Heron area of
    each triangle [(points[0], points[j], points[j+1])] for [j] from 1
    to [length - 2]; on the right triangle (0,0,0), (3,0,0), (0,4,0) it
    returns 6. *)
Theorem calculateArea_fan :
  (forall points : list Vec3, calculateArea points = fan_area points) /\
  calculateArea [vec 0 0 0; vec 3 0 0; vec 0 4 0] = of_Z 6.
Proof.
  split; [|vm_compute; reflexivity].
  intros points. unfold calculateArea, fan_area.
  rewrite calculateArea_loop_foldl by lia. reflexivity.
Qed.

(** ** Angle *)





Lemma calculateAngle_unfold (acos : number -> number) (p0 p1 p2 : Vec3) :
  calculateAngle acos p0 p1 p2 =
  degrees (if eqb (denominator p0 p1 p2) zero then div Vector3.PI (of_Z 2)
           else acos (Vector3.clamp (theta p0 p1 p2) (of_Z (-1)) (of_Z 1))).
Proof. reflexivity. Qed.











(** Two arms of length [10^200]: the squared lengths overflow, the
    quotient is NaN and so is the angle, where [Math.acos] takes NaN to
    NaN as ECMA-262 requires. *)
Lemma calculateAngle_far_NaN (acos : number -> number) :
  acos NaN = NaN ->
  same_side far (vec 0 0 0) far /\
  calculateAngle acos far (vec 0 0 0) far = NaN.
Proof.
  intros H. split.
  - exists 1%Q. do 3 eexists.
    split; [vm_compute; reflexivity|]. split; [vm_compute; reflexivity|].
    split; [vm_compute; reflexivity|]. split; [reflexivity|].
    split; [|repeat split; vm_compute; reflexivity].
    intros (H' & _). vm_compute in H'. discriminate.
  - rewrite calculateAngle_unfold.
    replace (eqb (denominator far (vec 0 0 0) far) zero) with false
      by (vm_compute; reflexivity).
    replace (Vector3.clamp (theta far (vec 0 0 0) far) (of_Z (-1)) (of_Z 1))
      with NaN by (vm_compute; reflexivity).
    rewrite H. vm_compute. reflexivity.
Qed.
(** ** What the statements of the handlers leave alone *)

Create HintDb frame.

Lemma same_session_refl (s : Measure) : same_session s s.
Proof. repeat split. Qed.

Lemma same_session_trans (s1 s2 s3 : Measure) :
  same_session s1 s2 -> same_session s2 s3 -> same_session s1 s3.
Proof.
  intros (A1 & A2 & A3 & A4) (B1 & B2 & B3 & B4).
  repeat split; congruence.
Qed.

#[local] Hint Resolve same_session_refl : frame.

(** A statement that only assigns other fields, or only acts on the
    page, is transparent for [same_session]. *)
Lemma frame_step (f : Measure -> Measure) (s0 s : Measure) :
  (forall x, same_session x (f x)) ->
  same_session s0 s -> same_session s0 (f s).
Proof. intros Hf H. exact (same_session_trans _ _ _ H (Hf s)). Qed.

#[local] Hint Extern 5 (same_session ?s0 (?f ?s)) =>
  (refine (frame_step f s0 s _ _); [solve [intro; repeat split]|]) : frame.

Section Frame.

Variable s0 : Measure.

Lemma frame_addHelpLabel (l : LabelText) (p : Vec3) (s : Measure) :
  same_session s0 s -> same_session s0 (addHelpLabel l p s).
Proof.
  intros H. unfold addHelpLabel. destruct (helpLabel s) eqn:E; simpl.
  - rewrite E. exact H.
  - exact H.
Qed.

Lemma frame_addOrUpdateLabel (o : Obj) (l : LabelText) (p d : Vec3)
    (x : number) (s : Measure) :
  same_session s0 s -> same_session s0 (addOrUpdateLabel o l p d x s).
Proof.
  intros H. unfold addOrUpdateLabel.
  destruct (font s); simpl; [|exact H]. destruct (tempLabel s); exact H.
Qed.

Hint Resolve frame_addHelpLabel
  frame_addOrUpdateLabel : frame.

Lemma frame_open_faces (s : Measure) :
  same_session s0 s -> same_session s0 (open_faces s).
Proof. intros H. unfold open_faces. case_decide; exact H. Qed.

Lemma frame_close_loop (line : Obj) (n : nat) (p : Vec3) (s : Measure) :
  same_session s0 s -> same_session s0 (close_loop line n p s).
Proof. intros H. unfold close_loop. case_match; exact H. Qed.

Hint Resolve frame_open_faces frame_close_loop : frame.

Lemma frame_label_area (line : Obj) (n : nat) (s : Measure) :
  same_session s0 s -> same_session s0 (label_area line n s).
Proof. intros H. unfold label_area. auto with frame. Qed.

Lemma frame_label_angle (line : Obj) (s : Measure) :
  same_session s0 s -> same_session s0 (label_angle line s).
Proof.
  intros H. unfold label_angle.
  match goal with
  | |- context [addOrUpdateLabel ?a ?b ?c ?d ?e s] =>
    assert (H' : same_session s0 (addOrUpdateLabel a b c d e s))
      by auto with frame;
    generalize dependent (addOrUpdateLabel a b c d e s)
  end.
  intros s' H'. exact H'.
Qed.

Hint Resolve frame_label_area frame_label_angle : frame.

Lemma frame_complete_area (l : Locals) :
  same_session s0 (this l) -> same_session s0 (this (complete_area l)).
Proof.
  intros H. unfold complete_area. repeat case_match; simpl; auto with frame.
Qed.

Lemma frame_complete_distance (l : Locals) :
  same_session s0 (this l) -> same_session s0 (this (complete_distance l)).
Proof.
  intros H. unfold complete_distance. repeat case_match; simpl; auto with frame.
Qed.

Lemma frame_complete_angle (l : Locals) :
  same_session s0 (this l) -> same_session s0 (this (complete_angle l)).
Proof.
  intros H. unfold complete_angle. repeat case_match; simpl; auto with frame.
Qed.

Lemma frame_clear_invalid (l : Locals) :
  same_session s0 (this l) -> same_session s0 (clear_invalid l).
Proof.
  intros H. unfold clear_invalid. repeat case_match; auto 10 with frame.
Qed.

Lemma frame_make_draggable (s : Measure) :
  same_session s0 s -> same_session s0 (make_draggable s).
Proof.
  intros H. unfold make_draggable.
  destruct (polyline s) as [line|]; [|exact H].
  generalize (traverse (nextId s) (nextId s) (objects s) line). intros l.
  revert s H. induction l as [|x l IH]; intros s H; [exact H|].
  simpl. apply IH. case_decide; auto with frame.
Qed.

Lemma frame_remove_temp_line (s : Measure) :
  same_session s0 s -> same_session s0 (remove_temp_line s).
Proof.
  intros H. unfold remove_temp_line. repeat case_match; auto with frame.
Qed.

Hint Resolve frame_complete_area frame_complete_distance
  frame_complete_angle frame_clear_invalid frame_make_draggable
  frame_remove_temp_line : frame.

Lemma frame_move_point (s : Measure) :
  same_session s0 s -> same_session s0 (move_point s).
Proof. intros H. unfold move_point. destruct (tempPoints s); exact H. Qed.

Lemma frame_tempLine_or_new (s : Measure) :
  same_session s0 s -> same_session s0 (tempLine_or_new s).2.
Proof. intros H. unfold tempLine_or_new. destruct (tempLine s); exact H. Qed.

Lemma frame_move_first_point (s : Measure) :
  same_session s0 s -> same_session s0 (move_first_point s).
Proof.
  intros H. unfold move_first_point. case_match; [|exact H].
  pose proof (frame_tempLine_or_new s H) as H'.
  destruct (tempLine_or_new s) as [line s']. simpl in H'.
  case_match; auto with frame.
Qed.

Lemma frame_move_segment (line : Obj) (p0 p : Vec3) (s : Measure) :
  same_session s0 s -> same_session s0 (move_segment line p0 p s).
Proof. intros H. unfold move_segment. case_match; exact H. Qed.

Lemma frame_move_distance_label (line : Obj) (p0 p : Vec3) (s : Measure) :
  same_session s0 s -> same_session s0 (move_distance_label line p0 p s).
Proof.
  intros H. unfold move_distance_label. case_decide; auto with frame.
Qed.

Lemma frame_keep_temp_line (line : Obj) (s : Measure) :
  same_session s0 s -> same_session s0 (keep_temp_line line s).
Proof. intros H. unfold keep_temp_line. destruct (tempLine s); exact H. Qed.

Hint Resolve frame_move_point frame_move_first_point frame_move_segment
  frame_move_distance_label frame_keep_temp_line : frame.

Lemma frame_move_line (p : Vec3) (s : Measure) :
  same_session s0 s -> same_session s0 (move_line p s).
Proof.
  intros H. unfold move_line. case_match; [|exact H].
  assert (H1 : same_session s0 (move_help help_finish p s))
    by (unfold move_help; auto with frame).
  pose proof (frame_tempLine_or_new _ H1) as H2.
  destruct (tempLine_or_new (move_help help_finish p s)) as [line s'].
  simpl in H2. auto with frame.
Qed.

Lemma frame_mousemove (e : Event) (s : Measure) :
  same_session s0 s -> same_session s0 (mousemove e s).
Proof.
  intros H. unfold mousemove.
  destruct (getClosestIntersection e (set_mouseMoved true s)); [|exact H].
  apply frame_move_line. unfold move_help. auto with frame.
Qed.

Lemma frame_keep_label (line : Obj) (s : Measure) :
  same_session s0 s -> same_session s0 (keep_label line s).
Proof. intros H. unfold keep_label. destruct (tempLabel s); exact H. Qed.

Lemma frame_settle_fontSize (s : Measure) :
  same_session s0 s -> same_session s0 (settle_fontSize s).
Proof. intros H. unfold settle_fontSize. case_match; exact H. Qed.

Hint Resolve frame_keep_label frame_settle_fontSize : frame.

Lemma frame_click_polyline (p : Vec3) (s : Measure) :
  same_session s0 s -> same_session s0 (click_polyline p s).
Proof.
  intros H. unfold click_polyline. repeat case_match; auto 10 with frame.
Qed.

Lemma frame_click_faces (p : Vec3) (s : Measure) :
  same_session s0 s -> same_session s0 (click_faces p s).
Proof.
  intros H. unfold click_faces. repeat case_match; exact H.
Qed.

End Frame.

#[local] Hint Resolve frame_addHelpLabel
  frame_addOrUpdateLabel frame_open_faces frame_close_loop
  frame_label_area frame_label_angle frame_complete_area
  frame_complete_distance frame_complete_angle frame_clear_invalid
  frame_make_draggable frame_remove_temp_line frame_mousemove
  frame_click_polyline frame_click_faces : frame.

(** ** The fields the session methods do assign *)

Lemma complete_completed (s : Measure) :
  isCompleted s = true -> complete s = s.
Proof. intros H. unfold complete. rewrite H. reflexivity. Qed.

(** [complete] keeps the mode, the points and the click time, and
    leaves the flag set. *)
Lemma complete_fields (s : Measure) :
  mode (complete s) = mode s /\ pointArray (complete s) = pointArray s /\
  isCompleted (complete s) = true /\
  lastClickTime (complete s) = lastClickTime s.
Proof.
  destruct (isCompleted s) eqn:H.
  { rewrite complete_completed by exact H. auto. }
  unfold complete. rewrite H.
  match goal with
  | |- context [set_isCompleted true ?X] =>
    assert (HX : same_session s X) by auto 10 with frame;
    generalize dependent X
  end.
  intros x (A & B & C & D).
  match goal with
  | |- context [mode ?Y] =>
    assert (HY : same_session (set_isCompleted true x) Y)
      by auto 10 with frame;
    destruct HY as (A' & B' & C' & D')
  end.
  rewrite A', B', C', D'. simpl. auto.
Qed.

(** [close] keeps the mode, the flag and the click time, and empties
    the points. *)
Lemma close_fields (s : Measure) :
  mode (close s) = mode s /\ pointArray (close s) = [] /\
  isCompleted (close s) = isCompleted s /\
  lastClickTime (close s) = lastClickTime s.
Proof.
  unfold close.
  match goal with
  | |- context [set_pointArray [] ?X] =>
    assert (HX : same_session s X) by auto 20 with frame;
    generalize dependent X
  end.
  intros x (A & B & C & D).
  match goal with
  | |- context [mode ?Y] =>
    assert (HY : same_session (set_pointArray [] x) Y)
      by auto 20 with frame;
    destruct HY as (A' & B' & C' & D')
  end.
  rewrite A', B', C', D'. simpl. auto.
Qed.

Lemma close_raycaster (s : Measure) : raycaster (close s) = false.
Proof.
  unfold close, clearDraggableObjects.
  match goal with
  | |- context [dragControls ?X] => destruct (dragControls X)
  end; reflexivity.
Qed.

Lemma set_mode_if_fields (m : option MeasureMode) (s : Measure) :
  mode (set_mode_if m s) = default (mode s) m /\
  isCompleted (set_mode_if m s) = isCompleted s /\
  lastClickTime (set_mode_if m s) = lastClickTime s.
Proof. destruct m; simpl; auto. Qed.

(** [open] keeps the click time; the session it leaves is empty and not
    completed. *)
Lemma open_fields (m : option MeasureMode) (s : Measure) :
  mode (open m s) = default (mode s) m /\ pointArray (open m s) = [] /\
  isCompleted (open m s) = false /\
  lastClickTime (open m s) = lastClickTime s.
Proof.
  pose proof (close_fields (set_mode_if m s)) as (A & B & C & D).
  pose proof (set_mode_if_fields m s) as (A0 & C0 & D0).
  unfold open.
  generalize dependent (close (set_mode_if m s)). intros c A B C D.
  unfold start.
  match goal with
  | |- context [set_pointArray [] ?X] =>
    assert (HX : same_session c X) by auto 20 with frame;
    generalize dependent X
  end.
  intros x (A1 & B1 & C1 & D1).
  match goal with
  | |- context [set_isCompleted false ?X] =>
    assert (HX : same_session (set_pointArray [] x) X) by auto 20 with frame;
    generalize dependent X
  end.
  intros y (A2 & B2 & C2 & D2).
  simpl in *. repeat split; congruence.
Qed.

(** An accepted click: the ray hits something and the click is not
    debounced. *)
Lemma onMouseClicked_accepted (e : Event) (s : Measure) (p : Vec3) :
  getClosestIntersection e s = Some p -> debounced e s = false ->
  onMouseClicked e s =
  auto_complete
    (push_point p
       (click_faces p (click_polyline p (set_lastClickTime (Some (now e)) s)))).
Proof.
  intros Hp Hd. unfold onMouseClicked. rewrite Hp, Hd.
  unfold getClosestIntersection in Hp.
  destruct (negb (raycaster s) || isCompleted s); [discriminate|reflexivity].
Qed.

(** Any other click changes nothing. *)
Lemma onMouseClicked_rejected (e : Event) (s : Measure) :
  getClosestIntersection e s = None \/ debounced e s = true ->
  onMouseClicked e s = s.
Proof.
  intros H. unfold onMouseClicked.
  destruct (negb (raycaster s) || isCompleted s); [reflexivity|].
  destruct (getClosestIntersection e s); [|reflexivity].
  destruct H as [H|H]; [discriminate|]. rewrite H. reflexivity.
Qed.

Lemma getClosestIntersection_completed (e : Event) (s : Measure) :
  isCompleted s = true -> getClosestIntersection e s = None.
Proof.
  intros H. unfold getClosestIntersection. rewrite H, orb_true_r. reflexivity.
Qed.

(** What an accepted click leaves: the point is recorded, the click
    time is its time, and the session is completed exactly in Angle
    mode with three points or more. *)
Lemma onMouseClicked_fields (e : Event) (s : Measure) (p : Vec3) :
  getClosestIntersection e s = Some p -> debounced e s = false ->
  mode (onMouseClicked e s) = mode s /\
  pointArray (onMouseClicked e s) = pointArray s ++ [p] /\
  lastClickTime (onMouseClicked e s) = Some (now e) /\
  isCompleted (onMouseClicked e s) =
    bool_decide (mode s = Angle) &&
    (3 <=? List.length (pointArray s ++ [p]))%nat.
Proof.
  intros Hp Hd. rewrite (onMouseClicked_accepted e s p Hp Hd).
  assert (Hc : isCompleted s = false).
  { unfold getClosestIntersection in Hp.
    destruct (isCompleted s); [|reflexivity].
    rewrite orb_true_r in Hp. discriminate. }
  match goal with
  | |- context [push_point p ?X] =>
    assert (HX : same_session (set_lastClickTime (Some (now e)) s) X)
      by auto with frame;
    generalize dependent X
  end.
  intros x (A & B & C & D). simpl in A, B, C, D.
  unfold auto_complete, push_point.
  change (mode (set_pointArray (pointArray x ++ [p]) x)) with (mode x).
  change (pointArray (set_pointArray (pointArray x ++ [p]) x))
    with (pointArray x ++ [p]).
  rewrite A, B.
  destruct (bool_decide (mode s = Angle) &&
            (3 <=? List.length (pointArray s ++ [p]))%nat).
  - pose proof (complete_fields (set_pointArray (pointArray s ++ [p]) x))
      as (A' & B' & C' & D').
    rewrite A', B', C', D'. repeat split; assumption.
  - repeat split; try assumption. rewrite <- Hc. exact C.
Qed.

(** ** What a handler can do to the session *)

(** A handler leaves the session as it is, completes it, closes it, or
    records the point of an accepted click. *)
Lemma call_cases (h : Handler) (e : Event) (s : Measure) :
  same_session s (call h e s) \/ call h e s = complete s \/
  call h e s = close s \/
  (exists p, getClosestIntersection e s = Some p /\ debounced e s = false /\
             call h e s = onMouseClicked e s).
Proof.
  destruct h; unfold call.
  - left. unfold mousedown. repeat split.
  - left. auto with frame.
  - unfold mouseup. destruct (negb (mouseMoved s)); [|left; auto with frame].
    destruct (getClosestIntersection e s) as [p|] eqn:Hp.
    + destruct (debounced e s) eqn:Hd.
      * left. rewrite onMouseClicked_rejected by auto. auto with frame.
      * right. right. right. exists p. auto.
    + left. rewrite onMouseClicked_rejected by auto. auto with frame.
  - right. left. reflexivity.
  - unfold keydown, cancel. repeat case_decide; auto with frame.
Qed.

Section Invariant.

(** A property of the session that no handler, no [close], no
    [complete] and no font arrival breaks holds along every run
    without [open]. *)
Variable P : Measure -> Prop.
Hypothesis P_same : forall s s', same_session s s' -> P s -> P s'.
Hypothesis P_complete : forall s, P s -> P (complete s).
Hypothesis P_close : forall s, P s -> P (close s).
Hypothesis P_click : forall e s p,
  getClosestIntersection e s = Some p -> debounced e s = false ->
  P s -> P (onMouseClicked e s).

Lemma call_invariant (h : Handler) (e : Event) (s : Measure) :
  P s -> P (call h e s).
Proof.
  intros H.
  destruct (call_cases h e s) as [Hs|[->|[->|(p & Hp & Hd & ->)]]]; eauto.
Qed.

Lemma dispatch_invariant (t : Target) (type : string) (e : Event)
    (s : Measure) :
  P s -> P (dispatch t type e s).
Proof.
  unfold dispatch.
  generalize (filter (fun l => l_target l = t /\ l_type l = type)
                     (listeners s)).
  intros ls. revert s. induction ls as [|l ls IH]; intros s H; [exact H|].
  cbn [foldl]. apply IH, call_invariant, H.
Qed.



End Invariant.




(** ** The time of the last accepted click *)

Lemma invoke_lastClickTime (m : Method) (s : Measure) :
  lastClickTime (invoke m s) = lastClickTime s.
Proof.
  destruct m as [m| | |]; unfold invoke, cancel.
  - apply open_fields.
  - apply close_fields.
  - apply close_fields.
  - apply complete_fields.
Qed.

Lemma debounced_soon (e : Event) (s : Measure) (t : Z) :
  lastClickTime s = Some t -> t <> 0 -> now e - t < 500 ->
  debounced e s = true.
Proof.
  intros H Ht Hlt. unfold debounced. rewrite H.
  rewrite bool_decide_eq_true_2 by exact Ht.
  apply andb_true_iff. split; [reflexivity|]. apply Z.ltb_lt, Hlt.
Qed.

Lemma accepted_lastClickTime (e : Event) (s : Measure) :
  pointArray (onMouseClicked e s) <> pointArray s ->
  lastClickTime (onMouseClicked e s) = Some (now e).
Proof.
  intros Hacc.
  destruct (getClosestIntersection e s) as [p|] eqn:Hp;
    [destruct (debounced e s) eqn:Hd|].
  - rewrite onMouseClicked_rejected in Hacc by auto. contradiction.
  - apply (onMouseClicked_fields e s p Hp Hd).
  - rewrite onMouseClicked_rejected in Hacc by auto. contradiction.
Qed.

(** While the last accepted click is less than 500 ms old, a handler
    neither moves its time nor commits a point. *)
Lemma call_guarded (h : Handler) (e : Event) (s : Measure) (t : Z) :
  lastClickTime s = Some t -> t <> 0 -> now e - t < 500 ->
  lastClickTime (call h e s) = Some t /\
  (List.length (pointArray (call h e s)) <= List.length (pointArray s))%nat.
Proof.
  intros H Ht Hlt.
  destruct (call_cases h e s) as [(_ & B & _ & D)|[->|[->|(p & _ & Hd & _)]]].
  - rewrite B, D. auto.
  - destruct (complete_fields s) as (_ & -> & _ & ->). auto.
  - destruct (close_fields s) as (_ & -> & _ & ->). split; [exact H|].
    simpl. lia.
  - rewrite (debounced_soon e s t H Ht Hlt) in Hd. discriminate.
Qed.

Lemma dispatch_guarded (tg : Target) (type : string) (e : Event)
    (s : Measure) (t : Z) :
  lastClickTime s = Some t -> t <> 0 -> now e - t < 500 ->
  lastClickTime (dispatch tg type e s) = Some t /\
  (List.length (pointArray (dispatch tg type e s))
   <= List.length (pointArray s))%nat.
Proof.
  intros H Ht Hlt. unfold dispatch.
  generalize (filter (fun l => l_target l = tg /\ l_type l = type)
                     (listeners s)).
  intros ls. revert s H. induction ls as [|l ls IH]; intros s H; [auto|].
  cbn [foldl].
  destruct (call_guarded (l_callback l) e s t H Ht Hlt) as [A B].
  destruct (IH _ A) as [A' B']. split; [exact A'|lia].
Qed.

Lemma step_guarded (a : Action) (s : Measure) (t : Z) :
  lastClickTime s = Some t -> t <> 0 -> within t a ->
  lastClickTime (step a s) = Some t /\
  (List.length (pointArray (step a s)) <= List.length (pointArray s))%nat.
Proof.
  intros H Ht Ha. destruct a as [[m| | |]|tg type e|]; unfold step.
  - unfold invoke. destruct (open_fields m s) as (_ & -> & _ & ->).
    split; [exact H|simpl; lia].
  - unfold invoke. destruct (close_fields s) as (_ & -> & _ & ->).
    split; [exact H|simpl; lia].
  - unfold invoke, cancel. destruct (close_fields s) as (_ & -> & _ & ->).
    split; [exact H|simpl; lia].
  - unfold invoke. destruct (complete_fields s) as (_ & -> & _ & ->). auto.
  - apply dispatch_guarded; assumption.
  - unfold fontLoaded. auto.
Qed.

Lemma run_guarded (acts : list Action) (s : Measure) (t : Z) :
  lastClickTime s = Some t -> t <> 0 -> Forall (within t) acts ->
  lastClickTime (run acts s) = Some t /\
  (List.length (pointArray (run acts s)) <= List.length (pointArray s))%nat.
Proof.
  intros H Ht Ha. unfold run. revert s H.
  induction Ha as [|a acts Ha _ IH]; intros s H; [auto|].
  cbn [foldl]. destruct (step_guarded a s t H Ht Ha) as [A B].
  destruct (IH _ A) as [A' B']. split; [exact A'|lia].
Qed.

(** C10, for clicks after an accepted one: [lastClickTime] is assigned
    by an accepted click only and is never reset, neither by [open],
    [close], [cancel] and [complete] nor by any handler.  After a click
    accepted at a time other than 0, and whatever is called and
    whatever events are handled in the 500 ms that follow, the time
    stays, no point is committed, and a click in those 500 ms changes
    nothing wherever it lands; a session opened in between stays
    empty. *)
Theorem accepted_click_guards_window (s : Measure) (acts : list Action)
    (m : option MeasureMode) (e1 e2 : Event) :
  pointArray (onMouseClicked e1 s) <> pointArray s ->
  now e1 <> 0 -> Forall (within (now e1)) acts ->
  now e2 - now e1 < 500 ->
  let s1 := onMouseClicked e1 s in
  let s2 := run acts s1 in
  lastClickTime s2 = Some (now e1) /\
  (List.length (pointArray s2) <= List.length (pointArray s1))%nat /\
  onMouseClicked e2 s2 = s2 /\ mouseup e2 s2 = s2 /\
  lastClickTime (open m s2) = Some (now e1) /\
  pointArray (dispatch Canvas "mouseup" e2 (open m s2)) = [].
Proof.
  intros Hacc Ht Ha Hlt.
  pose proof (accepted_lastClickTime e1 s Hacc) as H1.
  generalize dependent (onMouseClicked e1 s). intros s1 _ H1 s1' s2.
  subst s1' s2.
  destruct (run_guarded acts s1 (now e1) H1 Ht Ha) as [A B].
  generalize dependent (run acts s1). intros s2 A B.
  assert (Hrej : onMouseClicked e2 s2 = s2).
  { apply onMouseClicked_rejected. right.
    apply (debounced_soon e2 s2 (now e1)); assumption. }
  split; [exact A|]. split; [exact B|]. split; [exact Hrej|].
  split.
  { unfold mouseup. destruct (negb (mouseMoved s2));
      [exact Hrej|reflexivity]. }
  destruct (open_fields m s2) as (_ & Hp & _ & Hl).
  rewrite A in Hl. split; [exact Hl|].
  destruct (dispatch_guarded Canvas "mouseup" e2 (open m s2) (now e1)
              Hl Ht Hlt) as [_ Hn].
  rewrite Hp in Hn. simpl in Hn.
  destruct (pointArray (dispatch Canvas "mouseup" e2 (open m s2)));
    [reflexivity|simpl in Hn; lia].
Qed.

(** C10 as the specification words it fails for a pair of clicks of
    which the first is not accepted, and for a first click at time 0: a
    click that hits nothing at 1000 and one that hits at 1100 leave one
    point, and clicks at 0 and at 100 leave two. *)
Lemma second_click_commits :
  now (at_ 1 0 0 1100) - now (miss 1000) < 500 /\
  pointArray (run (click (miss 1000) ++ click (at_ 1 0 0 1100))
                  (open (Some Distance) tool)) = [vec 1 0 0] /\
  now (at_ 2 0 0 100) - now (at_ 1 0 0 0) < 500 /\
  pointArray (run (click (at_ 1 0 0 0) ++ click (at_ 2 0 0 100))
                  (open (Some Distance) tool)) = [vec 1 0 0; vec 2 0 0].
Proof. repeat split; vm_compute; reflexivity. Qed.

(** ** The scene graph *)

Lemma parent_of_remove (p c o : Obj) (h : Store) :
  parent_of (Object3D_remove p c h) o =
  if decide (o = c /\ parent_of h c = Some p) then None else parent_of h o.
Proof.
  unfold Object3D_remove, parent_of.
  destruct (h !! c) as [oc|] eqn:Hc; simpl.
  - destruct (decide (parent oc = Some p)) as [Hp|Hp].
    + destruct (decide (o = c)) as [->|Hne].
      * rewrite lookup_insert_eq. simpl.
        rewrite decide_True by auto. reflexivity.
      * rewrite lookup_insert_ne by auto.
        rewrite decide_False by tauto. reflexivity.
    + rewrite decide_False by tauto. reflexivity.
  - rewrite decide_False; [reflexivity|]. intros [_ H]. discriminate.
Qed.

(** Removing what is not a child changes nothing. *)
Lemma remove_not_child (p c : Obj) (h : Store) :
  parent_of h c <> Some p -> Object3D_remove p c h = h.
Proof.
  unfold Object3D_remove, parent_of. intros H.
  destruct (h !! c) as [oc|]; [|reflexivity]. simpl in H.
  rewrite decide_False by exact H. reflexivity.
Qed.

Lemma remove_lookup_is_Some (p c o : Obj) (h : Store) :
  is_Some (Object3D_remove p c h !! o) <-> is_Some (h !! o).
Proof.
  unfold Object3D_remove.
  destruct (h !! c) as [oc|] eqn:Hc; [|reflexivity].
  case_decide; [|reflexivity].
  destruct (decide (o = c)) as [->|Hne].
  - rewrite lookup_insert_eq, Hc. split; eauto.
  - rewrite lookup_insert_ne by auto. reflexivity.
Qed.

Lemma parent_of_remove_opt (p : Obj) (c : option Obj) (o q : Obj) (h : Store) :
  parent_of (remove_opt p c h) o = Some q ->
  parent_of h o = Some q /\ (q = p -> c <> Some o).
Proof.
  destruct c as [c|]; simpl; [|intros H; split; [exact H|discriminate]].
  rewrite parent_of_remove. case_decide as Hd; [discriminate|].
  intros H. split; [exact H|]. intros -> [= ->]. apply Hd. auto.
Qed.

Lemma parent_of_remove_opt_other (p : Obj) (c : option Obj) (o : Obj)
    (h : Store) :
  c <> Some o -> parent_of (remove_opt p c h) o = parent_of h o.
Proof.
  destruct c as [c|]; simpl; [|reflexivity]. intros Hne.
  rewrite parent_of_remove. apply decide_False. intros [-> _]. auto.
Qed.

Lemma remove_opt_not_child (p : Obj) (c : option Obj) (h : Store) :
  (forall o, c = Some o -> parent_of h o <> Some p) -> remove_opt p c h = h.
Proof.
  destruct c as [c|]; simpl; [|reflexivity].
  intros H. apply remove_not_child, H. reflexivity.
Qed.

Lemma remove_opt_lookup_is_Some (p : Obj) (c : option Obj) (o : Obj)
    (h : Store) :
  is_Some (remove_opt p c h !! o) <-> is_Some (h !! o).
Proof. destruct c; simpl; [apply remove_lookup_is_Some|reflexivity]. Qed.

Lemma remove_labels_parent (line : Obj) (items : list Obj) (o q : Obj)
    (h : Store) :
  parent_of (foldl (fun h item => Object3D_remove line item h) h items) o
    = Some q ->
  parent_of h o = Some q.
Proof.
  revert h. induction items as [|i items IH]; intros h; simpl; [auto|].
  intros H. apply IH in H. rewrite parent_of_remove in H.
  case_decide; [discriminate|exact H].
Qed.

Lemma remove_labels_lookup (line : Obj) (items : list Obj) (o : Obj)
    (h : Store) :
  is_Some (foldl (fun h item => Object3D_remove line item h) h items !! o)
  <-> is_Some (h !! o).
Proof.
  revert h. induction items as [|i items IH]; intros h; simpl; [reflexivity|].
  rewrite IH. apply remove_lookup_is_Some.
Qed.

Lemma parent_of_is_Some (h : Store) (o q : Obj) :
  parent_of h o = Some q -> is_Some (h !! o).
Proof. unfold parent_of. destruct (h !! o); [eauto|discriminate]. Qed.

(** A fresh object added to [p] is a child of [p]; the others keep
    their parents. *)
Lemma parent_of_new (p n o : Obj) (ob : Object3D) (h : Store) :
  n <> p ->
  parent_of (Object3D_add p n (<[n := ob]> h)) o =
  if decide (o = n) then Some p else parent_of (<[n := ob]> h) o.
Proof.
  intros Hne. unfold Object3D_add. rewrite decide_False by exact Hne.
  rewrite lookup_insert_eq. unfold parent_of.
  destruct (decide (o = n)) as [->|Hon].
  - rewrite lookup_insert_eq. reflexivity.
  - rewrite lookup_insert_ne by auto. reflexivity.
Qed.

Lemma parent_of_insert_ne (n o : Obj) (ob : Object3D) (h : Store) :
  o <> n -> parent_of (<[n := ob]> h) o = parent_of h o.
Proof. intros H. unfold parent_of. rewrite lookup_insert_ne by auto. reflexivity. Qed.

(** ** [close] and [open] *)

Lemma close_unfold (s : Measure) : close s = closed s.
Proof. destruct s. reflexivity. Qed.

(** What [close] leaves in the scene was there before, and is none of
    the objects the tool holds. *)
Lemma close_objects_parent (s : Measure) (o : Obj) :
  parent_of (close_objects s) o = Some (scene s) ->
  parent_of (objects s) o = Some (scene s) /\
  tempPoints s <> Some o /\ tempLine s <> Some o /\
  tempLineForArea s <> Some o /\ points s <> Some o /\
  polyline s <> Some o /\ faces s <> Some o /\ curve s <> Some o /\
  helpLabel s <> Some o /\ tempLabel s <> Some o.
Proof.
  unfold close_objects. intros H.
  match type of H with
  | parent_of (match _ with Some _ => foldl _ ?h _ | None => _ end) _ = _ =>
    assert (H' : parent_of h o = Some (scene s))
      by (destruct (polyline s); [eapply remove_labels_parent, H|exact H])
  end.
  clear H.
  repeat match type of H' with
  | parent_of (remove_opt _ _ _) _ = _ =>
    apply parent_of_remove_opt in H';
    let H1 := fresh "N" in destruct H' as [H' H1];
    specialize (H1 eq_refl)
  end.
  tauto.
Qed.

Lemma close_objects_lookup (s : Measure) (o : Obj) :
  is_Some (close_objects s !! o) <-> is_Some (objects s !! o).
Proof.
  unfold close_objects.
  destruct (polyline s); [rewrite remove_labels_lookup|];
    rewrite !remove_opt_lookup_is_Some; reflexivity.
Qed.

Lemma closed_objects (s : Measure) :
  close_objects (closed s) =
  remove_opt (scene s) (curve s)
    (remove_opt (scene s) (faces s) (close_objects s)).
Proof. reflexivity. Qed.

Lemma closed_closed (s : Measure) : closed (closed s) = closed s.
Proof.
  assert (Ho : close_objects (closed s) = close_objects s).
  { rewrite closed_objects.
    rewrite (remove_opt_not_child _ (faces s)).
    - apply remove_opt_not_child.
      intros o Ho H. apply close_objects_parent in H. tauto.
    - intros o Ho H. apply close_objects_parent in H. tauto. }
  assert (Hl : close_listeners (close_listeners (listeners s))
               = close_listeners (listeners s)).
  { unfold close_listeners. rewrite !list_filter_filter.
    apply list_filter_iff. tauto. }
  unfold closed at 1. rewrite Ho.
  cbn [closed nextId scene console mode dragControls font mouseMoved
       isCompleted faces curve tempFontSize lastClickTime listeners].
  rewrite Hl. unfold closed. destruct (dragControls s); reflexivity.
Qed.

Lemma close_idempotent (s : Measure) : close (close s) = close s.
Proof. rewrite !close_unfold. apply closed_closed. Qed.

Lemma closed_set_mode_if (m : option MeasureMode) (s : Measure) :
  closed (set_mode_if m (closed s)) = closed (set_mode_if m s).
Proof.
  assert (H : set_mode_if m (closed s) = closed (set_mode_if m s))
    by (destruct m, s; reflexivity).
  rewrite H. apply closed_closed.
Qed.

Lemma close_set_mode_if (m : option MeasureMode) (s : Measure) :
  close (set_mode_if m (close s)) = close (set_mode_if m s).
Proof.
  rewrite (close_unfold s), (close_unfold (set_mode_if m (closed s))),
    (close_unfold (set_mode_if m s)).
  apply closed_set_mode_if.
Qed.

Lemma open_after_close (m : option MeasureMode) (s : Measure) :
  open m s = open m (close s).
Proof.
  change (start (close (set_mode_if m s)) =
          start (close (set_mode_if m (close s)))).
  rewrite close_set_mode_if. reflexivity.
Qed.

Lemma start_unfold (c : Measure) : start c = started c.
Proof. destruct c as [? ? ? ? ? ? md]. destruct md; reflexivity. Qed.

Lemma open_unfold (m : option MeasureMode) (s : Measure) :
  open m s = started (closed (set_mode_if m s)).
Proof.
  change (start (close (set_mode_if m s)) =
          started (closed (set_mode_if m s))).
  rewrite close_unfold. apply start_unfold.
Qed.

Lemma parent_of_remove_opt_iff (p : Obj) (c : option Obj) (o : Obj)
    (h : Store) :
  parent_of (remove_opt p c h) o = Some p <->
  parent_of h o = Some p /\ c <> Some o.
Proof.
  split.
  - intros H. apply parent_of_remove_opt in H. destruct H as [H1 H2]. auto.
  - intros [H1 H2]. rewrite parent_of_remove_opt_other by exact H2. exact H1.
Qed.

(** The scene after [start]: what was there, and the new objects. *)
Lemma started_parent (c : Measure) (o : Obj) :
  (scene c < nextId c)%nat ->
  parent_of (started_objects c) o = Some (scene c) <->
  parent_of (objects c) o = Some (scene c) \/ o = nextId c \/
  o = S (nextId c) \/ (mode c = Area /\ o = S (S (nextId c))).
Proof.
  intros Hlt. unfold started_objects.
  destruct (decide (mode c = Area)) as [Ha|Ha].
  - rewrite parent_of_new by lia.
    destruct (decide (o = S (S (nextId c)))) as [->|H2]; [tauto|].
    rewrite parent_of_insert_ne by exact H2. rewrite parent_of_new by lia.
    destruct (decide (o = S (nextId c))) as [->|H1]; [tauto|].
    rewrite parent_of_insert_ne by exact H1. rewrite parent_of_new by lia.
    destruct (decide (o = nextId c)) as [->|H0]; [tauto|].
    rewrite parent_of_insert_ne by exact H0. tauto.
  - rewrite parent_of_new by lia.
    destruct (decide (o = S (nextId c))) as [->|H1]; [tauto|].
    rewrite parent_of_insert_ne by exact H1. rewrite parent_of_new by lia.
    destruct (decide (o = nextId c)) as [->|H0]; [tauto|].
    rewrite parent_of_insert_ne by exact H0. tauto.
Qed.

Lemma session_object_started (c : Measure) (o : Obj) :
  session_object (started c) o <->
  o = nextId c \/ o = S (nextId c) \/
  (mode c = Area /\ o = S (S (nextId c))).
Proof.
  unfold session_object. cbn [started points polyline faces mode].
  destruct (decide (mode c = Area)) as [Ha|Ha]; intuition congruence.
Qed.

Lemma in_scene_started (c : Measure) (o : Obj) :
  (scene c < nextId c)%nat ->
  in_scene (started c) o <-> in_scene c o \/ session_object (started c) o.
Proof.
  intros Hlt. rewrite session_object_started. unfold in_scene.
  cbn [started objects scene]. apply started_parent, Hlt.
Qed.

(** The objects that [close] finds in a session just started. *)
Lemma close_objects_started (x : Measure) :
  close_objects (started (closed x)) =
  remove_opt (scene x) (curve x)
    (remove_opt (scene x) (faces (started (closed x)))
    (remove_opt (scene x) (Some (S (nextId x)))
    (remove_opt (scene x) (Some (nextId x))
       (started_objects (closed x))))).
Proof. reflexivity. Qed.

(** Closing a session just started restores the scene. *)
Lemma in_scene_closed_started (x : Measure) (o : Obj) :
  wf x ->
  in_scene (closed (started (closed x))) o <-> in_scene (closed x) o.
Proof.
  intros [Hlt Hdom]. unfold in_scene.
  change (objects (closed (started (closed x))))
    with (close_objects (started (closed x))).
  change (scene (closed (started (closed x)))) with (scene x).
  change (objects (closed x)) with (close_objects x).
  change (scene (closed x)) with (scene x).
  rewrite close_objects_started, !parent_of_remove_opt_iff.
  pose proof (started_parent (closed x) o Hlt) as Hs.
  change (scene (closed x)) with (scene x) in Hs.
  change (objects (closed x)) with (close_objects x) in Hs.
  change (nextId (closed x)) with (nextId x) in Hs.
  change (mode (closed x)) with (mode x) in Hs.
  rewrite Hs. clear Hs.
  change (faces (started (closed x)))
    with (if decide (mode x = Area) then Some (S (S (nextId x)))
          else faces x).
  split.
  - intros (((([H|[->|[->|[Ha ->]]]] & N0) & N1) & N2) & N3);
      try congruence.
    rewrite decide_True in N2 by exact Ha. congruence.
  - intros H.
    assert (Ho : (o < nextId x)%nat).
    { apply Hdom, close_objects_lookup, (parent_of_is_Some _ _ _ H). }
    pose proof (close_objects_parent x o H) as P.
    repeat split; [tauto|intros [= E]; lia|intros [= E]; lia| |tauto].
    destruct (decide (mode x = Area)); [intros [= E]; lia|tauto].
Qed.

Lemma set_mode_if_page (m : option MeasureMode) (s : Measure) :
  scene (set_mode_if m s) = scene s /\ nextId (set_mode_if m s) = nextId s /\
  objects (set_mode_if m s) = objects s /\
  close_objects (set_mode_if m s) = close_objects s.
Proof. destruct m; repeat split. Qed.

Lemma wf_set_mode_if (m : option MeasureMode) (s : Measure) :
  wf s -> wf (set_mode_if m s).
Proof.
  destruct (set_mode_if_page m s) as (A & B & C & _).
  unfold wf. rewrite A, B, C. auto.
Qed.

Lemma in_scene_closed_set_mode_if (m : option MeasureMode) (s : Measure)
    (o : Obj) :
  in_scene (closed (set_mode_if m s)) o <-> in_scene (closed s) o.
Proof.
  destruct (set_mode_if_page m s) as (A & _ & _ & D).
  unfold in_scene. cbn [closed objects scene]. rewrite A, D. reflexivity.
Qed.

(** After [open] the scene holds what [close] left and the objects of
    the new session. *)
Lemma in_scene_open (m : option MeasureMode) (s : Measure) (o : Obj) :
  (scene s < nextId s)%nat ->
  in_scene (open m s) o <-> in_scene (close s) o \/ session_object (open m s) o.
Proof.
  intros Hlt. rewrite (open_unfold m s), (close_unfold s).
  rewrite in_scene_started, (in_scene_closed_set_mode_if m s o);
    [reflexivity|].
  cbn [closed scene nextId].
  destruct (set_mode_if_page m s) as (A & B & _). rewrite A, B. exact Hlt.
Qed.

(** [close] after [open] leaves the scene that [close] alone leaves. *)
Lemma in_scene_close_open (m : option MeasureMode) (s : Measure) (o : Obj) :
  wf s -> in_scene (close (open m s)) o <-> in_scene (close s) o.
Proof.
  intros Hwf. rewrite (open_unfold m s), (close_unfold s),
    (close_unfold (started (closed (set_mode_if m s)))).
  rewrite in_scene_closed_started by (apply wf_set_mode_if, Hwf).
  apply in_scene_closed_set_mode_if.
Qed.

Lemma open_page (m : option MeasureMode) (s : Measure) :
  scene (open m s) = scene s /\ (nextId s + 2 <= nextId (open m s))%nat /\
  (mode (open m s) = Area -> (nextId s + 3 <= nextId (open m s))%nat).
Proof.
  rewrite (open_unfold m s). cbn [started closed scene nextId mode].
  destruct (set_mode_if_page m s) as (A & B & _). rewrite A, B.
  destruct (decide (mode (set_mode_if m s) = Area)); repeat split; try lia.
  contradiction.
Qed.

Lemma session_object_open (m : option MeasureMode) (s : Measure) (o : Obj) :
  session_object (open m s) o <->
  o = nextId s \/ o = S (nextId s) \/
  (mode (open m s) = Area /\ o = S (S (nextId s))).
Proof.
  rewrite (open_unfold m s), session_object_started.
  cbn [started closed nextId mode].
  destruct (set_mode_if_page m s) as (_ & B & _). rewrite B. reflexivity.
Qed.

Lemma in_scene_close_old (s : Measure) (o : Obj) :
  wf s -> in_scene (close s) o -> (o < nextId s)%nat.
Proof.
  intros [_ Hdom]. rewrite (close_unfold s). unfold in_scene.
  cbn [closed objects scene]. intros H.
  apply Hdom, close_objects_lookup, (parent_of_is_Some _ _ _ H).
Qed.

(** C6: [open] closes first, so opening over a session is opening over
    the closed tool; closing twice is closing once; and after two calls
    of [open] the scene holds, next to what [close] leaves, the objects
    of the second session and none of the first. *)
Theorem open_closes_first (s : Measure) (m1 m2 : option MeasureMode) :
  wf s ->
  open m1 s = open m1 (close s) /\ close (close s) = close s /\
  let s1 := open m1 s in
  let s2 := open m2 s1 in
  (forall o, in_scene s1 o <-> in_scene (close s) o \/ session_object s1 o) /\
  (forall o, in_scene s2 o <-> in_scene (close s) o \/ session_object s2 o) /\
  (forall o, session_object s1 o -> ~ in_scene s2 o).
Proof.
  intros Hwf. split; [apply open_after_close|].
  split; [apply close_idempotent|].
  intros s1 s2.
  destruct (open_page m1 s) as (Hsc & Hn2 & Hn3).
  pose proof Hwf as [Hlt _].
  assert (H1 : forall o,
             in_scene s1 o <-> in_scene (close s) o \/ session_object s1 o)
    by exact (fun o => in_scene_open m1 s o Hlt).
  assert (H2 : forall o,
             in_scene s2 o <-> in_scene (close s) o \/ session_object s2 o).
  { intros o. unfold s2.
    rewrite (in_scene_open m2 s1 o) by (unfold s1; lia).
    unfold s1. rewrite (in_scene_close_open m1 s o Hwf). reflexivity. }
  split; [exact H1|]. split; [exact H2|].
  intros o Ho Hin. apply H2 in Hin.
  apply session_object_open in Ho.
  destruct Hin as [Hin|Hin].
  - apply (in_scene_close_old s o Hwf) in Hin. lia.
  - apply session_object_open in Hin. fold s1 in Hn2, Hn3, Ho.
    destruct Ho as [Ho|[Ho|[Ha Ho]]]; [| |specialize (Hn3 Ha)];
      destruct Hin as [E|[E|[_ E]]]; lia.
Qed.

(** ** The id counter stays ahead of the page *)

Create HintDb page.

(** A statement that leaves the scene, the counter and the objects
    alone. *)
Lemma wf_same_page (f : Measure -> Measure) (s : Measure) :
  (forall x, scene (f x) = scene x /\ nextId (f x) = nextId x /\
             objects (f x) = objects x) ->
  wf s -> wf (f s).
Proof.
  intros Hf (H1 & H2). destruct (Hf s) as (A & B & C).
  unfold wf. rewrite A, B, C. auto.
Qed.

#[local] Hint Extern 5 (wf (?f ?s)) =>
  (refine (wf_same_page f s _ _); [solve [intro; repeat split]|]) : page.

(** A statement that changes objects without creating any. *)
Lemma wf_set_objects (h : Store) (s : Measure) :
  (forall o, is_Some (h !! o) -> is_Some (objects s !! o)) ->
  wf s -> wf (set_objects h s).
Proof.
  intros Hh (H1 & H2). split; [exact H1|]. intros o Ho. apply H2, Hh, Ho.
Qed.

Lemma add_lookup_is_Some (p c o : Obj) (h : Store) :
  is_Some (Object3D_add p c h !! o) <-> is_Some (h !! o).
Proof.
  unfold Object3D_add. case_decide; [reflexivity|].
  destruct (h !! c) as [oc|] eqn:Hc; [|reflexivity].
  destruct (decide (o = c)) as [->|Hne].
  - rewrite lookup_insert_eq, Hc. split; eauto.
  - rewrite lookup_insert_ne by auto. reflexivity.
Qed.

Lemma wf_scene_remove (c : option Obj) (s : Measure) :
  wf s -> wf (scene_remove c s).
Proof.
  intros H. apply wf_set_objects; [|exact H].
  intros o. apply remove_opt_lookup_is_Some.
Qed.

Lemma wf_remove_from_scene (x : Measure -> option Obj) (s : Measure) :
  wf s -> wf (remove_from_scene x s).
Proof. apply wf_scene_remove. Qed.

Lemma wf_scene_add (c : Obj) (s : Measure) : wf s -> wf (scene_add c s).
Proof.
  intros H. apply wf_set_objects; [|exact H].
  intros o. apply add_lookup_is_Some.
Qed.

Lemma wf_update_object (o : Obj) (f : Object3D -> Object3D) (s : Measure) :
  wf s -> wf (update_object o f s).
Proof.
  intros H. apply wf_set_objects; [|exact H].
  intros o'. destruct (decide (o' = o)) as [->|Hne].
  - rewrite lookup_alter_eq. apply fmap_is_Some.
  - rewrite lookup_alter_ne by auto. auto.
Qed.

Lemma wf_remove_line_labels (s : Measure) :
  wf s -> wf (remove_line_labels s).
Proof.
  intros H. apply wf_set_objects; [|exact H].
  intros o. destruct (polyline s); [apply remove_labels_lookup|auto].
Qed.

Lemma wf_new_object (o : Object3D) (s : Measure) :
  wf s -> wf (new_object o s).2.
Proof.
  intros (H1 & H2). split; simpl; [lia|].
  intros o' Ho. destruct (decide (o' = nextId s)) as [->|Hne]; [lia|].
  rewrite lookup_insert_ne in Ho by auto. apply H2 in Ho. lia.
Qed.

#[local] Hint Resolve wf_scene_remove wf_remove_from_scene wf_scene_add
  wf_update_object wf_remove_line_labels : page.

(** The constructors of objects allocate through [new_object]. *)
Lemma wf_createHelper (l : LabelText) (s : Measure) :
  wf s -> wf (createHelper l s).2.
Proof. apply wf_new_object. Qed.

Lemma wf_createPoints (n : nat) (s : Measure) :
  wf s -> wf (createPoints n s).2.
Proof. apply wf_new_object. Qed.

Lemma wf_createLine (n : nat) (s : Measure) : wf s -> wf (createLine n s).2.
Proof. apply wf_new_object. Qed.

Lemma wf_createFaces (s : Measure) : wf s -> wf (createFaces s).2.
Proof. apply wf_new_object. Qed.

Lemma wf_createCurve (p0 p1 p2 : Vec3) (s : Measure) :
  wf s -> wf (createCurve p0 p1 p2 s).2.
Proof. apply wf_new_object. Qed.

Lemma wf_addHelpLabel (l : LabelText) (p : Vec3) (s : Measure) :
  wf s -> wf (addHelpLabel l p s).
Proof.
  intros H. unfold addHelpLabel. destruct (helpLabel s) eqn:E.
  - rewrite E. auto with page.
  - pose proof (wf_createHelper l s H) as H'.
    destruct (createHelper l s) as [x s']. simpl in H'. simpl.
    auto 10 with page.
Qed.

Lemma wf_addOrUpdateLabel (o : Obj) (l : LabelText) (p d : Vec3)
    (x : number) (s : Measure) :
  wf s -> wf (addOrUpdateLabel o l p d x s).
Proof.
  intros H. unfold addOrUpdateLabel.
  destruct (negb (font s)); [auto with page|].
  pose proof (wf_createHelper l _ (wf_scene_remove (tempLabel s) s H)) as H'.
  destruct (createHelper l (scene_remove (tempLabel s) s)) as [y s'].
  simpl in H'. auto 10 with page.
Qed.

#[local] Hint Resolve wf_addHelpLabel wf_addOrUpdateLabel : page.

Lemma wf_close (s : Measure) : wf s -> wf (close s).
Proof. intros H. unfold close. auto 40 with page. Qed.

Lemma wf_open_points (s : Measure) : wf s -> wf (open_points s).
Proof.
  intros H. unfold open_points.
  pose proof (wf_createPoints MAX_POINTS s H) as H'.
  destruct (createPoints MAX_POINTS s) as [x s']. simpl in H'.
  auto with page.
Qed.

Lemma wf_open_polyline (s : Measure) : wf s -> wf (open_polyline s).
Proof.
  intros H. unfold open_polyline.
  pose proof (wf_createLine MAX_POINTS s H) as H'.
  destruct (createLine MAX_POINTS s) as [x s']. simpl in H'.
  auto with page.
Qed.

Lemma wf_open_faces (s : Measure) : wf s -> wf (open_faces s).
Proof.
  intros H. unfold open_faces. case_decide; [|exact H].
  pose proof (wf_createFaces s H) as H'.
  destruct (createFaces s) as [x s']. simpl in H'.
  auto with page.
Qed.

#[local] Hint Resolve wf_close wf_open_points wf_open_polyline
  wf_open_faces wf_set_mode_if : page.

Lemma wf_start (s : Measure) : wf s -> wf (start s).
Proof. intros H. unfold start. auto 40 with page. Qed.

Lemma wf_open (m : option MeasureMode) (s : Measure) :
  wf s -> wf (open m s).
Proof. intros H. unfold open. auto using wf_start with page. Qed.

Lemma wf_write_vertex (line : Obj) (i : nat) (p : Vec3) (s : Measure) :
  wf s -> wf (write_vertex line i p s).
Proof. apply wf_update_object. Qed.

Lemma wf_setDrawRange (line : Obj) (n : nat) (s : Measure) :
  wf s -> wf (setDrawRange line n s).
Proof. apply wf_update_object. Qed.

#[local] Hint Resolve wf_write_vertex wf_setDrawRange : page.

Lemma wf_close_loop (line : Obj) (n : nat) (p : Vec3) (s : Measure) :
  wf s -> wf (close_loop line n p s).
Proof. intros H. unfold close_loop. case_match; auto with page. Qed.

#[local] Hint Resolve wf_close_loop : page.

Lemma wf_label_area (line : Obj) (n : nat) (s : Measure) :
  wf s -> wf (label_area line n s).
Proof. intros H. unfold label_area. auto with page. Qed.

Lemma wf_label_angle (line : Obj) (s : Measure) :
  wf s -> wf (label_angle line s).
Proof.
  intros H. unfold label_angle.
  match goal with
  | |- context [addOrUpdateLabel ?a ?b ?c ?d ?e s] =>
    assert (H' : wf (addOrUpdateLabel a b c d e s)) by auto with page;
    generalize dependent (addOrUpdateLabel a b c d e s)
  end.
  intros s' H'.
  match goal with
  | |- context [createCurve ?a ?b ?c s'] =>
    pose proof (wf_createCurve a b c s' H') as H'';
    destruct (createCurve a b c s') as [x s'']
  end.
  simpl in H''. auto with page.
Qed.

#[local] Hint Resolve wf_label_area wf_label_angle : page.

Lemma wf_complete_area (l : Locals) :
  wf (this l) -> wf (this (complete_area l)).
Proof.
  intros H. unfold complete_area. repeat case_match; simpl; auto with page.
Qed.

Lemma wf_complete_distance (l : Locals) :
  wf (this l) -> wf (this (complete_distance l)).
Proof.
  intros H. unfold complete_distance. repeat case_match; simpl; auto with page.
Qed.

Lemma wf_complete_angle (l : Locals) :
  wf (this l) -> wf (this (complete_angle l)).
Proof.
  intros H. unfold complete_angle. repeat case_match; simpl; auto with page.
Qed.

Lemma wf_clear_invalid (l : Locals) : wf (this l) -> wf (clear_invalid l).
Proof.
  intros H. unfold clear_invalid. repeat case_match; auto 10 with page.
Qed.

Lemma wf_make_draggable (s : Measure) : wf s -> wf (make_draggable s).
Proof.
  intros H. unfold make_draggable.
  destruct (polyline s) as [line|]; [|exact H].
  generalize (traverse (nextId s) (nextId s) (objects s) line). intros l.
  revert s H. induction l as [|x l IH]; intros s H; [exact H|].
  simpl. apply IH. case_decide; auto with page.
Qed.

Lemma wf_remove_temp_line (s : Measure) : wf s -> wf (remove_temp_line s).
Proof.
  intros H. unfold remove_temp_line. repeat case_match; auto with page.
Qed.

#[local] Hint Resolve wf_complete_area wf_complete_distance
  wf_complete_angle wf_clear_invalid wf_make_draggable
  wf_remove_temp_line : page.

Lemma wf_complete (s : Measure) : wf s -> wf (complete s).
Proof.
  intros H. unfold complete. destruct (isCompleted s); [exact H|].
  auto 20 with page.
Qed.

Lemma wf_move_help (l : LabelText) (p : Vec3) (s : Measure) :
  wf s -> wf (move_help l p s).
Proof. apply wf_addHelpLabel. Qed.

Lemma wf_move_point (s : Measure) : wf s -> wf (move_point s).
Proof.
  intros H. unfold move_point. destruct (tempPoints s); [exact H|].
  pose proof (wf_createPoints 1 s H) as H'.
  destruct (createPoints 1 s) as [x s']. simpl in H'. auto with page.
Qed.

Lemma wf_tempLine_or_new (s : Measure) : wf s -> wf (tempLine_or_new s).2.
Proof.
  intros H. unfold tempLine_or_new.
  destruct (tempLine s); [exact H|apply wf_createLine, H].
Qed.

Lemma wf_move_first_point (s : Measure) : wf s -> wf (move_first_point s).
Proof.
  intros H. unfold move_first_point. case_match; [|exact H].
  pose proof (wf_tempLine_or_new s H) as H'.
  destruct (tempLine_or_new s) as [line s']. simpl in H'.
  case_match; auto with page.
Qed.

Lemma wf_move_segment (line : Obj) (p0 p : Vec3) (s : Measure) :
  wf s -> wf (move_segment line p0 p s).
Proof. intros H. unfold move_segment. case_match; auto 10 with page. Qed.

Lemma wf_move_distance_label (line : Obj) (p0 p : Vec3) (s : Measure) :
  wf s -> wf (move_distance_label line p0 p s).
Proof.
  intros H. unfold move_distance_label. case_decide; auto with page.
Qed.

Lemma wf_keep_temp_line (line : Obj) (s : Measure) :
  wf s -> wf (keep_temp_line line s).
Proof.
  intros H. unfold keep_temp_line. destruct (tempLine s); auto with page.
Qed.

#[local] Hint Resolve wf_move_help wf_move_point wf_move_first_point
  wf_move_segment wf_move_distance_label wf_keep_temp_line : page.

Lemma wf_move_line (p : Vec3) (s : Measure) : wf s -> wf (move_line p s).
Proof.
  intros H. unfold move_line. case_match; [|exact H].
  pose proof (wf_tempLine_or_new _ (wf_move_help help_finish p s H)) as H'.
  destruct (tempLine_or_new (move_help help_finish p s)) as [line s'].
  simpl in H'. auto with page.
Qed.

Lemma wf_mousemove (e : Event) (s : Measure) : wf s -> wf (mousemove e s).
Proof.
  intros H. unfold mousemove.
  destruct (getClosestIntersection e (set_mouseMoved true s)); [|exact H].
  apply wf_move_line. auto 10 with page.
Qed.

Lemma wf_keep_label (line : Obj) (s : Measure) :
  wf s -> wf (keep_label line s).
Proof.
  intros H. unfold keep_label. destruct (tempLabel s); [|exact H].
  apply wf_set_objects; [|exact H]. intros o. apply add_lookup_is_Some.
Qed.

Lemma wf_settle_fontSize (s : Measure) : wf s -> wf (settle_fontSize s).
Proof. intros H. unfold settle_fontSize. case_match; exact H. Qed.

#[local] Hint Resolve wf_keep_label wf_settle_fontSize : page.

Lemma wf_click_polyline (p : Vec3) (s : Measure) :
  wf s -> wf (click_polyline p s).
Proof.
  intros H. unfold click_polyline. repeat case_match; auto 10 with page.
Qed.

Lemma wf_click_faces (p : Vec3) (s : Measure) :
  wf s -> wf (click_faces p s).
Proof.
  intros H. unfold click_faces. repeat case_match; auto with page.
Qed.

Lemma wf_onMouseClicked (e : Event) (s : Measure) :
  wf s -> wf (onMouseClicked e s).
Proof.
  intros H. unfold onMouseClicked. repeat case_match; try exact H.
  unfold auto_complete. case_match; [apply wf_complete|];
    unfold push_point; auto using wf_click_polyline, wf_click_faces with page.
Qed.

Lemma wf_call (h : Handler) (e : Event) (s : Measure) :
  wf s -> wf (call h e s).
Proof.
  intros H. destruct h; unfold call.
  - exact H.
  - apply wf_mousemove, H.
  - unfold mouseup. case_match; [apply wf_onMouseClicked|]; exact H.
  - apply wf_complete, H.
  - unfold keydown, cancel. repeat case_decide;
      auto using wf_complete with page.
Qed.

Lemma wf_dispatch (t : Target) (type : string) (e : Event) (s : Measure) :
  wf s -> wf (dispatch t type e s).
Proof.
  unfold dispatch.
  generalize (filter (fun l => l_target l = t /\ l_type l = type)
                     (listeners s)).
  intros ls. revert s. induction ls as [|l ls IH]; intros s H; [exact H|].
  cbn [foldl]. apply IH, wf_call, H.
Qed.

Lemma wf_step (a : Action) (s : Measure) : wf s -> wf (step a s).
Proof.
  intros H. destruct a as [[m| | |]|t type e|]; unfold step, invoke.
  - apply wf_open, H.
  - apply wf_close, H.
  - apply wf_close, H.
  - apply wf_complete, H.
  - apply wf_dispatch, H.
  - exact H.
Qed.

(** Whatever the host and the browser do, the id counter stays ahead of
    the scene and of every object: new objects are the only new keys of
    the store. *)
Lemma wf_run (acts : list Action) (s : Measure) : wf s -> wf (run acts s).
Proof.
  unfold run. revert s.
  induction acts as [|a acts IH]; intros s H; [exact H|].
  cbn [foldl]. apply IH, wf_step, H.
Qed.

(** ** Where the code departs from the specification *)

(** C1 (the code at the failing input): in Distance mode, 100 accepted
    clicks fill the point list to [MAX_POINTS]; the 101st logs the error
    and leaves every object as it was, and is recorded all the same. *)
Theorem capacity_exceeded :
  let s100 := run (Call (Open (Some Distance)) :: clicks 100) tool in
  let s101 := run (click (at_ 101 0 0 101000)) s100 in
  List.length (pointArray s100) = MAX_POINTS /\
  console s101 = console s100 ++
    [console_error
       "Failed to get attributes.position, or number of points exceeded MAX_POINTS!"] /\
  objects s101 = objects s100 /\
  List.length (pointArray s101) = S MAX_POINTS.
Proof. vm_compute. repeat split. Qed.

(** C2 (the code at the failing input): in Distance mode, [complete]
    with no point or with one point removes the point cloud and the
    temporary label, and leaves the polyline in the scene. *)
Theorem distance_polyline_stays :
  let s0 := run [Call (Open (Some Distance)); Call Complete] tool in
  let s1 :=
    run ([Call (Open (Some Distance)); FontLoaded]
           ++ click (at_ 1 0 0 1000)
           ++ [Dispatch Canvas "mousemove" (at_ 2 0 0 2000); Call Complete])
        tool in
  (pointArray s0 = [] /\ isCompleted s0 = true /\ points s0 = None /\
   polyline s0 = Some 3%nat /\ in_scene s0 3%nat) /\
  (List.length (pointArray s1) = 1%nat /\ isCompleted s1 = true /\
   points s1 = None /\ polyline s1 = Some 3%nat /\ in_scene s1 3%nat /\
   tempLabel s1 = Some 7%nat /\ parent_of (objects s1) 7%nat = None).
Proof. vm_compute. repeat split. Qed.

(** C3 (the code at the failing input): in Area mode, [complete] with
    no point or with two points removes the point cloud and the
    polyline, and leaves the faces object in the scene. *)
Theorem area_faces_stay :
  let s0 := run [Call (Open (Some Area)); Call Complete] tool in
  let s2 :=
    run (Call (Open (Some Area)) :: clicks 2 ++ [Call Complete]) tool in
  (pointArray s0 = [] /\ isCompleted s0 = true /\ points s0 = None /\
   polyline s0 = None /\ faces s0 = Some 4%nat /\ in_scene s0 4%nat) /\
  (List.length (pointArray s2) = 2%nat /\ isCompleted s2 = true /\
   points s2 = None /\ polyline s2 = None /\ faces s2 = Some 4%nat /\
   in_scene s2 4%nat).
Proof. vm_compute. repeat split. Qed.

Lemma contextmenu_started (ls : list Listener) :
  Build_Listener Canvas "contextmenu" H_dblclick ∈ started_listeners ls.
Proof.
  unfold started_listeners.
  assert (Hadd : forall l l' ls', l ∈ ls' -> l ∈ add_listener l' ls').
  { intros l l' ls' H. unfold add_listener. case_decide; [exact H|].
    apply elem_of_app. left. exact H. }
  apply Hadd. unfold add_listener at 1. case_decide; [assumption|].
  apply elem_of_app. right. apply list_elem_of_singleton. reflexivity.
Qed.

Lemma contextmenu_closed (ls : list Listener) :
  Build_Listener Canvas "contextmenu" H_dblclick ∈ ls ->
  Build_Listener Canvas "contextmenu" H_dblclick ∈ close_listeners ls.
Proof.
  intros H. unfold close_listeners.
  repeat (apply list_elem_of_filter; split; [discriminate|]). exact H.
Qed.

(** C4 (the code at the failing input): whatever the state, the
    listener [open] registers for ['contextmenu'] is still registered
    after [close]; on the tool opened and closed, a ['contextmenu']
    event then runs [complete]. *)
Theorem contextmenu_listener_survives_close :
  (forall (m : option MeasureMode) (s : Measure),
     Build_Listener Canvas "contextmenu" H_dblclick
       ∈ listeners (close (open m s))) /\
  let s := close (open (Some Distance) tool) in
  listeners s = [Build_Listener Canvas "contextmenu" H_dblclick] /\
  isCompleted s = false /\
  isCompleted (dispatch Canvas "contextmenu" (at_ 0 0 0 1000) s) = true.
Proof.
  split; [|vm_compute; repeat split].
  intros m s.
  rewrite (open_unfold m s),
    (close_unfold (started (closed (set_mode_if m s)))).
  cbn [closed started listeners].
  apply contextmenu_closed, contextmenu_started.
Qed.

(** ** The tool on a concrete page *)

Lemma wf_constructor (h : Store) (next scene : Obj) (m : MeasureMode) :
  (scene < next)%nat -> (forall o, is_Some (h !! o) -> (o < next)%nat) ->
  wf (constructor h next scene m).
Proof. intros H1 H2. split; assumption. Qed.

Lemma wf_tool : wf tool.
Proof.
  apply wf_constructor; [lia|]. intros o [x Hx]. unfold page in Hx.
  apply lookup_insert_Some in Hx.
  destruct Hx as [[<- _]|[_ Hx]]; [lia|].
  apply lookup_singleton_Some in Hx. destruct Hx as [<- _]. lia.
Qed.

(** Every state the tool reaches on this page is well formed. *)
Lemma wf_tool_run (acts : list Action) : wf (run acts tool).
Proof. apply wf_run, wf_tool. Qed.


Lemma open_closes_first_witness :
  wf tool /\ close (close tool) = close tool /\
  ~ in_scene (open (Some Distance) (open (Some Area) tool)) 4%nat.
Proof.
  split; [exact wf_tool|].
  pose proof (open_closes_first tool (Some Area) (Some Distance) wf_tool)
    as H.
  cbv zeta in H. destruct H as (_ & H2 & _ & _ & H5).
  split; [exact H2|]. refine (H5 4%nat _). right. right.
  split; vm_compute; reflexivity.
Defined.

Lemma accepted_click_guards_window_witness :
  lastClickTime
    (run [Dispatch Canvas "mousedown" (at_ 2 0 0 1100);
          Dispatch Canvas "mousemove" (at_ 2 0 0 1150);
          Call Close; Call (Open (Some Area));
          Dispatch Canvas "mousedown" (at_ 3 0 0 1200)]
       (onMouseClicked (at_ 1 0 0 1000) (open (Some Distance) tool)))
  = Some (now (at_ 1 0 0 1000)) /\
  onMouseClicked (at_ 5 5 5 1400)
    (run [Dispatch Canvas "mousedown" (at_ 2 0 0 1100);
          Dispatch Canvas "mousemove" (at_ 2 0 0 1150);
          Call Close; Call (Open (Some Area));
          Dispatch Canvas "mousedown" (at_ 3 0 0 1200)]
       (onMouseClicked (at_ 1 0 0 1000) (open (Some Distance) tool)))
  = run [Dispatch Canvas "mousedown" (at_ 2 0 0 1100);
         Dispatch Canvas "mousemove" (at_ 2 0 0 1150);
         Call Close; Call (Open (Some Area));
         Dispatch Canvas "mousedown" (at_ 3 0 0 1200)]
      (onMouseClicked (at_ 1 0 0 1000) (open (Some Distance) tool)).
Proof.
  pose proof (accepted_click_guards_window (open (Some Distance) tool)
                [Dispatch Canvas "mousedown" (at_ 2 0 0 1100);
                 Dispatch Canvas "mousemove" (at_ 2 0 0 1150);
                 Call Close; Call (Open (Some Area));
                 Dispatch Canvas "mousedown" (at_ 3 0 0 1200)]
                (Some Area) (at_ 1 0 0 1000) (at_ 5 5 5 1400)) as H.
  cbv zeta in H.
  assert (H1 : pointArray (onMouseClicked (at_ 1 0 0 1000)
                             (open (Some Distance) tool))
               <> pointArray (open (Some Distance) tool))
    by (vm_compute; discriminate).
  assert (H2 : now (at_ 1 0 0 1000) <> 0) by (vm_compute; discriminate).
  assert (H3 : Forall (within (now (at_ 1 0 0 1000)))
                 [Dispatch Canvas "mousedown" (at_ 2 0 0 1100);
                  Dispatch Canvas "mousemove" (at_ 2 0 0 1150);
                  Call Close; Call (Open (Some Area));
                  Dispatch Canvas "mousedown" (at_ 3 0 0 1200)])
    by (repeat constructor; vm_compute; reflexivity).
  assert (H4 : now (at_ 5 5 5 1400) - now (at_ 1 0 0 1000) < 500)
    by (vm_compute; reflexivity).
  destruct (H H1 H2 H3 H4) as (Ha & _ & Hr & _). split; [exact Ha|exact Hr].
Defined.

(** * The rest of the class *)

(** ** Numeric helpers at their edges *)

Lemma add_comm (x y : number) : add x y = add y x.
Proof.
  unfold add, SFadd.
  destruct x as [sx|sx| |sx mx ex], y as [sy|sy| |sy my ey];
    try reflexivity; try (destruct sx, sy; reflexivity).
  rewrite (Z.min_comm ex ey), Z.add_comm. reflexivity.
Qed.

(** [getAngleBisector(p0, p1, p2)] and [getAngleBisector(p2, p1, p0)]
    are the same vector, bit for bit. *)
Theorem getAngleBisector_swap (p0 p1 p2 : Vec3) :
  getAngleBisector p0 p1 p2 = getAngleBisector p2 p1 p0.
Proof.
  unfold getAngleBisector.
  match goal with
  | |- Vector3.normalize (Vector3.mk (add ?a ?b) (add ?c ?d) (add ?e ?f)) = _ =>
    rewrite (add_comm a b), (add_comm c d), (add_comm e f)
  end.
  reflexivity.
Qed.

(** [calculateArea] of fewer than three points is 0: the loop body
    never runs. *)
Theorem calculateArea_few (points : list Vec3) :
  (List.length points < 3)%nat -> calculateArea points = zero.
Proof.
  intros H. destruct points as [|a [|b [|c l]]]; try reflexivity.
  simpl in H. lia.
Qed.

Lemma calculateArea_few_witness :
  calculateArea [vec 0 0 0; vec 1 0 0] = zero.
Proof. apply calculateArea_few. simpl. lia. Defined.

Lemma lit_1_4_positive (n : number) :
  leb n zero = true -> ltb n (lit 1 4) = true.
Proof.
  rewrite lit_1_4.
  destruct n as [[]|[]| |[] m e]; reflexivity || discriminate.
Qed.

(** A number that is zero or negative is below 0.0001, so
    [numberToString] renders it by the default conversion, never by
    [toFixed]. *)
Theorem numberToString_nonpositive (n : number) :
  leb n zero = true -> numberToString n = DefaultString n.
Proof.
  intros H. unfold numberToString. rewrite (lit_1_4_positive n H).
  reflexivity.
Qed.

Lemma numberToString_nonpositive_witness :
  numberToString (of_Z (-5)) = DefaultString (of_Z (-5)).
Proof. apply numberToString_nonpositive. vm_compute. reflexivity. Defined.

(** ** The hit test *)

Lemma filter_cons_inv {A} (P : A -> Prop) `{Hdec : !forall x, Decision (P x)}
    (l : list A) (x : A) (rest : list A) :
  filter P l = x :: rest <->
  exists pre post, l = pre ++ x :: post /\ Forall (fun y => ~ P y) pre /\
                   P x /\ rest = filter P post.
Proof.
  induction l as [|a l IH].
  - split; [discriminate|]. intros (pre & post & H & _).
    destruct pre; discriminate.
  - rewrite filter_cons. destruct (decide (P a)) as [Ha|Ha].
    + split.
      * intros [= -> <-]. exists [], l. repeat split; auto.
      * intros (pre & post & H & Hpre & Hx & ->).
        destruct pre as [|b pre]; simpl in H.
        -- injection H as -> ->. reflexivity.
        -- injection H as -> ->. inversion Hpre; contradiction.
    + rewrite IH. split.
      * intros (pre & post & -> & Hpre & Hx & ->).
        exists (a :: pre), post. repeat split; auto.
      * intros (pre & post & H & Hpre & Hx & ->).
        destruct pre as [|b pre]; simpl in H.
        -- injection H as -> ->. contradiction.
        -- injection H as -> ->. exists pre, post.
           inversion Hpre; subst. repeat split; auto.
Qed.

(** [getClosestIntersection] returns a point exactly when the raycaster
    exists, the session is not completed, and the nearest hit that is
    not on an object named [OBJ_NAME] is closer than [MAX_DISTANCE];
    the point is that hit's.  A farther hit never stands in for a
    nearest one that is too far away. *)
Theorem getClosestIntersection_Some (e : Event) (s : Measure) (p : Vec3) :
  getClosestIntersection e s = Some p <->
  raycaster s = true /\ isCompleted s = false /\
  exists pre item post,
    hits e = pre ++ item :: post /\
    Forall (fun i => name_of (objects s) (object i) = OBJ_NAME) pre /\
    name_of (objects s) (object item) <> OBJ_NAME /\
    ltb (distance item) MAX_DISTANCE = true /\ point item = p.
Proof.
  unfold getClosestIntersection.
  destruct (raycaster s), (isCompleted s); simpl;
    try (split; [discriminate|intros (? & ? & _); discriminate]).
  destruct (filter _ (hits e)) as [|item rest] eqn:E.
  - split; [discriminate|].
    intros (_ & _ & pre & item & post & H & Hpre & Hi & Hd & Hp).
    assert (E' : filter (fun item => name_of (objects s) (object item) <> OBJ_NAME)
                   (hits e) =
                 item :: filter (fun item => name_of (objects s) (object item) <> OBJ_NAME) post).
    { apply filter_cons_inv. exists pre, post. repeat split; auto.
      eapply Forall_impl; [exact Hpre|]. simpl. intros i Hn Hc. auto. }
    rewrite E in E'. discriminate.
  - apply filter_cons_inv in E. destruct E as (pre & post & H & Hpre & Hi & _).
    assert (Hpre' : Forall (fun i => name_of (objects s) (object i) = OBJ_NAME) pre).
    { eapply Forall_impl; [exact Hpre|]. simpl. intros i Hn.
      destruct (decide (name_of (objects s) (object i) = OBJ_NAME)); [auto|].
      contradiction. }
    split.
    + destruct (ltb (distance item) MAX_DISTANCE) eqn:Hd; [|discriminate].
      intros [= <-]. repeat split; auto. exists pre, item, post. auto.
    + intros (_ & _ & pre' & item' & post' & H' & Hp1 & Hi' & Hd & Hp).
      assert (E' : filter (fun item => name_of (objects s) (object item) <> OBJ_NAME)
                     (hits e) =
                   item' :: filter (fun item => name_of (objects s) (object item) <> OBJ_NAME) post').
      { apply filter_cons_inv. exists pre', post'. repeat split; auto.
        eapply Forall_impl; [exact Hp1|]. simpl. intros i Hn Hc. auto. }
      assert (E'' : filter (fun item => name_of (objects s) (object item) <> OBJ_NAME)
                     (hits e) =
                   item :: filter (fun item => name_of (objects s) (object item) <> OBJ_NAME) post).
      { apply filter_cons_inv. exists pre, post. repeat split; auto. }
      rewrite E' in E''. injection E'' as -> _. rewrite Hd, Hp. reflexivity.
Qed.

(** ** What the handlers leave alone *)

Section Keeps.

(** A part of the state that the statements on the page (objects, id
    counter, console) do not assign. *)
Context {A : Type} (part : Measure -> A).
Hypothesis part_objects : forall v, keeps part (set_objects v).
Hypothesis part_nextId : forall v, keeps part (set_nextId v).
Hypothesis part_console : forall v, keeps part (set_console v).

Lemma keeps_scene_add (c : Obj) : keeps part (scene_add c).
Proof. intros s. apply part_objects. Qed.

Lemma keeps_scene_remove (c : option Obj) : keeps part (scene_remove c).
Proof. intros s. apply part_objects. Qed.

Lemma keeps_remove_from_scene (x : Measure -> option Obj) :
  keeps part (remove_from_scene x).
Proof. intros s. apply part_objects. Qed.

Lemma keeps_update_object (o : Obj) (f : Object3D -> Object3D) :
  keeps part (update_object o f).
Proof. intros s. apply part_objects. Qed.

Lemma keeps_log (e : LogEntry) : keeps part (log e).
Proof. intros s. apply part_console. Qed.

Lemma keeps_new_object (o : Object3D) (s : Measure) :
  part (new_object o s).2 = part s.
Proof. unfold new_object. simpl. rewrite part_nextId. apply part_objects. Qed.

Lemma keeps_write_vertex (line : Obj) (i : nat) (p : Vec3) :
  keeps part (write_vertex line i p).
Proof. apply keeps_update_object. Qed.

Lemma keeps_setDrawRange (line : Obj) (n : nat) :
  keeps part (setDrawRange line n).
Proof. apply keeps_update_object. Qed.

(** ... and that the statements on the temporary objects do not assign
    either. *)
Hypothesis part_helpLabel : forall v, keeps part (set_helpLabel v).
Hypothesis part_tempPoints : forall v, keeps part (set_tempPoints v).
Hypothesis part_tempLine : forall v, keeps part (set_tempLine v).
Hypothesis part_tempLabel : forall v, keeps part (set_tempLabel v).

Lemma keeps_addHelpLabel (l : LabelText) (p : Vec3) :
  keeps part (addHelpLabel l p).
Proof.
  intros s. unfold addHelpLabel. destruct (helpLabel s) eqn:E.
  - rewrite E. apply keeps_update_object.
  - unfold createHelper.
    pose proof (keeps_new_object (set_innerHTML l (set_name LABEL_NAME blank)) s)
      as Hk.
    destruct (new_object _ s) as [x s']. simpl in Hk. simpl.
    rewrite keeps_update_object, keeps_scene_add, keeps_log, part_helpLabel.
    exact Hk.
Qed.

Lemma keeps_addOrUpdateLabel (o : Obj) (l : LabelText) (p d : Vec3)
    (x : number) :
  keeps part (addOrUpdateLabel o l p d x).
Proof.
  intros s. unfold addOrUpdateLabel.
  destruct (negb (font s)); [apply keeps_log|].
  unfold createHelper.
  pose proof (keeps_new_object (set_innerHTML l (set_name LABEL_NAME blank))
                (scene_remove (tempLabel s) s)) as Hk.
  destruct (new_object _ (scene_remove (tempLabel s) s)) as [y s'].
  simpl in Hk.
  rewrite keeps_scene_add, keeps_update_object, part_tempLabel, Hk.
  apply keeps_scene_remove.
Qed.

Lemma keeps_move_point : keeps part move_point.
Proof.
  intros s. unfold move_point. destruct (tempPoints s); [reflexivity|].
  unfold createPoints.
  pose proof (keeps_new_object (new_Points 1) s) as Hk.
  destruct (new_object _ s) as [x s']. simpl in Hk.
  rewrite part_tempPoints, keeps_scene_add. exact Hk.
Qed.

Lemma keeps_tempLine_or_new (s : Measure) :
  part (tempLine_or_new s).2 = part s.
Proof.
  unfold tempLine_or_new. destruct (tempLine s); [reflexivity|].
  apply keeps_new_object.
Qed.

Lemma keeps_move_first_point : keeps part move_first_point.
Proof.
  intros s. unfold move_first_point. case_match; [|reflexivity].
  pose proof (keeps_tempLine_or_new s) as Hk.
  destruct (tempLine_or_new s) as [line s']. simpl in Hk.
  case_match; [rewrite keeps_write_vertex|]; exact Hk.
Qed.

Lemma keeps_move_segment (line : Obj) (p0 p : Vec3) :
  keeps part (move_segment line p0 p).
Proof.
  intros s. unfold move_segment. case_match; [|reflexivity].
  rewrite keeps_setDrawRange, !keeps_write_vertex. reflexivity.
Qed.

Lemma keeps_move_distance_label (line : Obj) (p0 p : Vec3) :
  keeps part (move_distance_label line p0 p).
Proof.
  intros s. unfold move_distance_label. case_decide; [|reflexivity].
  apply keeps_addOrUpdateLabel.
Qed.

Lemma keeps_keep_temp_line (line : Obj) : keeps part (keep_temp_line line).
Proof.
  intros s. unfold keep_temp_line. destruct (tempLine s); [reflexivity|].
  rewrite part_tempLine. apply keeps_scene_add.
Qed.

Lemma keeps_move_line (p : Vec3) : keeps part (move_line p).
Proof.
  intros s. unfold move_line. case_match; [|reflexivity].
  pose proof (keeps_tempLine_or_new (move_help help_finish p s)) as Hk.
  destruct (tempLine_or_new (move_help help_finish p s)) as [line s'].
  simpl in Hk.
  rewrite keeps_keep_temp_line, keeps_move_distance_label, keeps_move_segment,
    Hk.
  apply keeps_addHelpLabel.
Qed.

(** [mousemove] after its first statement, [this.mouseMoved = true]. *)
Lemma keeps_mousemove (e : Event) (s : Measure) :
  part (mousemove e s) = part (set_mouseMoved true s).
Proof.
  unfold mousemove.
  destruct (getClosestIntersection e (set_mouseMoved true s)); [|reflexivity].
  rewrite keeps_move_line, keeps_move_first_point, keeps_move_point.
  apply keeps_addHelpLabel.
Qed.

(** ... nor the statements of [complete] on the committed geometry, the
    drag controls, the completion flag, the cursor and the font size. *)
Hypothesis part_curve : forall v, keeps part (set_curve v).
Hypothesis part_points : forall v, keeps part (set_points v).
Hypothesis part_polyline : forall v, keeps part (set_polyline v).
Hypothesis part_dragControls : forall v, keeps part (set_dragControls v).
Hypothesis part_isCompleted : forall v, keeps part (set_isCompleted v).
Hypothesis part_cursor : forall v, keeps part (set_cursor v).
Hypothesis part_fontSize : forall v, keeps part (set_fontSize v).

Lemma keeps_close_loop (line : Obj) (n : nat) (p : Vec3) :
  keeps part (close_loop line n p).
Proof.
  intros s. unfold close_loop. case_match; [|reflexivity].
  rewrite keeps_setDrawRange. apply keeps_write_vertex.
Qed.

Lemma keeps_label_area (line : Obj) (n : nat) :
  keeps part (label_area line n).
Proof.
  intros s. unfold label_area.
  rewrite keeps_addOrUpdateLabel. apply keeps_close_loop.
Qed.

Lemma keeps_label_angle (line : Obj) : keeps part (label_angle line).
Proof.
  intros s. unfold label_angle.
  match goal with
  | |- context [addOrUpdateLabel ?a ?b ?c ?d ?e s] =>
    pose proof (keeps_addOrUpdateLabel a b c d e s) as Hk;
    generalize dependent (addOrUpdateLabel a b c d e s)
  end.
  intros s' Hk.
  match goal with
  | |- context [createCurve ?a ?b ?c s'] =>
    pose proof (keeps_new_object
                  (set_array (Some (fromPoints (getPoints a b c 4)))
                     (set_name LABEL_NAME blank)) s') as Hk';
    unfold createCurve;
    destruct (new_object
                (set_array (Some (fromPoints (getPoints a b c 4)))
                   (set_name LABEL_NAME blank)) s') as [x s'']
  end.
  simpl in Hk'. rewrite keeps_scene_add, part_curve, Hk'. exact Hk.
Qed.

Lemma keeps_complete_area (l : Locals) :
  part (this (complete_area l)) = part (this l).
Proof.
  unfold complete_area. repeat case_match; simpl; try reflexivity.
  apply keeps_label_area.
Qed.

Lemma keeps_complete_distance (l : Locals) :
  part (this (complete_distance l)) = part (this l).
Proof. unfold complete_distance. repeat case_match; reflexivity. Qed.

Lemma keeps_complete_angle (l : Locals) :
  part (this (complete_angle l)) = part (this l).
Proof.
  unfold complete_angle. repeat case_match; simpl; try reflexivity.
  apply keeps_label_angle.
Qed.

Lemma keeps_clear_invalid (l : Locals) :
  part (clear_invalid l) = part (this l).
Proof.
  unfold clear_invalid.
  repeat case_match;
    repeat (rewrite part_points || rewrite part_polyline
            || rewrite keeps_remove_from_scene);
    reflexivity.
Qed.

Lemma keeps_addDraggableObjects (o : Obj) :
  keeps part (addDraggableObjects o).
Proof. intros s. apply part_dragControls. Qed.

Lemma keeps_make_draggable : keeps part make_draggable.
Proof.
  intros s. unfold make_draggable.
  destruct (polyline s) as [line|]; [|reflexivity].
  generalize (traverse (nextId s) (nextId s) (objects s) line). intros l.
  revert s. induction l as [|x l IH]; intros s; [reflexivity|].
  simpl. rewrite IH. case_decide; [apply keeps_addDraggableObjects|reflexivity].
Qed.

Lemma keeps_remove_temp_line : keeps part remove_temp_line.
Proof.
  intros s. unfold remove_temp_line.
  repeat case_match; rewrite ?keeps_remove_from_scene; reflexivity.
Qed.

Lemma keeps_complete : keeps part complete.
Proof.
  intros s. unfold complete. destruct (isCompleted s); [reflexivity|].
  rewrite part_fontSize, !keeps_remove_from_scene, keeps_remove_temp_line,
    keeps_remove_from_scene, part_cursor, part_isCompleted,
    keeps_make_draggable, keeps_clear_invalid, keeps_complete_angle,
    keeps_complete_distance, keeps_complete_area.
  reflexivity.
Qed.

(** ... nor the statements of an accepted click. *)
Hypothesis part_lastClickTime : forall v, keeps part (set_lastClickTime v).
Hypothesis part_tempLineLabelArr :
  forall v, keeps part (set_tempLineLabelArr v).
Hypothesis part_pointsArray : forall v, keeps part (set_pointsArray v).
Hypothesis part_pointArray : forall v, keeps part (set_pointArray v).

Lemma keeps_keep_label (line : Obj) : keeps part (keep_label line).
Proof.
  intros s. unfold keep_label. destruct (tempLabel s); [|reflexivity].
  rewrite part_objects. apply part_tempLineLabelArr.
Qed.

Lemma keeps_settle_fontSize : keeps part settle_fontSize.
Proof.
  intros s. unfold settle_fontSize. case_match; [|reflexivity].
  apply part_fontSize.
Qed.

Lemma keeps_click_polyline (p : Vec3) : keeps part (click_polyline p).
Proof.
  intros s. unfold click_polyline. repeat case_match; try reflexivity.
  - rewrite keeps_settle_fontSize, keeps_keep_label, keeps_setDrawRange.
    apply keeps_write_vertex.
  - apply keeps_log.
Qed.

Lemma keeps_click_faces (p : Vec3) : keeps part (click_faces p).
Proof.
  intros s. unfold click_faces. repeat case_match; try reflexivity.
  - rewrite keeps_update_object, part_pointsArray. apply keeps_log.
  - rewrite keeps_update_object. apply part_pointsArray.
Qed.

Lemma keeps_onMouseClicked (e : Event) : keeps part (onMouseClicked e).
Proof.
  intros s. unfold onMouseClicked. repeat case_match; try reflexivity.
  unfold auto_complete. case_match; [rewrite keeps_complete|];
    unfold push_point;
    rewrite part_pointArray, keeps_click_faces, keeps_click_polyline;
    apply part_lastClickTime.
Qed.

End Keeps.

(** ** Moving, dragging, completing *)

(** [mousemove] sets [mouseMoved] and, when the pointer is over
    something, works on the help label and the temporary objects only:
    the listeners, the mode, the raycaster, the completion flag, the
    committed geometry and points, the font sizes and the time of the
    last click stay as they are. *)
Theorem mousemove_committed (e : Event) (s : Measure) :
  mouseMoved (mousemove e s) = true /\
  committed (mousemove e s) = committed s.
Proof.
  split.
  - rewrite (keeps_mousemove mouseMoved) by (intros ? ?; reflexivity).
    reflexivity.
  - rewrite (keeps_mousemove committed) by (intros ? ?; reflexivity).
    reflexivity.
Qed.

(** A button release after the pointer has moved is not a click: it
    changes nothing, whatever the pointer is over and whenever it
    happens. *)
Theorem mouseup_after_move (e1 e2 : Event) (s : Measure) :
  mouseup e2 (mousemove e1 s) = mousemove e1 s.
Proof.
  unfold mouseup.
  rewrite (keeps_mousemove mouseMoved) by (intros ? ?; reflexivity).
  reflexivity.
Qed.

(** [complete] keeps the listeners attached and the raycaster alive,
    keeps the committed points, and keeps its references to the help
    label and the temporary objects that it removes from the scene. *)
Theorem complete_unfinished (s : Measure) :
  unfinished (complete s) = unfinished s.
Proof. apply keeps_complete; intros ? ?; reflexivity. Qed.

(** Once [complete] has run, the session reacts to nothing but [open]
    and [close]: [complete] again, a click and the hit test do nothing,
    and a pointer move only records that the pointer moved. *)
Theorem complete_inert (e : Event) (s : Measure) :
  complete (complete s) = complete s /\
  getClosestIntersection e (complete s) = None /\
  onMouseClicked e (complete s) = complete s /\
  mouseup e (complete s) = complete s /\
  mousemove e (complete s) = set_mouseMoved true (complete s).
Proof.
  destruct (complete_fields s) as (_ & _ & Hc & _).
  pose proof (getClosestIntersection_completed e _ Hc) as Hn.
  split; [apply complete_completed, Hc|]. split; [exact Hn|].
  assert (Hk : onMouseClicked e (complete s) = complete s)
    by (apply onMouseClicked_rejected; auto).
  split; [exact Hk|]. split.
  - unfold mouseup. destruct (negb _); [exact Hk|reflexivity].
  - unfold mousemove.
    rewrite (getClosestIntersection_completed e (set_mouseMoved true _) Hc).
    reflexivity.
Qed.

(** ** Listeners *)

Lemma elem_of_add_listener (l x : Listener) (ls : list Listener) :
  x ∈ add_listener l ls <-> x = l \/ x ∈ ls.
Proof.
  unfold add_listener. case_decide.
  - split; [auto|]. intros [->|H']; assumption.
  - rewrite elem_of_app, list_elem_of_singleton. tauto.
Qed.

(** [close] takes the mousedown, mousemove, mouseup and keydown
    listeners (and a dblclick listener, if there is one) off the table
    and leaves every other listener where it is; [open] then registers
    its five listeners. *)
Theorem listeners_close_open (m : option MeasureMode) (s : Measure)
    (l : Listener) :
  (l ∈ listeners (close s) <-> l ∈ listeners s /\ l ∉ detached) /\
  (l ∈ listeners (open m s) <-> l ∈ attached \/ l ∈ listeners (close s)).
Proof.
  assert (Hc : forall x, l ∈ listeners (closed x) <->
                         l ∈ listeners x /\ l ∉ detached).
  { intros x. cbn [closed listeners]. unfold close_listeners, detached.
    rewrite !list_elem_of_filter, !not_elem_of_cons.
    pose proof (not_elem_of_nil l). tauto. }
  split.
  - rewrite (close_unfold s). apply Hc.
  - rewrite (open_unfold m s), (close_unfold s). cbn [started listeners].
    unfold started_listeners, attached.
    rewrite !elem_of_add_listener, !elem_of_cons.
    assert (Hm : l ∈ listeners (closed (set_mode_if m s)) <->
                 l ∈ listeners (closed s))
      by (destruct m; reflexivity).
    change (close_listeners (listeners (set_mode_if m s)))
      with (listeners (closed (set_mode_if m s))).
    rewrite Hm, elem_of_nil. tauto.
Qed.

(** A handler leaves the listener table alone or closes the tool. *)
Lemma call_listeners (h : Handler) (e : Event) (s : Measure) :
  listeners (call h e s) = listeners s \/ call h e s = close s.
Proof.
  destruct h; unfold call.
  - left. reflexivity.
  - left. rewrite (keeps_mousemove listeners) by (intros ? ?; reflexivity).
    reflexivity.
  - left. unfold mouseup. case_match; [|reflexivity].
    apply keeps_onMouseClicked; intros ? ?; reflexivity.
  - left. apply keeps_complete; intros ? ?; reflexivity.
  - unfold keydown, cancel. repeat case_decide; auto.
    left. apply keeps_complete; intros ? ?; reflexivity.
Qed.

Lemma close_listeners_subseteq (s : Measure) :
  listeners (close s) ⊆ listeners s.
Proof.
  intros l Hl. apply (listeners_close_open None s l) in Hl. tauto.
Qed.

Lemma dispatch_listeners (t : Target) (type : string) (e : Event)
    (s : Measure) :
  listeners (dispatch t type e s) ⊆ listeners s.
Proof.
  unfold dispatch.
  generalize (filter (fun l => l_target l = t /\ l_type l = type)
                     (listeners s)).
  intros ls. revert s. induction ls as [|l ls IH]; intros s; [reflexivity|].
  cbn [foldl]. etrans; [apply IH|].
  destruct (call_listeners (l_callback l) e s) as [->| ->];
    [reflexivity|apply close_listeners_subseteq].
Qed.

Lemma run_listeners (acts : list Action) (s : Measure) :
  listeners s ⊆ attached -> listeners (run acts s) ⊆ attached.
Proof.
  unfold run. revert s.
  induction acts as [|a acts IH]; intros s H; [exact H|].
  cbn [foldl]. apply IH.
  destruct a as [[m| | |]|t type e|]; unfold step, invoke, cancel, fontLoaded.
  - intros l Hl. apply (listeners_close_open m s l) in Hl.
    destruct Hl as [Hl|Hl]; [exact Hl|].
    apply H, close_listeners_subseteq, Hl.
  - etrans; [apply close_listeners_subseteq|exact H].
  - etrans; [apply close_listeners_subseteq|exact H].
  - rewrite (keeps_complete listeners) by (intros ? ?; reflexivity). exact H.
  - etrans; [apply dispatch_listeners|exact H].
  - exact H.
Qed.

Lemma filter_none {A} (P : A -> Prop) `{Hdec : !forall x, Decision (P x)}
    (l : list A) :
  (forall x, x ∈ l -> ~ P x) -> filter P l = [].
Proof.
  intros Hl. destruct (filter P l) as [|x rest] eqn:E; [reflexivity|].
  assert (Hx : x ∈ filter P l) by (rewrite E; left).
  apply list_elem_of_filter in Hx. destruct Hx as [Hp Hx].
  destruct (Hl x Hx Hp).
Qed.

(** A tool that registers its listeners through [open] only hears
    nothing once it is closed, except for the contextmenu event: an
    event of any other type, or on another target, leaves the closed
    tool as it is. *)
Theorem closed_tool_hears_nothing (s0 : Measure) (acts : list Action)
    (t : Target) (type : string) (e : Event) :
  listeners s0 ⊆ attached ->
  (t, type) <> (Canvas, "contextmenu"%string) ->
  dispatch t type e (close (run acts s0)) = close (run acts s0).
Proof.
  intros H0 Hne. pose proof (run_listeners acts s0 H0) as H.
  generalize dependent (run acts s0). intros s H.
  unfold dispatch.
  replace (filter (fun l => l_target l = t /\ l_type l = type)
                  (listeners (close s))) with (@nil Listener); [reflexivity|].
  symmetry. apply filter_none. intros l Hl [Ht Hty].
  apply (listeners_close_open None s l) in Hl. destruct Hl as [Hl Hd].
  apply H in Hl. unfold attached in Hl. unfold detached in Hd.
  rewrite !elem_of_cons, elem_of_nil in Hl.
  rewrite !not_elem_of_cons in Hd.
  destruct Hl as [->|[->|[->|[->|[->|[]]]]]]; try tauto.
  apply Hne. simpl in Ht, Hty. congruence.
Qed.

Lemma closed_tool_hears_nothing_witness :
  dispatch Canvas "mouseup" (at_ 1 0 0 1000)
    (close (run (Call (Open None) :: clicks 2) tool)) =
  close (run (Call (Open None) :: clicks 2) tool).
Proof.
  apply closed_tool_hears_nothing.
  - intros l Hl. vm_compute in Hl. inversion Hl.
  - discriminate.
Defined.

(** ** The mode and the committed points along a run *)

Lemma dispatch_mode (t : Target) (type : string) (e : Event) (s : Measure) :
  mode (dispatch t type e s) = mode s.
Proof.
  apply (dispatch_invariant (fun x => mode x = mode s)); [| | | |reflexivity].
  - intros s1 s2 (A & _) H. congruence.
  - intros s1 H. rewrite <- H. apply complete_fields.
  - intros s1 H. rewrite <- H. apply close_fields.
  - intros e' s1 p Hp Hd H. rewrite <- H.
    apply (onMouseClicked_fields e' s1 p Hp Hd).
Qed.

(** Only [open] with a mode changes the mode: after any sequence of
    calls and events the mode is the one [open] was last called with,
    or the constructor's if there was no such call. *)
Theorem mode_run (acts : list Action) (s : Measure) :
  mode (run acts s) = last_mode acts (mode s).
Proof.
  unfold run, last_mode. revert s.
  induction acts as [|a acts IH]; intros s; [reflexivity|].
  cbn [foldl]. rewrite IH. f_equal.
  destruct a as [[[m|]| | |]|t type e|]; unfold step, invoke, cancel.
  - apply (open_fields (Some m) s).
  - apply (open_fields None s).
  - apply close_fields.
  - apply close_fields.
  - apply complete_fields.
  - apply dispatch_mode.
  - reflexivity.
Qed.

Lemma call_prefix (h : Handler) (e : Event) (s : Measure) :
  key e <> "Escape"%string -> pointArray s `prefix_of` pointArray (call h e s).
Proof.
  intros Hk. destruct h; unfold call.
  - reflexivity.
  - destruct (mousemove_committed e s) as [_ H].
    unfold committed in H. injection H as _ _ _ _ _ _ _ _ _ _ _ _ _ _ H _ _ _ _.
    rewrite H. reflexivity.
  - unfold mouseup. case_match; [|reflexivity].
    destruct (getClosestIntersection e s) as [p|] eqn:Hp;
      [destruct (debounced e s) eqn:Hd|].
    + rewrite onMouseClicked_rejected by auto. reflexivity.
    + destruct (onMouseClicked_fields e s p Hp Hd) as (_ & -> & _).
      apply prefix_app_r. reflexivity.
    + rewrite onMouseClicked_rejected by auto. reflexivity.
  - unfold dblclick. destruct (complete_fields s) as (_ & -> & _).
    reflexivity.
  - unfold keydown, cancel.
    destruct (decide (key e = "Enter"%string)).
    + destruct (complete_fields s) as (_ & -> & _). reflexivity.
    + destruct (decide (key e = "Escape"%string)); [contradiction|].
      reflexivity.
Qed.

Lemma dispatch_prefix (t : Target) (type : string) (e : Event)
    (s : Measure) :
  key e <> "Escape"%string ->
  pointArray s `prefix_of` pointArray (dispatch t type e s).
Proof.
  intros Hk. unfold dispatch.
  generalize (filter (fun l => l_target l = t /\ l_type l = type)
                     (listeners s)).
  intros ls. revert s. induction ls as [|l ls IH]; intros s; [reflexivity|].
  cbn [foldl]. etrans; [|apply IH]. apply call_prefix, Hk.
Qed.

(** While the session is neither closed nor reopened, committed points
    are only ever appended: whatever events arrive (the Escape key
    apart) and however often [complete] runs, the points committed so
    far stay, in their order, at the front of [pointArray]. *)
Theorem pointArray_grows (acts : list Action) (s : Measure) :
  Forall keeps_points acts ->
  pointArray s `prefix_of` pointArray (run acts s).
Proof.
  unfold run. intros Ha. revert s.
  induction Ha as [|a acts Ha _ IH]; intros s; [reflexivity|].
  cbn [foldl]. etrans; [|apply IH].
  destruct a as [[m| | |]|t type e|]; unfold step, invoke;
    try contradiction.
  - destruct (complete_fields s) as (_ & -> & _). reflexivity.
  - apply dispatch_prefix, Ha.
  - reflexivity.
Qed.

Lemma pointArray_grows_witness :
  pointArray (open (Some Distance) tool)
    `prefix_of` pointArray (run (clicks 3) (open (Some Distance) tool)).
Proof.
  apply pointArray_grows. unfold clicks. simpl.
  repeat (constructor; [discriminate|]). constructor.
Defined.

(** ** Clicks *)

(** The 500 ms window is counted from the last accepted click: a click
    rejected as too soon does not restart it, so a click that hits
    something 500 ms or more after the last accepted one is accepted,
    whatever was rejected in between. *)
Theorem rejected_click_keeps_window (s : Measure) (t : Z) (e2 e3 : Event)
    (p : Vec3) :
  lastClickTime s = Some t -> t <> 0 -> now e2 - t < 500 ->
  500 <= now e3 - t -> getClosestIntersection e3 s = Some p ->
  pointArray (onMouseClicked e3 (onMouseClicked e2 s)) = pointArray s ++ [p] /\
  lastClickTime (onMouseClicked e3 (onMouseClicked e2 s)) = Some (now e3).
Proof.
  intros Ht Hne H2 H3 Hp.
  rewrite (onMouseClicked_rejected e2 s)
    by (right; apply (debounced_soon e2 s t); assumption).
  assert (Hd : debounced e3 s = false).
  { unfold debounced. rewrite Ht. apply andb_false_iff. right.
    apply Z.ltb_ge, H3. }
  destruct (onMouseClicked_fields e3 s p Hp Hd) as (_ & A & B & _). auto.
Qed.

Lemma rejected_click_keeps_window_witness :
  pointArray
    (onMouseClicked (at_ 3 0 0 1500)
       (onMouseClicked (at_ 2 0 0 1300)
          (run (clicks 1) (open (Some Distance) tool)))) =
  pointArray (run (clicks 1) (open (Some Distance) tool)) ++ [vec 3 0 0].
Proof.
  apply (rejected_click_keeps_window _ 1000 (at_ 2 0 0 1300) (at_ 3 0 0 1500));
    vm_compute; congruence.
Defined.

(** ** The vertex buffer of the polyline *)
Lemma objects_settle_fontSize (s : Measure) :
  objects (settle_fontSize s) = objects s.
Proof. unfold settle_fontSize. case_match; reflexivity. Qed.

Lemma lookup_keep_label (line : Obj) (s : Measure) :
  objects (keep_label line s) !! line = objects s !! line.
Proof.
  unfold keep_label. destruct (tempLabel s) as [l|]; [|reflexivity].
  cbn [objects set_objects set_tempLineLabelArr]. unfold Object3D_add.
  case_decide; [reflexivity|].
  destruct (objects s !! l); [|reflexivity].
  apply lookup_insert_ne. auto.
Qed.

(** While fewer than 33 points are committed, [onMouseClicked] stores
    the clicked point in the polyline's vertex buffer: its three
    coordinates, rounded to single precision, go to the elements
    [3n], [3n+1], [3n+2] for the [n]-th point (counting from 0), every
    other element stays, and the draw range becomes [n+1] vertices. *)
Theorem click_polyline_vertex (p : Vec3) (s : Measure) (line : Obj)
    (o : Object3D) (a : list number) :
  polyline s = Some line -> objects s !! line = Some o ->
  array o = Some a -> (List.length a = MAX_POINTS * 3)%nat ->
  (List.length (pointArray s) < 33)%nat ->
  let n := List.length (pointArray s) in
  exists o' a',
    objects (click_polyline p s) !! line = Some o' /\
    name o' = name o /\ parent o' = parent o /\
    drawCount o' = Some (n + 1)%nat /\ array o' = Some a' /\
    a' !! (n * 3)%nat = Some (fround (Vector3.x p)) /\
    a' !! (n * 3 + 1)%nat = Some (fround (Vector3.y p)) /\
    a' !! (n * 3 + 2)%nat = Some (fround (Vector3.z p)) /\
    forall i, (i < n * 3 \/ n * 3 + 3 <= i)%nat -> a' !! i = a !! i.
Proof.
  intros Hl Ho Ha Hlen Hn n. unfold click_polyline. rewrite Hl.
  fold n.
  assert (Hp : has_position line s = true).
  { unfold has_position. apply bool_decide_eq_true_2.
    rewrite Ho. simpl. rewrite Ha. eauto. }
  assert (Hb : (n * 3 + 3 <? MAX_POINTS)%nat = true).
  { apply Nat.ltb_lt. unfold MAX_POINTS. lia. }
  rewrite Hp, Hb. cbn [andb].
  rewrite objects_settle_fontSize, lookup_keep_label.
  unfold setDrawRange, write_vertex, update_object.
  cbn [objects set_objects].
  rewrite !lookup_alter_eq, Ho. cbn [fmap option_fmap option_map].
  eexists _, _. split; [reflexivity|].
  cbn [name parent drawCount array set_drawCount set_array].
  rewrite Ha. cbn [fmap option_fmap option_map].
  split; [reflexivity|]. split; [reflexivity|]. split; [reflexivity|].
  split; [reflexivity|].
  unfold store. unfold MAX_POINTS in Hlen.
  split.
  { rewrite list_lookup_insert_ne by lia.
    rewrite list_lookup_insert_ne by lia.
    apply list_lookup_insert_eq. lia. }
  split.
  { rewrite list_lookup_insert_ne by lia.
    apply list_lookup_insert_eq. rewrite length_insert. lia. }
  split.
  { apply list_lookup_insert_eq. rewrite !length_insert. lia. }
  intros i Hi. rewrite !list_lookup_insert_ne by lia. reflexivity.
Qed.

Lemma click_polyline_vertex_witness :
  exists o' a',
    objects (click_polyline (vec 7 8 9) (open (Some Distance) tool)) !! 3%nat
      = Some o' /\
    array o' = Some a' /\ a' !! 2%nat = Some (of_Z 9).
Proof.
  destruct (click_polyline_vertex (vec 7 8 9) (open (Some Distance) tool)
              3%nat (set_parent (Some 0%nat) (new_Line MAX_POINTS))
              (Float32Array (MAX_POINTS * 3)))
    as (o' & a' & H1 & _ & _ & _ & H2 & _ & _ & H3 & _);
    [reflexivity|vm_compute; reflexivity|reflexivity|reflexivity
    |vm_compute; lia|].
  exists o', a'. split; [exact H1|]. split; [exact H2|]. exact H3.
Defined.

(** ** The names of the tool's geometry *)

Create HintDb names.

Lemma named_same (xs : list Obj) (f : Measure -> Measure) (s : Measure) :
  (forall x, objects (f x) = objects x /\ nextId (f x) = nextId x /\
             geometry (f x) = geometry x) ->
  named xs s -> named xs (f s).
Proof.
  intros Hf H o Ho. destruct (Hf s) as (A & B & C).
  rewrite A, B. rewrite C in Ho. apply H, Ho.
Qed.

#[local] Hint Extern 5 (named ?xs (?f ?s)) =>
  (refine (named_same xs f s _ _); [solve [intro; repeat split]|]) : names.

Lemma named_set_objects (xs : list Obj) (h : Store) (s : Measure) :
  (forall o, name_of h o = name_of (objects s) o) ->
  named xs s -> named xs (set_objects h s).
Proof.
  intros Hh H o Ho. destruct (H o Ho) as [A B]. split; [exact A|].
  cbn [objects set_objects]. rewrite Hh. exact B.
Qed.

Lemma name_of_remove (p c o : Obj) (h : Store) :
  name_of (Object3D_remove p c h) o = name_of h o.
Proof.
  unfold Object3D_remove, name_of.
  destruct (h !! c) as [oc|] eqn:Hc; [|reflexivity].
  case_decide; [|reflexivity].
  destruct (decide (o = c)) as [->|Hne].
  - rewrite lookup_insert_eq, Hc. reflexivity.
  - rewrite lookup_insert_ne by auto. reflexivity.
Qed.

Lemma name_of_remove_opt (p : Obj) (c : option Obj) (o : Obj) (h : Store) :
  name_of (remove_opt p c h) o = name_of h o.
Proof. destruct c; [apply name_of_remove|reflexivity]. Qed.

Lemma name_of_add (p c o : Obj) (h : Store) :
  name_of (Object3D_add p c h) o = name_of h o.
Proof.
  unfold Object3D_add, name_of. case_decide; [reflexivity|].
  destruct (h !! c) as [oc|] eqn:Hc; [|reflexivity].
  destruct (decide (o = c)) as [->|Hne].
  - rewrite lookup_insert_eq, Hc. reflexivity.
  - rewrite lookup_insert_ne by auto. reflexivity.
Qed.

Lemma name_of_alter (f : Object3D -> Object3D) (c o : Obj) (h : Store) :
  (forall x, name (f x) = name x) -> name_of (alter f c h) o = name_of h o.
Proof.
  intros Hf. unfold name_of. destruct (decide (o = c)) as [->|Hne].
  - rewrite lookup_alter_eq. destruct (h !! c); simpl; auto.
  - rewrite lookup_alter_ne by auto. reflexivity.
Qed.

Lemma name_of_remove_labels (line : Obj) (items : list Obj) (o : Obj)
    (h : Store) :
  name_of (foldl (fun h item => Object3D_remove line item h) h items) o
  = name_of h o.
Proof.
  revert h. induction items as [|i items IH]; intros h; simpl; [reflexivity|].
  rewrite IH. apply name_of_remove.
Qed.

Lemma named_scene_remove (xs : list Obj) (c : option Obj) (s : Measure) :
  named xs s -> named xs (scene_remove c s).
Proof.
  apply named_set_objects. intros o. apply name_of_remove_opt.
Qed.

Lemma named_remove_from_scene (xs : list Obj) (x : Measure -> option Obj)
    (s : Measure) :
  named xs s -> named xs (remove_from_scene x s).
Proof. apply named_scene_remove. Qed.

Lemma named_scene_add (xs : list Obj) (c : Obj) (s : Measure) :
  named xs s -> named xs (scene_add c s).
Proof. apply named_set_objects. intros o. apply name_of_add. Qed.

Lemma named_update_object (xs : list Obj) (c : Obj)
    (f : Object3D -> Object3D) (s : Measure) :
  (forall x, name (f x) = name x) ->
  named xs s -> named xs (update_object c f s).
Proof.
  intros Hf. apply named_set_objects. intros o. apply name_of_alter, Hf.
Qed.

Lemma named_remove_line_labels (xs : list Obj) (s : Measure) :
  named xs s -> named xs (remove_line_labels s).
Proof.
  apply named_set_objects. intros o.
  destruct (polyline s); [apply name_of_remove_labels|reflexivity].
Qed.

Lemma named_new_object (xs : list Obj) (x : Object3D) (s : Measure) :
  named xs s -> named xs (new_object x s).2.
Proof.
  intros H o Ho. destruct (H o Ho) as [A B]. simpl. split; [lia|].
  unfold name_of. rewrite lookup_insert_ne by lia. exact B.
Qed.

(** A new object named [OBJ_NAME] may be counted in. *)
Lemma named_new_geometry (xs : list Obj) (x : Object3D) (s : Measure) :
  name x = OBJ_NAME ->
  named xs s -> named ((new_object x s).1 :: xs) (new_object x s).2.
Proof.
  intros Hx H o Ho.
  destruct (decide (o = nextId s)) as [->|Hne].
  - simpl. split; [lia|]. unfold name_of. rewrite lookup_insert_eq. exact Hx.
  - apply (named_new_object xs x s H).
    destruct Ho as [Ho|Ho]; [left; exact Ho|right].
    simpl in Ho. apply elem_of_cons in Ho. destruct Ho as [->|Ho]; [|exact Ho].
    contradiction.
Qed.

Lemma named_weaken (xs : list Obj) (x : Obj) (s : Measure) :
  named (x :: xs) s -> named xs s.
Proof.
  intros H o Ho. apply H. destruct Ho as [Ho|Ho]; [left; exact Ho|right].
  right. exact Ho.
Qed.

(** Assigning a geometry field: to nothing, or to an object counted
    in. *)
Lemma named_assign (xs : list Obj) (f : Measure -> Measure) (s : Measure) :
  (forall x, objects (f x) = objects x /\ nextId (f x) = nextId x) ->
  (forall o, Some o ∈ geometry (f s) -> Some o ∈ geometry s \/ o ∈ xs) ->
  named xs s -> named xs (f s).
Proof.
  intros Hf Hg H o Ho. destruct (Hf s) as (A & B). rewrite A, B.
  apply H. destruct Ho as [Ho|Ho]; [apply Hg, Ho|right; exact Ho].
Qed.

Ltac assign_geometry :=
  apply named_assign;
  [intro; split; reflexivity
  |intros ? Ho; unfold geometry in *; cbn in Ho |- *;
   rewrite ?elem_of_cons in Ho |- *;
   rewrite ?elem_of_nil in Ho |- *;
   repeat match goal with
          | H : _ \/ _ |- _ => destruct H
          | H : Some _ = Some _ |- _ => injection H as ->
          | H : Some _ = None |- _ => discriminate H
          | H : False |- _ => destruct H
          end; auto 10].

Lemma named_set_points (xs : list Obj) (v : option Obj) (s : Measure) :
  (forall x, v = Some x -> x ∈ xs) ->
  named xs s -> named xs (set_points v s).
Proof. intros Hv. assign_geometry. Qed.

Lemma named_set_polyline (xs : list Obj) (v : option Obj) (s : Measure) :
  (forall x, v = Some x -> x ∈ xs) ->
  named xs s -> named xs (set_polyline v s).
Proof. intros Hv. assign_geometry. Qed.

Lemma named_set_faces (xs : list Obj) (v : option Obj) (s : Measure) :
  (forall x, v = Some x -> x ∈ xs) ->
  named xs s -> named xs (set_faces v s).
Proof. intros Hv. assign_geometry. Qed.

Lemma named_set_tempPoints (xs : list Obj) (v : option Obj) (s : Measure) :
  (forall x, v = Some x -> x ∈ xs) ->
  named xs s -> named xs (set_tempPoints v s).
Proof. intros Hv. assign_geometry. Qed.

Lemma named_set_tempLine (xs : list Obj) (v : option Obj) (s : Measure) :
  (forall x, v = Some x -> x ∈ xs) ->
  named xs s -> named xs (set_tempLine v s).
Proof. intros Hv. assign_geometry. Qed.

Lemma named_forget_points (xs : list Obj) (s : Measure) :
  named xs s -> named xs (set_points None s).
Proof. apply named_set_points. discriminate. Qed.

Lemma named_forget_polyline (xs : list Obj) (s : Measure) :
  named xs s -> named xs (set_polyline None s).
Proof. apply named_set_polyline. discriminate. Qed.

Lemma named_forget_tempPoints (xs : list Obj) (s : Measure) :
  named xs s -> named xs (set_tempPoints None s).
Proof. apply named_set_tempPoints. discriminate. Qed.

Lemma named_forget_tempLine (xs : list Obj) (s : Measure) :
  named xs s -> named xs (set_tempLine None s).
Proof. apply named_set_tempLine. discriminate. Qed.

#[local] Hint Extern 1 (forall x : Object3D, name _ = name x) =>
  (intro; reflexivity) : names.

#[local] Hint Resolve named_scene_remove named_remove_from_scene
  named_scene_add named_update_object named_remove_line_labels
  named_forget_points named_forget_polyline named_forget_tempPoints
  named_forget_tempLine : names.

Lemma named_createHelper (xs : list Obj) (l : LabelText) (s : Measure) :
  named xs s -> named xs (createHelper l s).2.
Proof. apply named_new_object. Qed.

Lemma named_addHelpLabel (xs : list Obj) (l : LabelText) (p : Vec3)
    (s : Measure) :
  named xs s -> named xs (addHelpLabel l p s).
Proof.
  intros H. unfold addHelpLabel. destruct (helpLabel s) eqn:E.
  - rewrite E. auto with names.
  - pose proof (named_createHelper xs l s H) as H'.
    destruct (createHelper l s) as [x s']. simpl in H'. simpl.
    auto 10 with names.
Qed.

Lemma named_addOrUpdateLabel (xs : list Obj) (o : Obj) (l : LabelText)
    (p d : Vec3) (x : number) (s : Measure) :
  named xs s -> named xs (addOrUpdateLabel o l p d x s).
Proof.
  intros H. unfold addOrUpdateLabel.
  destruct (negb (font s)); [auto with names|].
  pose proof (named_createHelper xs l _
                (named_scene_remove xs (tempLabel s) s H)) as H'.
  destruct (createHelper l (scene_remove (tempLabel s) s)) as [y s'].
  simpl in H'. auto 10 with names.
Qed.

#[local] Hint Resolve named_addHelpLabel named_addOrUpdateLabel : names.

Lemma named_close (xs : list Obj) (s : Measure) :
  named xs s -> named xs (close s).
Proof. intros H. unfold close. auto 40 with names. Qed.

Lemma named_open_points (xs : list Obj) (s : Measure) :
  named xs s -> named xs (open_points s).
Proof.
  intros H. unfold open_points, createPoints.
  pose proof (named_new_geometry xs (new_Points MAX_POINTS) s eq_refl H) as H'.
  destruct (new_object (new_Points MAX_POINTS) s) as [x s']. simpl in H'.
  apply named_scene_add, (named_weaken xs x), named_set_points; [|exact H'].
  intros ? [= <-]. left.
Qed.

Lemma named_open_polyline (xs : list Obj) (s : Measure) :
  named xs s -> named xs (open_polyline s).
Proof.
  intros H. unfold open_polyline, createLine.
  pose proof (named_new_geometry xs (new_Line MAX_POINTS) s eq_refl H) as H'.
  destruct (new_object (new_Line MAX_POINTS) s) as [x s']. simpl in H'.
  apply named_scene_add, (named_weaken xs x), named_set_polyline; [|exact H'].
  intros ? [= <-]. left.
Qed.

Lemma named_open_faces (xs : list Obj) (s : Measure) :
  named xs s -> named xs (open_faces s).
Proof.
  intros H. unfold open_faces, createFaces. case_decide; [|exact H].
  pose proof (named_new_geometry xs new_Mesh s eq_refl H) as H'.
  destruct (new_object new_Mesh s) as [x s']. simpl in H'.
  apply named_scene_add, (named_weaken xs x), named_set_faces; [|exact H'].
  intros ? [= <-]. left.
Qed.

Lemma named_set_mode_if (xs : list Obj) (m : option MeasureMode)
    (s : Measure) :
  named xs s -> named xs (set_mode_if m s).
Proof. intros H. destruct m; [|exact H]. auto with names. Qed.

#[local] Hint Resolve named_close named_open_points named_open_polyline
  named_open_faces named_set_mode_if : names.

Lemma named_start (xs : list Obj) (s : Measure) :
  named xs s -> named xs (start s).
Proof. intros H. unfold start. auto 40 with names. Qed.

Lemma named_open (xs : list Obj) (m : option MeasureMode) (s : Measure) :
  named xs s -> named xs (open m s).
Proof. intros H. unfold open. auto using named_start with names. Qed.

Lemma named_write_vertex (xs : list Obj) (line : Obj) (i : nat) (p : Vec3)
    (s : Measure) :
  named xs s -> named xs (write_vertex line i p s).
Proof. apply named_update_object. intro. reflexivity. Qed.

Lemma named_setDrawRange (xs : list Obj) (line : Obj) (n : nat)
    (s : Measure) :
  named xs s -> named xs (setDrawRange line n s).
Proof. apply named_update_object. intro. reflexivity. Qed.

#[local] Hint Resolve named_write_vertex named_setDrawRange : names.

Lemma named_close_loop (xs : list Obj) (line : Obj) (n : nat) (p : Vec3)
    (s : Measure) :
  named xs s -> named xs (close_loop line n p s).
Proof. intros H. unfold close_loop. case_match; auto with names. Qed.

#[local] Hint Resolve named_close_loop : names.

Lemma named_label_area (xs : list Obj) (line : Obj) (n : nat) (s : Measure) :
  named xs s -> named xs (label_area line n s).
Proof. intros H. unfold label_area. auto with names. Qed.

Lemma named_label_angle (xs : list Obj) (line : Obj) (s : Measure) :
  named xs s -> named xs (label_angle line s).
Proof.
  intros H. unfold label_angle.
  match goal with
  | |- context [addOrUpdateLabel ?a ?b ?c ?d ?e s] =>
    assert (H' : named xs (addOrUpdateLabel a b c d e s)) by auto with names;
    generalize dependent (addOrUpdateLabel a b c d e s)
  end.
  intros s' H'.
  match goal with
  | |- context [createCurve ?a ?b ?c s'] =>
    pose proof (named_new_object xs
                  (set_array (Some (fromPoints (getPoints a b c 4)))
                     (set_name LABEL_NAME blank)) s' H') as H'';
    unfold createCurve;
    destruct (new_object
                (set_array (Some (fromPoints (getPoints a b c 4)))
                   (set_name LABEL_NAME blank)) s') as [x s'']
  end.
  simpl in H''. auto with names.
Qed.

#[local] Hint Resolve named_label_area named_label_angle : names.

Lemma named_complete_area (xs : list Obj) (l : Locals) :
  named xs (this l) -> named xs (this (complete_area l)).
Proof.
  intros H. unfold complete_area. repeat case_match; simpl; auto with names.
Qed.

Lemma named_complete_distance (xs : list Obj) (l : Locals) :
  named xs (this l) -> named xs (this (complete_distance l)).
Proof.
  intros H. unfold complete_distance.
  repeat case_match; simpl; auto with names.
Qed.

Lemma named_complete_angle (xs : list Obj) (l : Locals) :
  named xs (this l) -> named xs (this (complete_angle l)).
Proof.
  intros H. unfold complete_angle. repeat case_match; simpl; auto with names.
Qed.

Lemma named_clear_invalid (xs : list Obj) (l : Locals) :
  named xs (this l) -> named xs (clear_invalid l).
Proof.
  intros H. unfold clear_invalid. repeat case_match; auto 10 with names.
Qed.

Lemma named_make_draggable (xs : list Obj) (s : Measure) :
  named xs s -> named xs (make_draggable s).
Proof.
  intros H. unfold make_draggable.
  destruct (polyline s) as [line|]; [|exact H].
  generalize (traverse (nextId s) (nextId s) (objects s) line). intros l.
  revert s H. induction l as [|x l IH]; intros s H; [exact H|].
  simpl. apply IH. case_decide; auto with names.
Qed.

Lemma named_remove_temp_line (xs : list Obj) (s : Measure) :
  named xs s -> named xs (remove_temp_line s).
Proof.
  intros H. unfold remove_temp_line. repeat case_match; auto with names.
Qed.

#[local] Hint Resolve named_complete_area named_complete_distance
  named_complete_angle named_clear_invalid named_make_draggable
  named_remove_temp_line : names.

Lemma named_complete (xs : list Obj) (s : Measure) :
  named xs s -> named xs (complete s).
Proof.
  intros H. unfold complete. destruct (isCompleted s); [exact H|].
  auto 20 with names.
Qed.

Lemma named_move_help (xs : list Obj) (l : LabelText) (p : Vec3)
    (s : Measure) :
  named xs s -> named xs (move_help l p s).
Proof. apply named_addHelpLabel. Qed.

Lemma named_move_point (xs : list Obj) (s : Measure) :
  named xs s -> named xs (move_point s).
Proof.
  intros H. unfold move_point, createPoints.
  destruct (tempPoints s); [exact H|].
  pose proof (named_new_geometry xs (new_Points 1) s eq_refl H) as H'.
  destruct (new_object (new_Points 1) s) as [x s']. simpl in H'.
  apply (named_weaken xs x), named_set_tempPoints;
    [intros ? [= <-]; left|].
  apply named_scene_add, H'.
Qed.

(** The temporary line in use, old or new, is counted in. *)
Lemma named_tempLine_or_new (xs : list Obj) (s : Measure) :
  named xs s -> named ((tempLine_or_new s).1 :: xs) (tempLine_or_new s).2.
Proof.
  intros H. unfold tempLine_or_new, createLine.
  destruct (tempLine s) as [line|] eqn:E.
  - simpl. intros o [Ho|Ho].
    + apply H. left. exact Ho.
    + apply elem_of_cons in Ho. apply H. destruct Ho as [->|Ho]; [|auto].
      left. unfold geometry. rewrite E. set_solver.
  - apply named_new_geometry; [reflexivity|exact H].
Qed.

Lemma named_move_first_point (xs : list Obj) (s : Measure) :
  named xs s -> named xs (move_first_point s).
Proof.
  intros H. unfold move_first_point. case_match; [|exact H].
  pose proof (named_tempLine_or_new xs s H) as H'.
  destruct (tempLine_or_new s) as [line s']. simpl in H'.
  apply named_weaken in H'. case_match; auto with names.
Qed.

Lemma named_move_segment (xs : list Obj) (line : Obj) (p0 p : Vec3)
    (s : Measure) :
  named xs s -> named xs (move_segment line p0 p s).
Proof. intros H. unfold move_segment. case_match; auto 10 with names. Qed.

Lemma named_move_distance_label (xs : list Obj) (line : Obj) (p0 p : Vec3)
    (s : Measure) :
  named xs s -> named xs (move_distance_label line p0 p s).
Proof.
  intros H. unfold move_distance_label. case_decide; auto with names.
Qed.

Lemma named_keep_temp_line (xs : list Obj) (line : Obj) (s : Measure) :
  named (line :: xs) s -> named xs (keep_temp_line line s).
Proof.
  intros H. unfold keep_temp_line. apply (named_weaken xs line).
  destruct (tempLine s); [exact H|].
  apply named_set_tempLine; [intros ? [= <-]; left|].
  apply named_scene_add, H.
Qed.

#[local] Hint Resolve named_move_help named_move_point
  named_move_first_point named_move_segment named_move_distance_label
  : names.

Lemma named_move_line (xs : list Obj) (p : Vec3) (s : Measure) :
  named xs s -> named xs (move_line p s).
Proof.
  intros H. unfold move_line. case_match; [|exact H].
  pose proof (named_tempLine_or_new xs _
                (named_move_help xs help_finish p s H)) as H'.
  destruct (tempLine_or_new (move_help help_finish p s)) as [line s'].
  simpl in H'. apply named_keep_temp_line. auto with names.
Qed.

Lemma named_mousemove (xs : list Obj) (e : Event) (s : Measure) :
  named xs s -> named xs (mousemove e s).
Proof.
  intros H. unfold mousemove.
  destruct (getClosestIntersection e (set_mouseMoved true s));
    [|auto with names].
  apply named_move_line. auto 10 with names.
Qed.

Lemma named_keep_label (xs : list Obj) (line : Obj) (s : Measure) :
  named xs s -> named xs (keep_label line s).
Proof.
  intros H. unfold keep_label. destruct (tempLabel s); [|exact H].
  apply named_set_objects; [|auto with names]. intros o. apply name_of_add.
Qed.

Lemma named_settle_fontSize (xs : list Obj) (s : Measure) :
  named xs s -> named xs (settle_fontSize s).
Proof. intros H. unfold settle_fontSize. case_match; auto with names. Qed.

#[local] Hint Resolve named_keep_label named_settle_fontSize : names.

Lemma named_click_polyline (xs : list Obj) (p : Vec3) (s : Measure) :
  named xs s -> named xs (click_polyline p s).
Proof.
  intros H. unfold click_polyline. repeat case_match; auto 10 with names.
Qed.

Lemma named_click_faces (xs : list Obj) (p : Vec3) (s : Measure) :
  named xs s -> named xs (click_faces p s).
Proof.
  intros H. unfold click_faces. repeat case_match; auto 10 with names.
Qed.

Lemma named_onMouseClicked (xs : list Obj) (e : Event) (s : Measure) :
  named xs s -> named xs (onMouseClicked e s).
Proof.
  intros H. unfold onMouseClicked. repeat case_match; try exact H.
  unfold auto_complete. case_match; [apply named_complete|];
    unfold push_point;
    auto 10 using named_click_polyline, named_click_faces with names.
Qed.

Lemma named_call (xs : list Obj) (h : Handler) (e : Event) (s : Measure) :
  named xs s -> named xs (call h e s).
Proof.
  intros H. destruct h; unfold call.
  - unfold mousedown. auto with names.
  - apply named_mousemove, H.
  - unfold mouseup. case_match; [apply named_onMouseClicked|]; exact H.
  - apply named_complete, H.
  - unfold keydown, cancel. repeat case_decide;
      auto using named_complete with names.
Qed.

Lemma named_dispatch (xs : list Obj) (t : Target) (type : string)
    (e : Event) (s : Measure) :
  named xs s -> named xs (dispatch t type e s).
Proof.
  unfold dispatch.
  generalize (filter (fun l => l_target l = t /\ l_type l = type)
                     (listeners s)).
  intros ls. revert s. induction ls as [|l ls IH]; intros s H; [exact H|].
  cbn [foldl]. apply IH, named_call, H.
Qed.

Lemma named_run (xs : list Obj) (acts : list Action) (s : Measure) :
  named xs s -> named xs (run acts s).
Proof.
  unfold run. revert s.
  induction acts as [|a acts IH]; intros s H; [exact H|].
  cbn [foldl]. apply IH.
  destruct a as [[m| | |]|t type e|]; unfold step, invoke, cancel, fontLoaded.
  - apply named_open, H.
  - apply named_close, H.
  - apply named_close, H.
  - apply named_complete, H.
  - apply named_dispatch, H.
  - auto with names.
Qed.

(** The points, the polyline, the faces and the temporary point and
    line objects of the tool are named [OBJ_NAME] whatever has happened
    since they were created, so the hit test never picks a point on
    them: a ray that meets nothing but the tool's own geometry gives no
    intersection. *)
Theorem own_geometry_is_not_picked (s0 : Measure) (acts : list Action)
    (e : Event) :
  named [] s0 ->
  (forall item, item ∈ hits e ->
     Some (object item) ∈ geometry (run acts s0)) ->
  named [] (run acts s0) /\ getClosestIntersection e (run acts s0) = None.
Proof.
  intros H0 He. pose proof (named_run [] acts s0 H0) as H.
  split; [exact H|].
  destruct (getClosestIntersection e (run acts s0)) as [p|] eqn:E;
    [|reflexivity].
  apply getClosestIntersection_Some in E.
  destruct E as (_ & _ & pre & item & post & Hh & _ & Hn & _).
  destruct Hn. apply H. left. apply He. rewrite Hh. set_solver.
Qed.

Lemma own_geometry_is_not_picked_witness :
  getClosestIntersection (hit 3%nat (of_Z 10) (vec 1 2 3) 5000)
    (run (Call (Open (Some Distance)) :: clicks 2) tool) = None.
Proof.
  apply own_geometry_is_not_picked.
  - intros o [Ho|Ho]; vm_compute in Ho; inversion Ho; subst;
      repeat match goal with H : _ ∈ _ |- _ => inversion H; clear H; subst end.
  - intros item Hi. apply list_elem_of_singleton in Hi. subst item.
    vm_compute. right. left.
Defined.

(** ** What the tool leaves in the scene *)

Create HintDb tidy.

Lemma parent_of_add_inv (p c o q : Obj) (h : Store) :
  parent_of (Object3D_add p c h) o = Some q ->
  o = c \/ parent_of h o = Some q.
Proof.
  unfold Object3D_add. case_decide; [auto|].
  destruct (h !! c) as [oc|] eqn:Hc; [|auto].
  destruct (decide (o = c)) as [->|Hne]; [auto|].
  rewrite parent_of_insert_ne by auto. auto.
Qed.

Lemma parent_of_alter (f : Object3D -> Object3D) (c o : Obj) (h : Store) :
  (forall x, parent (f x) = parent x) ->
  parent_of (alter f c h) o = parent_of h o.
Proof.
  intros Hf. unfold parent_of. destruct (decide (o = c)) as [->|Hne].
  - rewrite lookup_alter_eq. destruct (h !! c); simpl; auto.
  - rewrite lookup_alter_ne by auto. reflexivity.
Qed.

Lemma not_in_scene_removed (y : Obj) (s : Measure) :
  ~ in_scene (scene_remove (Some y) s) y.
Proof.
  unfold in_scene, scene_remove. cbn [objects scene set_objects remove_opt].
  rewrite parent_of_remove. case_decide as Hd; [discriminate|].
  intros H. apply Hd. auto.
Qed.

Section Tidy.

Variable host : Obj -> Prop.

(** The two things to check for a statement: what it brings into the
    scene it holds on to, and what it held on to in the scene it still
    holds on to. *)
Lemma tidy_step (co co' : bool) (s s' : Measure) :
  (forall o, in_scene s' o -> in_scene s o \/ Some o ∈ own co' s') ->
  (forall o, Some o ∈ own co s -> in_scene s' o -> Some o ∈ own co' s') ->
  tidy host co s -> tidy host co' s'.
Proof.
  intros A B H o Ho. destruct (A o Ho) as [Hi|Hw]; [|auto].
  destruct (H o Hi) as [Hh|Hown]; [auto|]. right. apply B; assumption.
Qed.

Lemma tidy_curve (s : Measure) : tidy host false s -> tidy host true s.
Proof.
  apply tidy_step; [auto|]. intros o Ho _. unfold own in *.
  rewrite elem_of_app in *. destruct Ho as [Ho|Ho]; [auto|].
  apply elem_of_nil in Ho. destruct Ho.
Qed.

Variable co : bool.

Lemma tidy_same (f : Measure -> Measure) (s : Measure) :
  (forall x, objects (f x) = objects x /\ scene (f x) = scene x /\
             own co (f x) = own co x) ->
  tidy host co s -> tidy host co (f s).
Proof.
  intros Hf. destruct (Hf s) as (A & B & C).
  apply tidy_step.
  - intros o Ho. left. unfold in_scene in *. rewrite A, B in Ho. exact Ho.
  - intros o Ho _. rewrite C. exact Ho.
Qed.

Lemma tidy_shrink (h : Store) (s : Measure) :
  (forall o, parent_of h o = Some (scene s) ->
             parent_of (objects s) o = Some (scene s)) ->
  tidy host co s -> tidy host co (set_objects h s).
Proof.
  intros Hh. apply tidy_step.
  - intros o Ho. left. apply Hh, Ho.
  - intros o Ho _. exact Ho.
Qed.

Lemma tidy_scene_remove (c : option Obj) (s : Measure) :
  tidy host co s -> tidy host co (scene_remove c s).
Proof.
  apply tidy_shrink. intros o Ho. apply parent_of_remove_opt in Ho. tauto.
Qed.

Lemma tidy_remove_from_scene (x : Measure -> option Obj) (s : Measure) :
  tidy host co s -> tidy host co (remove_from_scene x s).
Proof. apply tidy_scene_remove. Qed.

Lemma tidy_update_object (c : Obj) (f : Object3D -> Object3D) (s : Measure) :
  (forall x, parent (f x) = parent x) ->
  tidy host co s -> tidy host co (update_object c f s).
Proof.
  intros Hf. apply tidy_shrink. intros o Ho.
  rewrite parent_of_alter in Ho by exact Hf. exact Ho.
Qed.

Lemma tidy_remove_line_labels (s : Measure) :
  tidy host co s -> tidy host co (remove_line_labels s).
Proof.
  apply tidy_shrink. intros o Ho.
  destruct (polyline s); [apply remove_labels_parent in Ho|]; exact Ho.
Qed.

Lemma tidy_new_object (x : Object3D) (s : Measure) :
  parent x = None -> tidy host co s -> tidy host co (new_object x s).2.
Proof.
  intros Hx H. unfold new_object. cbn [snd].
  refine (tidy_same (set_nextId (S (nextId s))) _ _ _);
    [intro; repeat split|].
  apply tidy_shrink; [|exact H]. intros o Ho.
  destruct (decide (o = nextId s)) as [->|Hne].
  - unfold parent_of in Ho. rewrite lookup_insert_eq in Ho. simpl in Ho.
    congruence.
  - rewrite parent_of_insert_ne in Ho by auto. exact Ho.
Qed.

Lemma tidy_scene_add (c : Obj) (s : Measure) :
  Some c ∈ own co s -> tidy host co s -> tidy host co (scene_add c s).
Proof.
  intros Hc. apply tidy_step.
  - intros o Ho. apply parent_of_add_inv in Ho.
    destruct Ho as [->|Ho]; [right; exact Hc|left; exact Ho].
  - intros o Ho _. exact Ho.
Qed.

End Tidy.

Ltac own_cases Ho :=
  unfold own in Ho |- *;
  cbn [points polyline faces tempPoints tempLine tempLineForArea helpLabel
       tempLabel curve set_points set_polyline set_faces set_tempPoints
       set_tempLine set_helpLabel set_tempLabel set_curve] in Ho |- *;
  rewrite elem_of_app, !elem_of_cons in Ho;
  rewrite elem_of_app, !elem_of_cons.

Section TidyFields.

Variable host : Obj -> Prop.
Variable co : bool.

(** Assigning a field: what it held, if it is in the scene, it must
    still hold. *)
Lemma tidy_set_points (v : option Obj) (s : Measure) :
  (forall y, points s = Some y -> in_scene s y -> v = Some y) ->
  tidy host co s -> tidy host co (set_points v s).
Proof.
  intros Hv. apply tidy_step; [intros o Ho; left; exact Ho|].
  intros o Ho Hi. own_cases Ho.
  destruct Ho as [[Ho|Ho]|Ho]; [|tauto|tauto].
  left. left. symmetry. apply Hv; auto.
Qed.

Lemma tidy_set_polyline (v : option Obj) (s : Measure) :
  (forall y, polyline s = Some y -> in_scene s y -> v = Some y) ->
  tidy host co s -> tidy host co (set_polyline v s).
Proof.
  intros Hv. apply tidy_step; [intros o Ho; left; exact Ho|].
  intros o Ho Hi. own_cases Ho.
  destruct Ho as [[Ho|[Ho|Ho]]|Ho]; [tauto| |tauto|tauto].
  left. right. left. symmetry. apply Hv; auto.
Qed.

Lemma tidy_set_tempPoints (v : option Obj) (s : Measure) :
  (forall y, tempPoints s = Some y -> in_scene s y -> v = Some y) ->
  tidy host co s -> tidy host co (set_tempPoints v s).
Proof.
  intros Hv. apply tidy_step; [intros o Ho; left; exact Ho|].
  intros o Ho Hi. own_cases Ho.
  destruct Ho as [[Ho|[Ho|[Ho|[Ho|Ho]]]]|Ho]; [tauto|tauto|tauto| |tauto|tauto].
  left. do 3 right. left. symmetry. apply Hv; auto.
Qed.

Lemma tidy_set_tempLine (v : option Obj) (s : Measure) :
  (forall y, tempLine s = Some y -> in_scene s y -> v = Some y) ->
  tidy host co s -> tidy host co (set_tempLine v s).
Proof.
  intros Hv. apply tidy_step; [intros o Ho; left; exact Ho|].
  intros o Ho Hi. own_cases Ho.
  destruct Ho as [[Ho|[Ho|[Ho|[Ho|[Ho|Ho]]]]]|Ho];
    [tauto|tauto|tauto|tauto| |tauto|tauto].
  left. do 4 right. left. symmetry. apply Hv; auto.
Qed.

Lemma tidy_set_helpLabel (v : option Obj) (s : Measure) :
  (forall y, helpLabel s = Some y -> in_scene s y -> v = Some y) ->
  tidy host co s -> tidy host co (set_helpLabel v s).
Proof.
  intros Hv. apply tidy_step; [intros o Ho; left; exact Ho|].
  intros o Ho Hi. own_cases Ho.
  destruct Ho as [[Ho|[Ho|[Ho|[Ho|[Ho|[Ho|[Ho|Ho]]]]]]]|Ho];
    [tauto|tauto|tauto|tauto|tauto|tauto| |tauto|tauto].
  left. do 6 right. left. symmetry. apply Hv; auto.
Qed.

Lemma tidy_set_tempLabel (v : option Obj) (s : Measure) :
  (forall y, tempLabel s = Some y -> in_scene s y -> v = Some y) ->
  tidy host co s -> tidy host co (set_tempLabel v s).
Proof.
  intros Hv. apply tidy_step; [intros o Ho; left; exact Ho|].
  intros o Ho Hi. own_cases Ho.
  destruct Ho as [[Ho|[Ho|[Ho|[Ho|[Ho|[Ho|[Ho|[Ho|Ho]]]]]]]]|Ho];
    [tauto|tauto|tauto|tauto|tauto|tauto|tauto| |tauto|tauto].
  left. do 7 right. left. symmetry. apply Hv; auto.
Qed.

End TidyFields.

Ltac owned :=
  unfold own;
  cbn [points polyline faces tempPoints tempLine tempLineForArea helpLabel
       tempLabel curve set_points set_polyline set_faces set_tempPoints
       set_tempLine set_helpLabel set_tempLabel set_curve];
  rewrite elem_of_app, !elem_of_cons; auto 12.

#[local] Hint Extern 1 (forall x : Object3D, parent _ = parent x) =>
  (intro; reflexivity) : tidy.

#[local] Hint Extern 5 (tidy ?h ?co (?f ?s)) =>
  (refine (tidy_same h co f s _ _); [solve [intro; repeat split]|]) : tidy.

#[local] Hint Resolve tidy_scene_remove tidy_remove_from_scene
  tidy_update_object tidy_remove_line_labels : tidy.

Section TidyBlocks.

Variable host : Obj -> Prop.
Variable co : bool.

Lemma tidy_createHelper (l : LabelText) (s : Measure) :
  tidy host co s -> tidy host co (createHelper l s).2.
Proof. apply tidy_new_object. reflexivity. Qed.

Lemma tidy_addHelpLabel (l : LabelText) (p : Vec3) (s : Measure) :
  tidy host co s -> tidy host co (addHelpLabel l p s).
Proof.
  intros H. unfold addHelpLabel. destruct (helpLabel s) eqn:E.
  - rewrite E. auto with tidy.
  - pose proof (tidy_createHelper l s H) as H'.
    assert (E' : helpLabel (createHelper l s).2 = None).
    { unfold createHelper. rewrite (keeps_new_object helpLabel)
        by (intros ? ?; reflexivity). exact E. }
    destruct (createHelper l s) as [x s']. cbn [snd] in H', E'. simpl.
    apply tidy_update_object; [intro; reflexivity|].
    apply tidy_scene_add; [owned|].
    refine (tidy_same host co (log console_log) _ _ _);
      [intro; repeat split|].
    apply tidy_set_helpLabel; [|exact H'].
    intros y Hy. rewrite E' in Hy. discriminate.
Qed.

Lemma tidy_addOrUpdateLabel (o : Obj) (l : LabelText) (p d : Vec3)
    (x : number) (s : Measure) :
  tidy host co s -> tidy host co (addOrUpdateLabel o l p d x s).
Proof.
  intros H. unfold addOrUpdateLabel.
  destruct (negb (font s)); [auto with tidy|].
  pose proof (tidy_createHelper l _ (tidy_scene_remove host co (tempLabel s) s H))
    as H'.
  assert (E : tempLabel (createHelper l (scene_remove (tempLabel s) s)).2
              = tempLabel s).
  { unfold createHelper. rewrite (keeps_new_object tempLabel)
      by (intros ? ?; reflexivity). reflexivity. }
  assert (N : forall y, tempLabel s = Some y ->
                ~ in_scene (createHelper l (scene_remove (tempLabel s) s)).2 y).
  { intros y Hy Hi. unfold createHelper, new_object, in_scene in Hi.
    cbn [snd objects scene set_nextId set_objects] in Hi.
    destruct (decide (y = nextId (scene_remove (tempLabel s) s))) as [Hn|Hn].
    - unfold parent_of in Hi. rewrite Hn, lookup_insert_eq in Hi.
      discriminate.
    - rewrite parent_of_insert_ne in Hi by exact Hn.
      rewrite Hy in Hi. exact (not_in_scene_removed y s Hi). }
  destruct (createHelper l (scene_remove (tempLabel s) s)) as [y s'].
  cbn [snd] in H', E, N.
  apply tidy_scene_add; [owned|].
  apply tidy_update_object; [intro; reflexivity|].
  apply tidy_set_tempLabel; [|exact H'].
  intros z Hz Hi. rewrite E in Hz. destruct (N z Hz Hi).
Qed.

#[local] Hint Resolve tidy_addHelpLabel tidy_addOrUpdateLabel : tidy.

Lemma tidy_write_vertex (line : Obj) (i : nat) (p : Vec3) (s : Measure) :
  tidy host co s -> tidy host co (write_vertex line i p s).
Proof. apply tidy_update_object. intro. reflexivity. Qed.

Lemma tidy_setDrawRange (line : Obj) (n : nat) (s : Measure) :
  tidy host co s -> tidy host co (setDrawRange line n s).
Proof. apply tidy_update_object. intro. reflexivity. Qed.

#[local] Hint Resolve tidy_write_vertex tidy_setDrawRange : tidy.

Lemma tidy_close_loop (line : Obj) (n : nat) (p : Vec3) (s : Measure) :
  tidy host co s -> tidy host co (close_loop line n p s).
Proof. intros H. unfold close_loop. case_match; auto with tidy. Qed.

#[local] Hint Resolve tidy_close_loop : tidy.

Lemma tidy_label_area (line : Obj) (n : nat) (s : Measure) :
  tidy host co s -> tidy host co (label_area line n s).
Proof. intros H. unfold label_area. auto with tidy. Qed.

Lemma tidy_complete_area (l : Locals) :
  tidy host co (this l) -> tidy host co (this (complete_area l)).
Proof.
  intros H. unfold complete_area.
  repeat case_match; simpl; auto using tidy_label_area with tidy.
Qed.

Lemma tidy_complete_distance (l : Locals) :
  tidy host co (this l) -> tidy host co (this (complete_distance l)).
Proof.
  intros H. unfold complete_distance. repeat case_match; simpl; exact H.
Qed.

Lemma tidy_clear_points (s : Measure) :
  tidy host co s -> tidy host co (set_points None (remove_from_scene points s)).
Proof.
  intros H. apply tidy_set_points; [|apply tidy_remove_from_scene, H].
  intros y Hy Hi. exfalso.
  change (points (remove_from_scene points s)) with (points s) in Hy.
  unfold remove_from_scene in Hi. rewrite Hy in Hi.
  exact (not_in_scene_removed y s Hi).
Qed.

Lemma tidy_clear_polyline (s : Measure) :
  tidy host co s ->
  tidy host co (set_polyline None (remove_from_scene polyline s)).
Proof.
  intros H. apply tidy_set_polyline; [|apply tidy_remove_from_scene, H].
  intros y Hy Hi. exfalso.
  change (polyline (remove_from_scene polyline s)) with (polyline s) in Hy.
  unfold remove_from_scene in Hi. rewrite Hy in Hi.
  exact (not_in_scene_removed y s Hi).
Qed.

Lemma tidy_clear_invalid (l : Locals) :
  tidy host co (this l) -> tidy host co (clear_invalid l).
Proof.
  intros H. unfold clear_invalid.
  repeat case_match;
    repeat (apply tidy_clear_polyline || apply tidy_clear_points); exact H.
Qed.

Lemma tidy_make_draggable (s : Measure) :
  tidy host co s -> tidy host co (make_draggable s).
Proof.
  intros H. unfold make_draggable.
  destruct (polyline s) as [line|]; [|exact H].
  generalize (traverse (nextId s) (nextId s) (objects s) line). intros l.
  revert s H. induction l as [|x l IH]; intros s H; [exact H|].
  simpl. apply IH. case_decide; auto with tidy.
Qed.

Lemma tidy_remove_temp_line (s : Measure) :
  tidy host co s -> tidy host co (remove_temp_line s).
Proof.
  intros H. unfold remove_temp_line. repeat case_match; auto with tidy.
Qed.

Lemma tidy_move_help (l : LabelText) (p : Vec3) (s : Measure) :
  tidy host co s -> tidy host co (move_help l p s).
Proof. apply tidy_addHelpLabel. Qed.

Lemma tidy_move_point (s : Measure) :
  tidy host co s -> tidy host co (move_point s).
Proof.
  intros H. unfold move_point, createPoints.
  destruct (tempPoints s) eqn:E; [exact H|].
  pose proof (tidy_new_object host co (new_Points 1) s eq_refl H) as H'.
  assert (E' : tempPoints (new_object (new_Points 1) s).2 = None).
  { rewrite (keeps_new_object tempPoints) by (intros ? ?; reflexivity).
    exact E. }
  destruct (new_object (new_Points 1) s) as [x s']. cbn [snd] in H', E'.
  revert H'. apply tidy_step.
  - intros o Ho. apply parent_of_add_inv in Ho.
    destruct Ho as [->|Ho]; [right; owned|left; exact Ho].
  - intros o Ho _. own_cases Ho. rewrite E' in Ho.
    destruct Ho as [[Ho|[Ho|[Ho|[Ho|Ho]]]]|Ho]; try tauto. discriminate.
Qed.

Lemma tidy_tempLine_or_new (s : Measure) :
  tidy host co s -> tidy host co (tempLine_or_new s).2.
Proof.
  intros H. unfold tempLine_or_new, createLine.
  destruct (tempLine s); [exact H|]. apply tidy_new_object; auto.
Qed.

Lemma tidy_move_first_point (s : Measure) :
  tidy host co s -> tidy host co (move_first_point s).
Proof.
  intros H. unfold move_first_point. case_match; [|exact H].
  pose proof (tidy_tempLine_or_new s H) as H'.
  destruct (tempLine_or_new s) as [line s']. simpl in H'.
  case_match; auto with tidy.
Qed.

Lemma tidy_move_segment (line : Obj) (p0 p : Vec3) (s : Measure) :
  tidy host co s -> tidy host co (move_segment line p0 p s).
Proof. intros H. unfold move_segment. case_match; auto 10 with tidy. Qed.

Lemma tidy_move_distance_label (line : Obj) (p0 p : Vec3) (s : Measure) :
  tidy host co s -> tidy host co (move_distance_label line p0 p s).
Proof.
  intros H. unfold move_distance_label. case_decide; auto with tidy.
Qed.

Lemma tidy_keep_temp_line (line : Obj) (s : Measure) :
  tidy host co s -> tidy host co (keep_temp_line line s).
Proof.
  unfold keep_temp_line. destruct (tempLine s) eqn:E; [auto|].
  apply tidy_step.
  - intros o Ho. apply parent_of_add_inv in Ho.
    destruct Ho as [->|Ho]; [right; owned|left; exact Ho].
  - intros o Ho _. own_cases Ho. rewrite E in Ho.
    destruct Ho as [[Ho|[Ho|[Ho|[Ho|[Ho|Ho]]]]]|Ho]; try tauto. discriminate.
Qed.

#[local] Hint Resolve tidy_move_help tidy_move_point tidy_move_first_point
  tidy_move_segment tidy_move_distance_label tidy_keep_temp_line : tidy.

Lemma tidy_move_line (p : Vec3) (s : Measure) :
  tidy host co s -> tidy host co (move_line p s).
Proof.
  intros H. unfold move_line. case_match; [|exact H].
  pose proof (tidy_tempLine_or_new _ (tidy_move_help help_finish p s H))
    as H'.
  destruct (tempLine_or_new (move_help help_finish p s)) as [line s'].
  simpl in H'. auto with tidy.
Qed.

Lemma tidy_mousemove (e : Event) (s : Measure) :
  tidy host co s -> tidy host co (mousemove e s).
Proof.
  intros H. unfold mousemove.
  destruct (getClosestIntersection e (set_mouseMoved true s));
    [|auto with tidy].
  apply tidy_move_line. auto 10 with tidy.
Qed.

Lemma tidy_keep_label (line : Obj) (s : Measure) :
  tidy host co s -> tidy host co (keep_label line s).
Proof.
  unfold keep_label. destruct (tempLabel s) as [l|] eqn:E; [|auto].
  apply tidy_step.
  - intros o Ho. apply parent_of_add_inv in Ho.
    destruct Ho as [->|Ho]; [right|left; exact Ho].
    unfold own. cbn [tempLabel set_objects set_tempLineLabelArr].
    rewrite E, elem_of_app, !elem_of_cons. auto 12.
  - intros o Ho _. exact Ho.
Qed.

Lemma tidy_settle_fontSize (s : Measure) :
  tidy host co s -> tidy host co (settle_fontSize s).
Proof. intros H. unfold settle_fontSize. case_match; auto with tidy. Qed.

#[local] Hint Resolve tidy_keep_label tidy_settle_fontSize : tidy.

Lemma tidy_click_polyline (p : Vec3) (s : Measure) :
  tidy host co s -> tidy host co (click_polyline p s).
Proof.
  intros H. unfold click_polyline. repeat case_match; auto 10 with tidy.
Qed.

Lemma tidy_click_faces (p : Vec3) (s : Measure) :
  tidy host co s -> tidy host co (click_faces p s).
Proof.
  intros H. unfold click_faces. repeat case_match; auto 10 with tidy.
Qed.

(** The tail of [complete], from the invalid case on. *)
Lemma tidy_complete_tail (l : Locals) :
  tidy host co (this l) ->
  tidy host co
    (l |> clear_invalid |> make_draggable |> set_isCompleted true
       |> set_cursor EmptyString |> remove_from_scene tempPoints
       |> remove_temp_line |> remove_from_scene tempLineForArea
       |> remove_from_scene helpLabel |> set_fontSize zero).
Proof.
  intros H.
  auto 20 using tidy_clear_invalid, tidy_make_draggable, tidy_remove_temp_line
    with tidy.
Qed.

End TidyBlocks.

Section TidyRun.

Variable host : Obj -> Prop.

Lemma tidy_label_angle (line : Obj) (s : Measure) :
  tidy host false s -> tidy host true (label_angle line s).
Proof.
  intros H. unfold label_angle.
  match goal with
  | |- context [addOrUpdateLabel ?a ?b ?c ?d ?e s] =>
    pose proof (tidy_addOrUpdateLabel host false a b c d e s H) as H';
    generalize dependent (addOrUpdateLabel a b c d e s)
  end.
  intros s' H'.
  match goal with
  | |- context [createCurve ?a ?b ?c s'] =>
    pose proof (tidy_new_object host false
                  (set_array (Some (fromPoints (getPoints a b c 4)))
                     (set_name LABEL_NAME blank)) s' eq_refl H') as H'';
    unfold createCurve;
    destruct (new_object
                (set_array (Some (fromPoints (getPoints a b c 4)))
                   (set_name LABEL_NAME blank)) s') as [x s'']
  end.
  cbn [snd] in H''. revert H''. apply tidy_step.
  - intros o Ho. apply parent_of_add_inv in Ho.
    destruct Ho as [->|Ho]; [right|left; exact Ho].
    unfold own. apply elem_of_app. right. left.
  - intros o Ho _. unfold own in *.
    rewrite elem_of_app in *. destruct Ho as [Ho|Ho]; [left; exact Ho|].
    apply elem_of_nil in Ho. destruct Ho.
Qed.

Lemma tidy_complete_angle (l : Locals) :
  tidy host false (this l) -> tidy host true (this (complete_angle l)).
Proof.
  intros H. unfold complete_angle.
  repeat case_match; simpl;
    try (apply tidy_curve; exact H).
  apply tidy_label_angle, H.
Qed.

Lemma tidy_complete (s : Measure) :
  tidy host (isCompleted s) s -> tidy host (isCompleted (complete s)) (complete s).
Proof.
  intros H. destruct (complete_fields s) as (_ & _ & -> & _).
  destruct (isCompleted s) eqn:Hc.
  { rewrite complete_completed by exact Hc. exact H. }
  unfold complete. rewrite Hc.
  apply tidy_complete_tail, tidy_complete_angle, tidy_complete_distance,
    tidy_complete_area. exact H.
Qed.

Lemma tidy_onMouseClicked (e : Event) (s : Measure) :
  tidy host (isCompleted s) s ->
  tidy host (isCompleted (onMouseClicked e s)) (onMouseClicked e s).
Proof.
  intros H.
  destruct (getClosestIntersection e s) as [p|] eqn:Hp;
    [destruct (debounced e s) eqn:Hd|].
  - rewrite onMouseClicked_rejected by auto. exact H.
  - rewrite (onMouseClicked_accepted e s p Hp Hd).
    set (x := push_point p
                (click_faces p
                   (click_polyline p (set_lastClickTime (Some (now e)) s)))).
    assert (Hx : isCompleted x = isCompleted s).
    { unfold x, push_point.
      change (isCompleted (click_faces p
                (click_polyline p (set_lastClickTime (Some (now e)) s)))
              = isCompleted s).
      rewrite (keeps_click_faces isCompleted),
        (keeps_click_polyline isCompleted)
        by (intros ? ?; reflexivity).
      reflexivity. }
    assert (H' : tidy host (isCompleted x) x).
    { rewrite Hx. unfold x, push_point.
      refine (tidy_same host _ (set_pointArray _) _ _ _);
        [intro; repeat split|].
      apply tidy_click_faces, tidy_click_polyline.
      refine (tidy_same host _ (set_lastClickTime _) _ _ _);
        [intro; repeat split|].
      exact H. }
    unfold auto_complete. case_match; [apply tidy_complete|]; exact H'.
  - rewrite onMouseClicked_rejected by auto. exact H.
Qed.

Lemma close_host (co : bool) (s : Measure) (o : Obj) :
  tidy host co s -> in_scene (close s) o -> host o.
Proof.
  intros H Ho. rewrite (close_unfold s) in Ho.
  unfold in_scene in Ho. cbn [closed objects scene] in Ho.
  apply close_objects_parent in Ho.
  destruct Ho as (Hi & H1 & H2 & H3 & H4 & H5 & H6 & H7 & H8 & H9).
  destruct (H o Hi) as [Hh|Hown]; [exact Hh|]. exfalso.
  unfold own in Hown. rewrite elem_of_app, !elem_of_cons, elem_of_nil in Hown.
  destruct co; rewrite ?elem_of_cons, ?elem_of_nil in Hown;
    repeat match goal with H : _ \/ _ |- _ => destruct H end;
    try contradiction; congruence.
Qed.

Lemma tidy_close (co co' : bool) (s : Measure) :
  tidy host co s -> tidy host co' (close s).
Proof. intros H o Ho. left. apply (close_host co s o H Ho). Qed.

Lemma tidy_open (co : bool) (m : option MeasureMode) (s : Measure) :
  (scene s < nextId s)%nat ->
  tidy host co s -> tidy host (isCompleted (open m s)) (open m s).
Proof.
  intros Hlt H o Ho. apply (in_scene_open m s o Hlt) in Ho.
  destruct Ho as [Ho|Ho].
  - left. apply (close_host co s o H Ho).
  - right. unfold own. rewrite elem_of_app, !elem_of_cons.
    destruct Ho as [Ho|[Ho|[_ Ho]]]; auto 12.
Qed.

Lemma tidy_call (h : Handler) (e : Event) (s : Measure) :
  tidy host (isCompleted s) s ->
  tidy host (isCompleted (call h e s)) (call h e s).
Proof.
  intros H. destruct h; unfold call.
  - exact H.
  - destruct (mousemove_committed e s) as [_ Hc].
    assert (Hi : isCompleted (mousemove e s) = isCompleted s)
      by (unfold committed in Hc; congruence).
    rewrite Hi. apply tidy_mousemove, H.
  - unfold mouseup. case_match; [apply tidy_onMouseClicked|]; exact H.
  - apply tidy_complete, H.
  - unfold keydown, cancel.
    destruct (decide (key e = "Enter"%string)); [apply tidy_complete, H|].
    destruct (decide (key e = "Escape"%string));
      [apply (tidy_close (isCompleted s)), H|exact H].
Qed.

Lemma tidy_dispatch (t : Target) (type : string) (e : Event) (s : Measure) :
  tidy host (isCompleted s) s ->
  tidy host (isCompleted (dispatch t type e s)) (dispatch t type e s).
Proof.
  unfold dispatch.
  generalize (filter (fun l => l_target l = t /\ l_type l = type)
                     (listeners s)).
  intros ls. revert s. induction ls as [|l ls IH]; intros s H; [exact H|].
  cbn [foldl]. apply IH, tidy_call, H.
Qed.

Lemma tidy_run (acts : list Action) (s : Measure) :
  wf s -> tidy host (isCompleted s) s ->
  tidy host (isCompleted (run acts s)) (run acts s).
Proof.
  unfold run. revert s.
  induction acts as [|a acts IH]; intros s Hw H; [exact H|].
  cbn [foldl]. apply IH; [apply wf_step, Hw|].
  destruct a as [[m| | |]|t type e|]; unfold step, invoke, cancel, fontLoaded.
  - apply (tidy_open (isCompleted s)); [exact (proj1 Hw)|exact H].
  - apply (tidy_close (isCompleted s)), H.
  - apply (tidy_close (isCompleted s)), H.
  - apply tidy_complete, H.
  - apply tidy_dispatch, H.
  - exact H.
Qed.

End TidyRun.

(** The tool leaves nothing of its own behind: whatever it was asked to
    do, by method calls and by events, every child of the scene after
    [close] was a child of the scene before it all started. *)
Theorem close_leaves_no_object (s0 : Measure) (acts : list Action)
    (o : Obj) :
  wf s0 -> in_scene (close (run acts s0)) o -> in_scene s0 o.
Proof.
  intros Hw Ho.
  assert (H0 : tidy (in_scene s0) (isCompleted s0) s0)
    by (intros x Hx; left; exact Hx).
  pose proof (tidy_run (in_scene s0) acts s0 Hw H0) as H.
  apply (close_host (in_scene s0) _ _ _ H Ho).
Qed.

Lemma close_leaves_no_object_witness : in_scene tool 1%nat.
Proof.
  apply (close_leaves_no_object tool
           (Call (Open (Some Angle)) :: clicks 3) 1%nat);
    [exact wf_tool|vm_compute; reflexivity].
Defined.
